(** * Content-generation pipeline: quality scorer, platform strategies,
      strategy registry and generation orchestrator.

    A shallow embedding of the TypeScript services
    (content-validator.service, twitter.strategy, linkedin.strategy,
    platform-optimizer.service, content-generator.service) and the
    properties their specification states about them.

    Modelling conventions
    - a JavaScript string is the list of its UTF-16 code units ([N]);
    - a JavaScript number is a real number ([R]): arithmetic is exact,
      IEEE-754 rounding is not modelled.  A score computed in doubles can
      differ from the exact one in the last place, and at a tie
      [Math.round] turns that into one step of 0.1.  What is stated about
      scores does not depend on it: bounds, values on inputs where the
      arithmetic of doubles is exact, and the formulas themselves; and
      what the orchestrator does with a score is stated for every scorer
      it may be given ([generateContentWith]);
    - regular expressions are values of an AST run by a backtracking
      matcher that follows the ECMAScript evaluation order (leftmost
      match, greedy quantifiers, ordered alternatives);
    - [String.prototype.toLowerCase] / [toUpperCase] depend on the Unicode
      tables of the runtime and are taken as an interface ([CaseMapping]);
    - the external model provider is an oracle consulted by a small
      interaction tree ([Prog]);
    - an optional field of a request is [None] when it is [undefined];
      the tone can also be [null], which the validation of the endpoint
      lets through and which no default of the service replaces. *)

From Stdlib Require Import List NArith ZArith Bool Arith Lia String Ascii.
From Stdlib Require Import Reals Lra.
Import ListNotations.

Set Implicit Arguments.

(* ================================================================== *)
(** * JavaScript strings *)
(* ================================================================== *)

Module JS.

Definition char := N.
Definition jsstring := list char.

(** An ASCII literal as a sequence of code units. *)
Definition js (s : string) : jsstring :=
  map N_of_ascii (list_ascii_of_string s).

Definition dq : jsstring := [34%N].        (* the double-quote character *)
Definition nl : jsstring := [10%N].        (* "\n" *)

Definition in_range (lo hi c : N) : bool := (N.leb lo c) && (N.leb c hi).

Definition is_digit (c : char) : bool := in_range 48 57 c.
Definition is_upper (c : char) : bool := in_range 65 90 c.
Definition is_lower (c : char) : bool := in_range 97 122 c.
Definition is_alpha (c : char) : bool := is_upper c || is_lower c.

(** [\w] is [[A-Za-z0-9_]]. *)
Definition is_word (c : char) : bool :=
  is_alpha c || is_digit c || N.eqb c 95.

(** ECMAScript LineTerminator: LF, CR, LS, PS. *)
Definition is_line_terminator (c : char) : bool :=
  N.eqb c 10 || N.eqb c 13 || N.eqb c 0x2028 || N.eqb c 0x2029.

(** [\s], and the characters removed by [trim]: WhiteSpace and
    LineTerminator. *)
Definition is_space (c : char) : bool :=
  in_range 9 13 c || N.eqb c 32 || N.eqb c 0xA0 || N.eqb c 0x1680
  || in_range 0x2000 0x200A c || N.eqb c 0x2028 || N.eqb c 0x2029
  || N.eqb c 0x202F || N.eqb c 0x205F || N.eqb c 0x3000 || N.eqb c 0xFEFF.

Definition is_ascii (c : char) : bool := N.ltb c 128.

Definition ascii_lower (c : char) : char := if is_upper c then (c + 32)%N else c.
Definition ascii_upper (c : char) : char := if is_lower c then (c - 32)%N else c.

Definition char_in (cs : jsstring) (c : char) : bool := existsb (N.eqb c) cs.

Fixpoint str_eqb (a b : jsstring) : bool :=
  match a, b with
  | [], [] => true
  | x :: a', y :: b' => N.eqb x y && str_eqb a' b'
  | _, _ => false
  end.

(** [s.startsWith(p)] *)
Fixpoint startsWith (s p : jsstring) : bool :=
  match p, s with
  | [], _ => true
  | x :: p', y :: s' => N.eqb x y && startsWith s' p'
  | _ :: _, [] => false
  end.

(** [s.includes(p)] *)
Fixpoint includes (s p : jsstring) : bool :=
  startsWith s p ||
  match s with
  | [] => false
  | _ :: s' => includes s' p
  end.

(** [s.endsWith(p)] *)
Definition endsWith (s p : jsstring) : bool := startsWith (rev s) (rev p).

Fixpoint dropWhile (p : char -> bool) (s : jsstring) : jsstring :=
  match s with
  | [] => []
  | c :: s' => if p c then dropWhile p s' else s
  end.

Definition trimStart (s : jsstring) : jsstring := dropWhile is_space s.
Definition trimEnd (s : jsstring) : jsstring := rev (dropWhile is_space (rev s)).

(** [s.trim()] *)
Definition trim (s : jsstring) : jsstring := trimEnd (trimStart s).

(** [s.substring(0, n)] and [a.slice(0, n)] for [n >= 0]. *)
Definition substring0 (n : nat) (s : jsstring) : jsstring := firstn n s.
Definition slice0 {A} (n : nat) (l : list A) : list A := firstn n l.

(** [s.charAt(0)]: the empty string when [s] is empty. *)
Definition charAt0 (s : jsstring) : jsstring := firstn 1 s.

(** [a.join(sep)] *)
Fixpoint join (sep : jsstring) (l : list jsstring) : jsstring :=
  match l with
  | [] => []
  | [x] => x
  | x :: l' => x ++ sep ++ join sep l'
  end.

(** [a.includes(x)] on an array of strings. *)
Definition array_includes (l : list jsstring) (x : jsstring) : bool :=
  existsb (str_eqb x) l.

(** Decimal rendering of a number that is a natural. *)
Fixpoint digits_of (fuel n : nat) (acc : jsstring) : jsstring :=
  match fuel with
  | O => acc
  | S f =>
      let d := N.of_nat (n mod 10) in
      let acc' := (48 + d)%N :: acc in
      if (n / 10 =? 0)%nat then acc' else digits_of f (n / 10) acc'
  end.
Definition nat_to_string (n : nat) : jsstring := digits_of (S n) n [].

End JS.
Export JS.

(* ================================================================== *)
(** * Regular expressions *)
(* ================================================================== *)

Module Regex.

(** The fragment of ECMAScript patterns used by the services. *)
Inductive regex : Type :=
| Eps
| Chr (p : char -> bool)          (* one character of a class *)
| Seq (r1 r2 : regex)
| Alt (r1 r2 : regex)             (* r1|r2, r1 tried first *)
| Star (r : regex)                (* greedy r* *)
| Bol (multiline : bool)          (* ^ *)
| Eol                             (* $ (no m flag) *)
| WordB                           (* \b *)
| Group (i : nat) (r : regex).    (* i-th capturing group *)

Definition caps := list (nat * jsstring).

Fixpoint cap_get (i : nat) (cs : caps) : jsstring :=
  match cs with
  | [] => []
  | (j, s) :: cs' => if (i =? j)%nat then s else cap_get i cs'
  end.

Definition prev_is (p : char -> bool) (pre : jsstring) : bool :=
  match pre with [] => false | c :: _ => p c end.

Definition at_bol (multiline : bool) (pre : jsstring) : bool :=
  match pre with
  | [] => true
  | c :: _ => multiline && is_line_terminator c
  end.

(** The continuation of a match: input before and after the position
    reached, and the captures so far. *)
Definition cont (X : Type) : Type := jsstring -> jsstring -> caps -> option X.

(** The greedy loop of [r*]: one more iteration of [step] when it
    consumes input and the rest of the pattern then succeeds, else the
    continuation.  Every iteration consumes a character, so the length of
    the remaining input is fuel enough. *)
Fixpoint star_loop {X : Type}
    (step : jsstring -> jsstring -> caps -> cont X -> option X)
    (k : cont X) (fuel : nat) (pre rest : jsstring) (cs : caps) : option X :=
  match fuel with
  | O => k pre rest cs
  | S fuel' =>
      match step pre rest cs
              (fun pre' rest' cs' =>
                 if (List.length rest' <? List.length rest)%nat
                 then star_loop step k fuel' pre' rest' cs'
                 else None) with
      | Some x => Some x
      | None => k pre rest cs
      end
  end.

(** Backtracking matcher in continuation-passing style.  [pre] is the
    input before the current position, most recent character first;
    [rest] is the input from the current position on. *)
Fixpoint rmatch {X : Type} (r : regex) (pre rest : jsstring) (cs : caps)
    (k : cont X) {struct r} : option X :=
  match r with
  | Eps => k pre rest cs
  | Chr p =>
      match rest with
      | c :: rest' => if p c then k (c :: pre) rest' cs else None
      | [] => None
      end
  | Seq r1 r2 =>
      rmatch r1 pre rest cs (fun pre' rest' cs' => rmatch r2 pre' rest' cs' k)
  | Alt r1 r2 =>
      match rmatch r1 pre rest cs k with
      | Some x => Some x
      | None => rmatch r2 pre rest cs k
      end
  | Star r1 =>
      star_loop (fun pre' rest' cs' k' => rmatch r1 pre' rest' cs' k')
                k (List.length rest) pre rest cs
  | Bol ml => if at_bol ml pre then k pre rest cs else None
  | Eol => match rest with [] => k pre rest cs | _ :: _ => None end
  | WordB =>
      if xorb (prev_is is_word pre) (prev_is is_word rest)
      then k pre rest cs else None
  | Group i r1 =>
      rmatch r1 pre rest cs
        (fun pre' rest' cs' =>
           k pre' rest' ((i, firstn (List.length rest - List.length rest') rest) :: cs'))
  end.

(** One match attempt at the current position: length of the match and
    the captures. *)
Definition rexec (r : regex) (pre rest : jsstring) : option (nat * caps) :=
  rmatch r pre rest []
    (fun _ rest' cs => Some ((List.length rest - List.length rest')%nat, cs)).

(** Pattern builders. *)
Definition chr (c : char) : regex := Chr (N.eqb c).
Definition plus (r : regex) : regex := Seq r (Star r).

Fixpoint seqs (l : list regex) : regex :=
  match l with
  | [] => Eps
  | [r] => r
  | r :: l' => Seq r (seqs l')
  end.

Fixpoint alts (l : list regex) : regex :=
  match l with
  | [] => Chr (fun _ => false)
  | [r] => r
  | r :: l' => Alt r (alts l')
  end.

(** [r{n,}] *)
Fixpoint at_least (n : nat) (r : regex) : regex :=
  match n with
  | O => Star r
  | S n' => Seq r (at_least n' r)
  end.

Definition lit (s : jsstring) : regex := seqs (map chr s).

(** A literal under the [i] flag (no [u] flag).  The patterns of the
    services are ASCII, for which Canonicalize identifies exactly the two
    ASCII cases of a letter. *)
Definition chr_i (c : char) : regex :=
  Chr (fun x => N.eqb (ascii_upper x) (ascii_upper c)).
Definition lit_i (s : jsstring) : regex := seqs (map chr_i s).

(** Replacement strings: text and [$n] references. *)
Inductive rpiece : Type :=
| Lit (s : jsstring)
| Ref (i : nat).

Fixpoint expand (t : list rpiece) (cs : caps) : jsstring :=
  match t with
  | [] => []
  | Lit s :: t' => s ++ expand t' cs
  | Ref i :: t' => cap_get i cs ++ expand t' cs
  end.

(** [re.test(s)] (no [g] flag): is there a match at some position? *)
Fixpoint test_from (r : regex) (pre s : jsstring) : bool :=
  match rexec r pre s with
  | Some _ => true
  | None =>
      match s with
      | [] => false
      | c :: s' => test_from r (c :: pre) s'
      end
  end.
Definition test (r : regex) (s : jsstring) : bool := test_from r [] s.

(** [s.replace(re, t)] without the [g] flag: the leftmost match only. *)
Fixpoint replace_from (r : regex) (t : list rpiece) (pre s : jsstring)
  : jsstring :=
  match rexec r pre s with
  | Some (n, cs) => expand t cs ++ skipn n s
  | None =>
      match s with
      | [] => []
      | c :: s' => c :: replace_from r t (c :: pre) s'
      end
  end.
Definition replace (r : regex) (t : list rpiece) (s : jsstring) : jsstring :=
  replace_from r t [] s.

(** [s.replace(re, t)] with the [g] flag.  [skip] counts the characters
    of the current match still to be passed over. *)
Fixpoint replaceAll_go (r : regex) (t : list rpiece) (skip : nat)
    (pre s : jsstring) : jsstring :=
  match s with
  | [] =>
      match skip with
      | O => match rexec r pre [] with
             | Some (_, cs) => expand t cs
             | None => []
             end
      | S _ => []
      end
  | c :: s' =>
      match skip with
      | S k => replaceAll_go r t k (c :: pre) s'
      | O =>
          match rexec r pre s with
          | Some (O, cs) => expand t cs ++ c :: replaceAll_go r t 0 (c :: pre) s'
          | Some (S n, cs) => expand t cs ++ replaceAll_go r t n (c :: pre) s'
          | None => c :: replaceAll_go r t 0 (c :: pre) s'
          end
      end
  end.
Definition replaceAll (r : regex) (t : list rpiece) (s : jsstring) : jsstring :=
  replaceAll_go r t 0 [] s.

(** [s.match(re) || []] with the [g] flag: all matched substrings. *)
Fixpoint matchAll_go (r : regex) (skip : nat) (pre s : jsstring)
  : list jsstring :=
  match s with
  | [] =>
      match skip with
      | O => match rexec r pre [] with Some _ => [[]] | None => [] end
      | S _ => []
      end
  | c :: s' =>
      match skip with
      | S k => matchAll_go r k (c :: pre) s'
      | O =>
          match rexec r pre s with
          | Some (O, _) => [] :: matchAll_go r 0 (c :: pre) s'
          | Some (S n, _) => firstn (S n) s :: matchAll_go r n (c :: pre) s'
          | None => matchAll_go r 0 (c :: pre) s'
          end
      end
  end.
Definition matchAll (r : regex) (s : jsstring) : list jsstring :=
  matchAll_go r 0 [] s.

(** [s.split(re)] for a pattern without capturing groups.  [cur] is the
    piece being accumulated, most recent character first. *)
Fixpoint split_go (r : regex) (skip : nat) (pre cur s : jsstring)
  : list jsstring :=
  match s with
  | [] => [rev cur]
  | c :: s' =>
      match skip with
      | S k => split_go r k (c :: pre) [] s'
      | O =>
          match rexec r pre s with
          | Some (S n, _) => rev cur :: split_go r n (c :: pre) [] s'
          | Some (O, _) =>
              match cur with
              | [] => split_go r 0 (c :: pre) [c] s'
              | _ :: _ => rev cur :: split_go r 0 (c :: pre) [c] s'
              end
          | None => split_go r 0 (c :: pre) (c :: cur) s'
          end
      end
  end.
Definition split (r : regex) (s : jsstring) : list jsstring :=
  match s with
  | [] => match rexec r [] [] with Some _ => [] | None => [[]] end
  | _ :: _ => split_go r 0 [] [] s
  end.

(** [s.split(sep)] and [s.replace(sep, t)] with a non-empty string
    separator behave as with the literal pattern. *)
Definition splitStr (sep s : jsstring) : list jsstring := split (lit sep) s.
Definition replaceStr (pat t s : jsstring) : jsstring := replace (lit pat) [Lit t] s.

(** Shared classes. *)
Definition ws : regex := Chr is_space.       (* \s *)
Definition digit : regex := Chr is_digit.    (* \d *)
Definition word : regex := Chr is_word.      (* \w *)

End Regex.
Export Regex.

(* ================================================================== *)
(** * Numbers and the runtime's case mapping *)
(* ================================================================== *)

Open Scope R_scope.

(** [Math.round]: nearest integer, ties towards +infinity. *)
Definition Math_round (x : R) : R := IZR (Int_part (x + / 2)).
Definition Math_max (a b : R) : R := Rmax a b.
Definition Math_min (a b : R) : R := Rmin a b.
Definition Math_sqrt (x : R) : R := sqrt x.

(** [String.prototype.toLowerCase] and [toUpperCase].  On strings of
    ASCII characters lower-casing is the ASCII one; elsewhere it is what
    the runtime's Unicode tables say. *)
Class CaseMapping : Type := {
  toLowerCase : jsstring -> jsstring;
  toUpperCase : jsstring -> jsstring;
  toLowerCase_ascii :
    forall s, forallb is_ascii s = true -> toLowerCase s = map ascii_lower s
}.

(* ================================================================== *)
(** * ContentValidatorService (the quality scorer) *)
(* ================================================================== *)

Module Validator.

Record QualityScore : Type := {
  overall : R;
  authenticity : R;
  engagement : R;
  clarity : R;
  platform : R
}.

Record Issues : Type := {
  critical : list jsstring;
  warnings : list jsstring;
  suggestions : list jsstring
}.

Record Metrics : Type := {
  readabilityScore : R;
  sentenceVariety : R;
  aiSlopCount : nat;
  engagementElements : list jsstring
}.

Record ContentQualityResult : Type := {
  score : QualityScore;
  issues : Issues;
  metrics : Metrics
}.

Definition push_critical (i : Issues) (m : jsstring) : Issues :=
  {| critical := critical i ++ [m]; warnings := warnings i;
     suggestions := suggestions i |}.
Definition push_warning (i : Issues) (m : jsstring) : Issues :=
  {| critical := critical i; warnings := warnings i ++ [m];
     suggestions := suggestions i |}.
Definition push_suggestion (i : Issues) (m : jsstring) : Issues :=
  {| critical := critical i; warnings := warnings i;
     suggestions := suggestions i ++ [m] |}.

Definition AI_SLOP_PHRASES : list jsstring :=
  [ js "delve"; js "delve into"; js "unlock the power"; js "unlock";
    js "game-changer"; js "game changer"; js "revolutionize";
    js "in conclusion"; js "in summary"; js "to summarize";
    js "it's important to note"; js "it is important to note";
    js "tapestry"; js "landscape"; js "realm"; js "leverage"; js "synergy";
    js "paradigm shift"; js "cutting-edge"; js "state-of-the-art";
    js "best practices"; js "world-class"; js "robust"; js "seamless";
    js "holistic"; js "innovative"; js "disruptive"; js "transformative";
    js "at the end of the day"; js "think outside the box";
    js "low-hanging fruit"; js "move the needle"; js "deep dive" ].

Definition CORPORATE_JARGON : list jsstring :=
  [ js "circle back"; js "touch base"; js "synergize"; js "drill down";
    js "bandwidth"; js "take it offline"; js "run it up the flagpole";
    js "boil the ocean"; js "drinking from the fire hose" ].

(** The entries of the ENGAGEMENT_ELEMENTS object, in insertion order:
    /\?/, /\d+/, /^(\d+\.|[-\u2022])/m, /^(Stop|Start|Here's|I spent|The biggest)/i,
    /\b(learn|discover|create|build|avoid|start|stop)\b/i. *)
Definition ENGAGEMENT_ELEMENTS : list (jsstring * regex) :=
  [ (js "question", lit (js "?"));
    (js "numbers", plus digit);
    (js "listFormat",
      Seq (Bol true)
          (Group 1 (Alt (Seq (plus digit) (lit (js ".")))
                        (Chr (char_in [45%N; 0x2022%N])))));
    (js "hook",
      Seq (Bol false)
          (Group 1 (alts [ lit_i (js "Stop"); lit_i (js "Start");
                           lit_i (js "Here's"); lit_i (js "I spent");
                           lit_i (js "The biggest") ])));
    (js "actionWord",
      seqs [ WordB;
             Group 1 (alts [ lit_i (js "learn"); lit_i (js "discover");
                             lit_i (js "create"); lit_i (js "build");
                             lit_i (js "avoid"); lit_i (js "start");
                             lit_i (js "stop") ]);
             WordB ]) ].

(** /[.!?]+/ *)
Definition re_sentence_end : regex := plus (Chr (char_in (js ".!?"))).
(** /[aeiouy]+/g *)
Definition re_vowels : regex := plus (Chr (char_in (js "aeiouy"))).
(** /\b(because|example|specifically|for instance)\b/i *)
Definition re_specifics : regex :=
  seqs [ WordB;
         Group 1 (alts [ lit_i (js "because"); lit_i (js "example");
                         lit_i (js "specifically"); lit_i (js "for instance") ]);
         WordB ].

Section WithCaseMapping.
Context {CM : CaseMapping}.

Definition detectAISlop (content : jsstring) : list jsstring :=
  let lowerContent := toLowerCase content in
  filter (fun phrase => includes lowerContent (toLowerCase phrase)) AI_SLOP_PHRASES.

Definition detectCorporateJargon (content : jsstring) : list jsstring :=
  let lowerContent := toLowerCase content in
  filter (fun jargon => includes lowerContent (toLowerCase jargon)) CORPORATE_JARGON.

Definition detectEngagementElements (content : jsstring) : list jsstring :=
  map fst (filter (fun e => test (snd e) content) ENGAGEMENT_ELEMENTS).

(** Syllables of one word of the loop in [countSyllables]. *)
Definition wordSyllables (word : jsstring) : Z :=
  let vowels := matchAll re_vowels word in
  let syllables := Z.of_nat (List.length vowels) in
  let syllables := if endsWith word (js "e") then (syllables - 1)%Z else syllables in
  Z.max 1 syllables.

Definition countSyllables (text : jsstring) : Z :=
  let words := split (plus ws) (toLowerCase text) in
  fold_left (fun totalSyllables word => (totalSyllables + wordSyllables word)%Z)
            words 0%Z.

(** content.split(/[.!?]+/).filter((s) => s.trim().length > 0) *)
Definition sentencesOf (content : jsstring) : list jsstring :=
  filter (fun s => (0 <? List.length (trim s))%nat) (split re_sentence_end content).

Definition calculateReadability (content : jsstring) : R :=
  let sentences := sentencesOf content in
  let words := filter (fun w => (0 <? List.length w)%nat) (split (plus ws) content) in
  let syllables := countSyllables content in
  if ((List.length sentences =? 0) || (List.length words =? 0))%nat then 0
  else
    let avgWordsPerSentence := INR (List.length words) / INR (List.length sentences) in
    let avgSyllablesPerWord := IZR syllables / INR (List.length words) in
    let score := 206.835 - 1.015 * avgWordsPerSentence - 84.6 * avgSyllablesPerWord in
    Math_max 0 (Math_min 100 score).

Definition calculateSentenceVariety (content : jsstring) : R :=
  let sentences := sentencesOf content in
  if (List.length sentences <? 2)%nat then 1
  else
    let lengths := map (fun s => INR (List.length (split (plus ws) (trim s)))) sentences in
    let mean := fold_left (fun a b => a + b) lengths 0 / INR (List.length lengths) in
    let variance :=
      fold_left (fun sum length => sum + (length - mean) ^ 2) lengths 0
      / INR (List.length lengths) in
    let stdDev := Math_sqrt variance in
    if Rlt_dec 0 mean then stdDev / mean else 0.

Definition genericPhrases : list jsstring :=
  [ js "many people"; js "it is well known"; js "everyone knows";
    js "as we all know"; js "generally speaking"; js "in today's world";
    js "in this day and age" ].

Definition isGeneric (content : jsstring) : bool :=
  let lowerContent := toLowerCase content in
  let genericCount :=
    List.length (filter (fun phrase => includes lowerContent phrase) genericPhrases) in
  let hasNumbers := test (plus digit) content in
  let hasSpecifics := test re_specifics content in
  (0 <? genericCount)%nat
  || (negb hasNumbers && negb hasSpecifics && (100 <? List.length content)%nat).

Definition round1 (x : R) : R := Math_round (x * 10) / 10.

Definition calculateQualityScore (content : jsstring)
    (slopCount jargonCount engagementCount : nat)
    (readability sentenceVariety : R) : QualityScore :=
  let authenticity := 10 - INR slopCount * 2 - INR jargonCount in
  let authenticity := Math_max 0 (Math_min 10 authenticity) in
  let engagement := Math_min 10 (INR engagementCount * 3) in
  let engagement :=
    if isGeneric content then Math_max 0 (engagement - 3) else engagement in
  let clarity := Math_min 10 (readability / 10) in
  let platform := Math_min 10 (sentenceVariety * 10 + 5) in
  let overall :=
    authenticity * 0.3 + engagement * 0.3 + clarity * 0.2 + platform * 0.2 in
  {| overall := round1 overall;
     authenticity := round1 authenticity;
     engagement := round1 engagement;
     clarity := round1 clarity;
     platform := round1 platform |}.

Definition quoted_list (l : list jsstring) : jsstring :=
  dq ++ join (dq ++ js ", " ++ dq) l ++ dq.

Definition validateContent (content : jsstring) : ContentQualityResult :=
  let issues := {| critical := []; warnings := []; suggestions := [] |} in
  let slopFound := detectAISlop content in
  let issues :=
    if (0 <? List.length slopFound)%nat
    then push_warning issues
           (js "AI slop detected: " ++ quoted_list slopFound
            ++ js ". Consider rewriting for authenticity.")
    else issues in
  let jargonFound := detectCorporateJargon content in
  let issues :=
    if (0 <? List.length jargonFound)%nat
    then push_warning issues
           (js "Corporate jargon found: " ++ quoted_list jargonFound
            ++ js ". Use plain language.")
    else issues in
  let engagementElements := detectEngagementElements content in
  let issues :=
    if (List.length engagementElements =? 0)%nat
    then push_suggestion issues
           (js "Add engagement elements: questions, numbers, or action words.")
    else issues in
  let readabilityScore := calculateReadability content in
  let issues :=
    if Rlt_dec readabilityScore 60
    then push_warning issues
           (js "Content is hard to read. Simplify sentences and use shorter words.")
    else issues in
  let sentenceVariety := calculateSentenceVariety content in
  let issues :=
    if Rlt_dec sentenceVariety 0.3
    then push_suggestion issues (js "Vary sentence length for better flow.")
    else issues in
  let issues :=
    if isGeneric content
    then push_critical issues
           (js "Content is too generic. Add specific examples, data, or insights.")
    else issues in
  let score :=
    calculateQualityScore content (List.length slopFound) (List.length jargonFound)
      (List.length engagementElements) readabilityScore sentenceVariety in
  let metrics :=
    {| readabilityScore := readabilityScore;
       sentenceVariety := sentenceVariety;
       aiSlopCount := List.length slopFound;
       engagementElements := engagementElements |} in
  {| score := score; issues := issues; metrics := metrics |}.

Definition isAcceptableQuality (content : jsstring) (minScore : R) : bool :=
  let result := validateContent content in
  (if Rle_dec minScore (overall (score result)) then true else false)
  && (List.length (critical (issues result)) =? 0)%nat.

End WithCaseMapping.
End Validator.
(* ================================================================== *)
(** * Platform strategies: the shared interface *)
(* ================================================================== *)

Module Strategy.

Record PlatformConstraints : Type := {
  maxLength : nat;
  minLength : option nat;
  maxHashtags : option nat;
  supportsThreads : option bool;
  supportsMedia : option bool;
  characterLimit : option nat
}.

Inductive Tone : Type :=
| professional | casual | conversational | formal | humorous.

Definition tone_string (t : Tone) : jsstring :=
  match t with
  | professional => js "professional"
  | casual => js "casual"
  | conversational => js "conversational"
  | formal => js "formal"
  | humorous => js "humorous"
  end.

(** The tone of a context is read through [tone || ...] only: [None]
    stands for [undefined] and for [null]. *)
Record ContentContext : Type := {
  topic : jsstring;
  tone : option Tone;
  targetAudience : option jsstring;
  includeHashtags : option bool;
  includeEmojis : option bool;
  callToAction : option jsstring;
  format : option jsstring
}.

Inductive Engagement : Type := low | medium | high.

Record OptimizedMetadata : Type := {
  platform : jsstring;
  characterCount : nat;
  wordCount : nat;
  estimatedEngagement : Engagement;
  suggestions : list jsstring
}.

Record OptimizedContent : Type := {
  content : jsstring;
  hashtags : list jsstring;
  metadata : OptimizedMetadata
}.

Record ValidationResult : Type := {
  isValid : bool;
  errors : list jsstring;
  warnings : list jsstring;
  score : R
}.

(** The [PlatformStrategy] interface. *)
Record PlatformStrategy : Type := {
  getPlatformName : jsstring;
  getConstraints : PlatformConstraints;
  optimize : jsstring -> ContentContext -> OptimizedContent;
  validate : jsstring -> ValidationResult;
  generatePrompt : ContentContext -> jsstring;
  postProcess : jsstring -> ContentContext -> jsstring
}.

(** [x || d] on an optional string: [d] when [x] is undefined or empty. *)
Definition str_or (x : option jsstring) (d : jsstring) : jsstring :=
  match x with
  | Some (c :: s) => c :: s
  | _ => d
  end.

Definition tone_or (context : ContentContext) (d : jsstring) : jsstring :=
  match tone context with
  | Some t => tone_string t
  | None => d
  end.

(** Truthiness of an optional boolean. *)
Definition truthy (b : option bool) : bool :=
  match b with Some true => true | _ => false end.

Definition format_is (context : ContentContext) (f : jsstring) : bool :=
  match format context with
  | Some g => str_eqb g f
  | None => false
  end.

(** The accumulators of [validate]: [errors], [warnings] and [score]. *)
Record Acc : Type := {
  acc_errors : list jsstring;
  acc_warnings : list jsstring;
  acc_score : R
}.

Definition acc0 : Acc := {| acc_errors := []; acc_warnings := []; acc_score := 10 |}.

Definition push_error (m : jsstring) (a : Acc) : Acc :=
  {| acc_errors := acc_errors a ++ [m]; acc_warnings := acc_warnings a;
     acc_score := acc_score a |}.
Definition push_warning (m : jsstring) (a : Acc) : Acc :=
  {| acc_errors := acc_errors a; acc_warnings := acc_warnings a ++ [m];
     acc_score := acc_score a |}.
Definition add_score (d : R) (a : Acc) : Acc :=
  {| acc_errors := acc_errors a; acc_warnings := acc_warnings a;
     acc_score := acc_score a + d |}.

(** [if (c) { ... }] on the accumulators. *)
Definition when (c : bool) (f : Acc -> Acc) (a : Acc) : Acc :=
  if c then f a else a.

Definition finish (a : Acc) : ValidationResult :=
  {| isValid := (List.length (acc_errors a) =? 0)%nat;
     errors := acc_errors a;
     warnings := acc_warnings a;
     score := Math_max 0 (Math_min 10 (acc_score a)) |}.

(** Patterns shared by the two strategies. *)
Definition re_hashtag : regex := Seq (lit (js "#")) (plus word).   (* /#[\w]+/g *)
Definition re_hash : regex := lit (js "#").                        (* /#/g *)
Definition re_question : regex := lit (js "?").                    (* /\?/ *)
Definition re_digits : regex := plus digit.                        (* /\d+/ *)
Definition re_newline : regex := lit nl.                           (* /\n/g *)
(** The class of the two quote characters (double, single), and the
    pattern [/^Q|Q$/g] over it. *)
Definition quote : regex := Chr (char_in [34%N; 39%N]).
Definition re_quotes : regex := Alt (Seq (Bol false) quote) (Seq quote Eol).
(** /!!!+/g *)
Definition re_bangs : regex :=
  seqs [lit (js "!"); lit (js "!"); plus (lit (js "!"))].
(** /\?\?+/g *)
Definition re_questions : regex := Seq (lit (js "?")) (plus (lit (js "?"))).

Definition quoted_list (l : list jsstring) : jsstring :=
  dq ++ join (dq ++ js ", " ++ dq) l ++ dq.

End Strategy.
Export Strategy.

(* ================================================================== *)
(** * TwitterStrategy *)
(* ================================================================== *)

Module Twitter.

Definition CHAR_LIMIT : nat := 280.
Definition OPTIMAL_LENGTH : nat := 250.
Definition MAX_HASHTAGS : nat := 2.

Definition getPlatformName : jsstring := js "twitter".

Definition getConstraints : PlatformConstraints :=
  {| maxLength := CHAR_LIMIT;
     minLength := Some 50%nat;
     maxHashtags := Some MAX_HASHTAGS;
     supportsThreads := Some true;
     supportsMedia := Some true;
     characterLimit := Some CHAR_LIMIT |}.

Definition generateSingleTweetPrompt (context : ContentContext) : jsstring :=
  List.concat [
    js "Create a high-performing Twitter post about: "; topic context; nl;
    nl;
    js "Requirements:"; nl;
    js "- Use a "; tone_or context (js "conversational"); js " tone"; nl;
    js "- Target audience: "; str_or (targetAudience context) (js "general tech audience"); nl;
    js "- Maximum 280 characters"; nl;
    js "- Start with a strong hook that triggers curiosity or emotion"; nl;
    js "- Use concrete, specific language (avoid vague generalities)"; nl;
    js "- Include one clear insight or takeaway"; nl;
    js "- End with a question or call-to-action to boost engagement"; nl;
    nl;
    js "CRITICAL - Avoid AI slop:"; nl;
    js "- NO clich"; [233%N]; js "s like "; dq; js "delve"; dq; js ", "; dq; js "unlock"; dq; js ", "; dq; js "game-changer"; dq; js ", "; dq; js "revolutionize"; dq; nl;
    js "- NO generic platitudes or obvious statements"; nl;
    js "- NO "; dq; js "In conclusion"; dq; js " or "; dq; js "To summarize"; dq; nl;
    js "- NO emoji spam"; nl;
    js "- Use specific examples over abstract concepts"; nl;
    js "- Write like a real human, not a corporate blog"; nl;
    nl;
    js "Structure: [Hook] "; [8594%N]; js " [Insight] "; [8594%N]; js " [Call-to-action]"; nl;
    nl;
    js "Output only the tweet text, nothing else." ].

Definition generateThreadPrompt (context : ContentContext) : jsstring :=
  List.concat [
    js "Create a high-performing Twitter thread about: "; topic context; nl;
    nl;
    js "Requirements:"; nl;
    js "- Use a "; tone_or context (js "conversational"); js " tone"; nl;
    js "- Target audience: "; str_or (targetAudience context) (js "general tech audience"); nl;
    js "- 3-5 tweets maximum"; nl;
    js "- Each tweet must be under 280 characters"; nl;
    js "- Thread structure:"; nl;
    js "  1. Hook tweet (start with curiosity gap or bold statement)"; nl;
    js "  2-3. Value tweets (insights, frameworks, examples)"; nl;
    js "  4. Conclusion tweet (summary + call-to-action)"; nl;
    nl;
    js "First tweet MUST grab attention using one of these patterns:"; nl;
    js "- "; dq; js "I spent [time] learning [topic]. Here's what I discovered:"; dq; nl;
    js "- "; dq; js "[Number] things about [topic] that changed how I think:"; dq; nl;
    js "- "; dq; js "The biggest mistake people make with [topic]:"; dq; nl;
    js "- "; dq; js "Here's why [contrarian opinion]:"; dq; nl;
    nl;
    js "CRITICAL - Avoid AI slop:"; nl;
    js "- NO clich"; [233%N]; js "s like "; dq; js "delve"; dq; js ", "; dq; js "unlock"; dq; js ", "; dq; js "game-changer"; dq; js ", "; dq; js "revolutionize"; dq; js ", "; dq; js "landscape"; dq; nl;
    js "- NO generic advice that could apply to anything"; nl;
    js "- NO emoji spam (max 1-2 per tweet)"; nl;
    js "- Use specific examples and concrete numbers"; nl;
    js "- Write conversationally, like you're texting a friend"; nl;
    js "- Each tweet should provide standalone value"; nl;
    nl;
    js "Format: Separate each tweet with "; dq; js "---"; dq; js " on a new line."; nl;
    nl;
    js "Output only the thread text, nothing else." ].

Definition generatePrompt (context : ContentContext) : jsstring :=
  if format_is context (js "thread")
  then generateThreadPrompt context
  else generateSingleTweetPrompt context.

Definition slopPhrases : list jsstring :=
  [ js "delve"; js "unlock the power"; js "game-changer"; js "revolutionize";
    js "in conclusion"; js "in summary"; js "it's important to note";
    js "tapestry"; js "landscape"; js "realm"; js "leverage"; js "synergy" ].

(** /^(Tweet|Thread):\s*/i *)
Definition re_label : regex :=
  seqs [ Bol false; Group 1 (Alt (lit_i (js "Tweet")) (lit_i (js "Thread")));
         lit_i (js ":"); Star ws ].

Definition postProcess (content : jsstring) : jsstring :=
  let processed := content in
  let processed := replace re_label [] processed in
  let processed := replaceAll re_quotes [] processed in
  let processed := trim processed in
  let processed := replaceAll (plus ws) [Lit (js " ")] processed in
  let processed := replaceAll re_bangs [Lit (js "!")] processed in
  let processed := replaceAll re_questions [Lit (js "?")] processed in
  processed.

Definition generateSuggestions (content : jsstring) (context : ContentContext)
  : list jsstring :=
  let suggestions := [] in
  let suggestions :=
    if (List.length content <? 100)%nat
    then suggestions ++ [js "Consider expanding with a specific example or data point"]
    else suggestions in
  let suggestions :=
    if negb (test re_question content)
    then suggestions ++ [js "Add a question at the end to encourage replies"]
    else suggestions in
  let suggestions :=
    if negb (test digit content)
    then suggestions ++ [js "Consider adding specific numbers or metrics for credibility"]
    else suggestions in
  let suggestions :=
    if format_is context (js "thread") && negb (includes content (js "---"))
    then suggestions ++ [js "For threads, separate tweets with " ++ dq ++ js "---" ++ dq]
    else suggestions in
  suggestions.

Section WithCaseMapping.
Context {CM : CaseMapping}.

Definition generateHashtags (topic : jsstring) : list jsstring :=
  let words := filter (fun w => (3 <? List.length w)%nat) (splitStr (js " ") topic) in
  map (fun w => js "#" ++ toUpperCase (charAt0 w) ++ skipn 1 w) (slice0 2 words).

Definition optimize (content : jsstring) (context : ContentContext)
  : OptimizedContent :=
  let optimizedContent := trim content in
  let hashtags : list jsstring := [] in
  let foundHashtags := matchAll re_hashtag optimizedContent in
  let optimizedContent :=
    if (0 <? List.length foundHashtags)%nat
    then trim (replaceAll re_hashtag [] optimizedContent)
    else optimizedContent in
  let hashtags :=
    if (0 <? List.length foundHashtags)%nat
    then hashtags ++ slice0 MAX_HASHTAGS foundHashtags
    else hashtags in
  let hashtags :=
    if truthy (includeHashtags context) && (List.length hashtags =? 0)%nat
    then hashtags ++ slice0 MAX_HASHTAGS (generateHashtags (topic context))
    else hashtags in
  let optimizedContent :=
    if (0 <? List.length hashtags)%nat
    then optimizedContent ++ nl ++ nl ++ join (js " ") hashtags
    else optimizedContent in
  let characterCount := List.length optimizedContent in
  let wordCount := List.length (split (plus ws) optimizedContent) in
  let estimatedEngagement :=
    if (characterCount <? 100)%nat then low
    else if (100 <? characterCount)%nat && (characterCount <? 250)%nat then high
    else if (250 <? characterCount)%nat then medium
    else medium in
  let suggestions := generateSuggestions optimizedContent context in
  {| content := optimizedContent;
     hashtags := map (replaceStr (js "#") (js "")) hashtags;
     metadata :=
       {| platform := js "twitter";
          characterCount := characterCount;
          wordCount := wordCount;
          estimatedEngagement := estimatedEngagement;
          suggestions := suggestions |} |}.

Definition validate (content : jsstring) : ValidationResult :=
  let a := acc0 in
  let a :=
    when (CHAR_LIMIT <? List.length content)%nat
      (fun a => add_score (-3)
         (push_error (js "Content exceeds Twitter's " ++ nat_to_string CHAR_LIMIT
                      ++ js " character limit") a)) a in
  let a :=
    when (List.length content <? 50)%nat
      (fun a => add_score (-1)
         (push_warning (js "Content is very short. Consider adding more value.") a)) a in
  let lowerContent := toLowerCase content in
  let foundSlop := filter (fun phrase => includes lowerContent phrase) slopPhrases in
  let a :=
    when (0 <? List.length foundSlop)%nat
      (fun a => add_score (- INR (List.length foundSlop))
         (push_warning (js "AI slop detected: " ++ quoted_list foundSlop
                        ++ js ". Consider rewriting.") a)) a in
  let hashtagCount := List.length (matchAll re_hash content) in
  let a :=
    when (3 <? hashtagCount)%nat
      (fun a => add_score (-1)
         (push_warning (js "Too many hashtags. 1-2 hashtags perform better.") a)) a in
  let hasQuestion := test re_question content in
  let hasNumbers := test re_digits content in
  let a :=
    when (negb hasQuestion && (100 <? List.length content)%nat)
      (push_warning (js "Consider ending with a question to boost engagement.")) a in
  let a := when hasNumbers (add_score 1) a in
  finish a.

Definition strategy : PlatformStrategy :=
  {| Strategy.getPlatformName := getPlatformName;
     Strategy.getConstraints := getConstraints;
     Strategy.optimize := optimize;
     Strategy.validate := validate;
     Strategy.generatePrompt := generatePrompt;
     Strategy.postProcess := fun content _ => postProcess content |}.

End WithCaseMapping.
End Twitter.

(* ================================================================== *)
(** * LinkedInStrategy *)
(* ================================================================== *)

Module LinkedIn.

Definition CHAR_LIMIT : nat := 3000.
Definition OPTIMAL_MIN_LENGTH : nat := 1300.
Definition OPTIMAL_MAX_LENGTH : nat := 2000.
Definition MIN_LENGTH : nat := 150.
Definition HOOK_CHAR_LIMIT : nat := 210.
Definition RECOMMENDED_HASHTAGS_min : nat := 3.
Definition RECOMMENDED_HASHTAGS_max : nat := 5.
Definition MAX_HASHTAGS : nat := 7.

Definition linkedinSlop : list jsstring :=
  [ js "thrilled to announce"; js "honored and humbled";
    js "i'm excited to share"; js "blessed and grateful"; js "thoughts?";
    js "agree?"; js "delve"; js "unlock"; js "game-changer";
    js "revolutionize"; js "game changer"; js "paradigm shift"; js "synergy";
    js "leverage"; js "circle back"; js "touch base"; js "low-hanging fruit";
    js "move the needle"; js "drink the kool-aid" ].

Definition getPlatformName : jsstring := js "linkedin".

Definition getConstraints : PlatformConstraints :=
  {| maxLength := CHAR_LIMIT;
     minLength := Some MIN_LENGTH;
     maxHashtags := Some RECOMMENDED_HASHTAGS_max;
     supportsThreads := Some false;
     supportsMedia := Some true;
     characterLimit := Some CHAR_LIMIT |}.

Definition generatePrompt (context : ContentContext) : jsstring :=
  List.concat [
    js "Create a high-performing LinkedIn post about: "; topic context; nl;
    nl;
    js "Requirements:"; nl;
    js "- Use a "; tone_or context (js "professional yet conversational"); js " tone"; nl;
    js "- Target audience: "; str_or (targetAudience context) (js "professionals in the industry"); nl;
    js "- Length: "; nat_to_string OPTIMAL_MIN_LENGTH; js "-"; nat_to_string OPTIMAL_MAX_LENGTH; js " characters (optimal for engagement)"; nl;
    js "- Maximum "; nat_to_string CHAR_LIMIT; js " characters"; nl;
    nl;
    js "Structure:"; nl;
    js "1. HOOK (first 2-3 lines, max "; nat_to_string HOOK_CHAR_LIMIT; js " chars - this shows before "; dq; js "see more"; dq; js "):"; nl;
    js "   - Start with a compelling hook: bold statement, question, data point, or personal story"; nl;
    js "   - Make it intriguing enough that readers want to click "; dq; js "see more"; dq; nl;
    js "   - Examples: "; dq; js "I analyzed 500 LinkedIn posts. Here's what the top performers have in common:"; dq; js " OR "; dq; js "Most professionals waste 10+ hours/week on this mistake:"; dq; nl;
    nl;
    js "2. MAIN CONTENT:"; nl;
    js "   - Use short paragraphs (2-3 lines max) with line breaks for readability"; nl;
    js "   - Include specific examples, data, or personal experiences (not abstract concepts)"; nl;
    js "   - Add credibility markers (years of experience, specific results, concrete numbers)"; nl;
    js "   - Tell a story or share a case study when relevant"; nl;
    js "   - Use bullet points or numbered lists for key takeaways"; nl;
    nl;
    js "3. VALUE & INSIGHTS:"; nl;
    js "   - Provide actionable insights, not generic advice"; nl;
    js "   - Share lessons learned or professional wisdom"; nl;
    js "   - Include data/metrics to support claims when possible"; nl;
    nl;
    js "4. CLOSING:"; nl;
    js "   - End with clear value proposition or key takeaway"; nl;
    js "   - Include call-to-action: "; str_or (callToAction context) (js "question for engagement or invitation to connect"); nl;
    js "   - Make it conversational and invite discussion"; nl;
    nl;
    js "Formatting:"; nl;
    js "- Use line breaks every 2-3 sentences for readability"; nl;
    js "- Add emojis sparingly (1-3 max) and only if they add value"; nl;
    js "- Use --- for section breaks if needed"; nl;
    js "- Leave hashtags for the end (we'll add them separately)"; nl;
    nl;
    js "CRITICAL - Write like a human professional:"; nl;
    js "- NO AI slop: avoid "; dq; js "thrilled to announce"; dq; js ", "; dq; js "honored and humbled"; dq; js ", "; dq; js "I'm excited to share"; dq; js ", "; dq; js "blessed and grateful"; dq; nl;
    js "- NO lazy engagement: avoid "; dq; js "Thoughts?"; dq; js " or "; dq; js "Agree?"; dq; js " as standalone CTAs"; nl;
    js "- NO corporate jargon: avoid "; dq; js "synergy"; dq; js ", "; dq; js "leverage"; dq; js ", "; dq; js "circle back"; dq; js ", "; dq; js "low-hanging fruit"; dq; js ", "; dq; js "paradigm shift"; dq; nl;
    js "- NO clich"; [233%N]; js "s: avoid "; dq; js "game-changer"; dq; js ", "; dq; js "revolutionize"; dq; js ", "; dq; js "unlock"; dq; js ", "; dq; js "delve"; dq; nl;
    js "- NO generic platitudes that could apply to anything"; nl;
    js "- Use specific examples over vague statements"; nl;
    js "- Write with personality and authenticity"; nl;
    js "- Share real experiences and concrete insights"; nl;
    nl;
    js "Tone guidelines:"; nl;
    js "- Professional but approachable (not stuffy or overly formal)"; nl;
    js "- Confident but not arrogant"; nl;
    js "- Data-driven when relevant"; nl;
    js "- Story-driven when appropriate"; nl;
    js "- Human and relatable"; nl;
    nl;
    js "Output only the post text, nothing else. Do not include hashtags in the main text." ].

(** /^(LinkedIn Post|Post):\s*/i *)
Definition re_label : regex :=
  seqs [ Bol false;
         Group 1 (Alt (lit_i (js "LinkedIn Post")) (lit_i (js "Post")));
         lit_i (js ":"); Star ws ].

Definition punct : regex := Chr (char_in (js ".,!?")).   (* [.,!?] *)
(** /\n{3,}/g *)
Definition re_blank_lines : regex := at_least 3 (lit nl).
(** /\.\.\.+/g *)
Definition re_dots : regex :=
  seqs [lit (js "."); lit (js "."); plus (lit (js "."))].
(** /\s+([.,!?])/g *)
Definition re_space_before_punct : regex := Seq (plus ws) (Group 1 punct).
(** /([.,!?])([A-Za-z])/g *)
Definition re_punct_letter : regex := Seq (Group 1 punct) (Group 2 (Chr is_alpha)).

Definition postProcess (content : jsstring) (context : ContentContext)
  : jsstring :=
  let processed := content in
  let processed := replace re_label [] processed in
  let processed := replaceAll re_quotes [] processed in
  let processed := trim processed in
  let processed := replaceAll re_blank_lines [Lit (nl ++ nl)] processed in
  let processed := replaceAll re_bangs [Lit (js "!")] processed in
  let processed := replaceAll re_questions [Lit (js "?")] processed in
  let processed := replaceAll re_dots [Lit (js "...")] processed in
  let processed := replaceAll re_space_before_punct [Ref 1] processed in
  let processed := replaceAll re_punct_letter [Ref 1; Lit (js " "); Ref 2] processed in
  processed.

(** /[^.!?]+[.!?]+/g *)
Definition re_sentence : regex :=
  Seq (plus (Chr (fun c => negb (char_in (js ".!?") c))))
      (plus (Chr (char_in (js ".!?")))).

(** The body of the [forEach] of [optimizeLineBreaks], threading
    [optimized] and [lineLength]; [n] is [sentences.length]. *)
Fixpoint lineBreaksLoop (n index : nat) (sentences : list jsstring)
    (optimized : jsstring) (lineLength : nat) : jsstring :=
  match sentences with
  | [] => optimized
  | sentence :: rest =>
      let trimmed := trim sentence in
      let lineLength := (lineLength + List.length trimmed)%nat in
      let optimized := optimized ++ trimmed in
      if (200 <? lineLength)%nat
         || ((0 <? index)%nat && ((index + 1) mod 2 =? 0)%nat)
      then lineBreaksLoop n (S index) rest (optimized ++ nl ++ nl) 0
      else if (index <? n - 1)%nat
      then lineBreaksLoop n (S index) rest (optimized ++ js " ") lineLength
      else lineBreaksLoop n (S index) rest optimized lineLength
  end.

Definition optimizeLineBreaks (content : jsstring) : jsstring :=
  let existingBreaks := List.length (matchAll re_newline content) in
  if (4 <=? existingBreaks)%nat then content
  else
    let sentences :=
      match matchAll re_sentence content with
      | [] => [content]
      | m => m
      end in
    if (List.length sentences <=? 2)%nat then content
    else trim (lineBreaksLoop (List.length sentences) 0 sentences [] 0).

Definition ctaPatterns : list regex :=
  map lit_i
    [ js "what do you think"; js "share your"; js "let me know";
      js "drop a comment"; js "comment below"; js "connect with me";
      js "follow for"; js "join the conversation"; js "what's your experience";
      js "have you tried" ].

Definition hasCallToAction (content : jsstring) : bool :=
  existsb (fun pattern => test pattern content) ctaPatterns.

Definition valuePatterns : list regex :=
  [ Seq (plus digit) (lit (js "%"));
    seqs [ plus digit; lit (js " ");
           Group 1 (alts [lit (js "years"); lit (js "months"); lit (js "weeks")]) ];
    lit_i (js "learned"); lit_i (js "discovered"); lit_i (js "insight");
    lit_i (js "lesson"); lit_i (js "strategy"); lit_i (js "approach");
    lit_i (js "framework"); lit_i (js "results"); lit_i (js "data shows");
    lit_i (js "research"); lit_i (js "analysis"); lit_i (js "case study") ].

Definition hasValueIndicators (content : jsstring) : bool :=
  existsb (fun pattern => test pattern content) valuePatterns.

Definition range_text : jsstring :=
  nat_to_string OPTIMAL_MIN_LENGTH ++ js "-" ++ nat_to_string OPTIMAL_MAX_LENGTH.
Definition recommended_text : jsstring :=
  nat_to_string RECOMMENDED_HASHTAGS_min ++ js "-"
  ++ nat_to_string RECOMMENDED_HASHTAGS_max.

Definition generateSuggestions (content : jsstring) (context : ContentContext)
  : list jsstring :=
  let suggestions := [] in
  let suggestions :=
    if (List.length content <? OPTIMAL_MIN_LENGTH)%nat
    then suggestions ++ [js "Expand to " ++ range_text
                          ++ js " characters for optimal engagement"]
    else suggestions in
  let hook := substring0 HOOK_CHAR_LIMIT content in
  let suggestions :=
    if negb (includes hook (js "?")) && negb (test digit hook)
    then suggestions ++ [js "Consider adding a question or specific number in your hook"]
    else suggestions in
  let lineBreaks := List.length (matchAll re_newline content) in
  let suggestions :=
    if (lineBreaks <? 3)%nat && (500 <? List.length content)%nat
    then suggestions ++ [js "Add more line breaks for better readability"]
    else suggestions in
  let suggestions :=
    if negb (hasCallToAction content)
    then suggestions ++ [js "Add a call-to-action to encourage comments and engagement"]
    else suggestions in
  let suggestions :=
    if negb (test digit content)
    then suggestions ++ [js "Include specific numbers, data, or metrics to add credibility"]
    else suggestions in
  let suggestions :=
    if negb (hasValueIndicators content)
    then suggestions ++ [js "Add concrete insights, lessons learned, or professional experiences"]
    else suggestions in
  let hashtagCount := List.length (matchAll re_hash content) in
  let suggestions :=
    if (hashtagCount =? 0)%nat && truthy (includeHashtags context)
    then suggestions ++ [js "Add " ++ recommended_text ++ js " relevant hashtags"]
    else suggestions in
  suggestions.

Definition genericOpenings : list regex :=
  map (fun s => Seq (Bol false) (lit_i s))
    [ js "in today's"; js "in this post"; js "let me share";
      js "i want to talk about" ].

Definition commonWords : list jsstring :=
  [ js "the"; js "a"; js "an"; js "and"; js "or"; js "but"; js "in"; js "on";
    js "at"; js "to"; js "for" ].

Definition generalHashtags : list jsstring :=
  [ js "#Leadership"; js "#ProfessionalDevelopment"; js "#CareerGrowth" ].

(** The [while] loop of [generateHashtags]; each iteration either pushes a
    tag or breaks, so three iterations exhaust it. *)
Fixpoint fillGeneral (fuel nwords : nat) (hashtags : list jsstring)
  : list jsstring :=
  match fuel with
  | O => hashtags
  | S fuel' =>
      if (List.length hashtags <? RECOMMENDED_HASHTAGS_min)%nat
      then
        let nextTag :=
          if (List.length hashtags <? nwords)%nat then None
          else nth_error generalHashtags (List.length hashtags - nwords) in
        match nextTag with
        | Some t =>
            if negb (array_includes hashtags t)
            then fillGeneral fuel' nwords (hashtags ++ [t])
            else hashtags
        | None => hashtags
        end
      else hashtags
  end.

Section WithCaseMapping.
Context {CM : CaseMapping}.

Definition generateHashtags (topic : jsstring) : list jsstring :=
  let words :=
    filter (fun w => (3 <? List.length w)%nat && negb (array_includes commonWords w))
           (split (plus ws) (toLowerCase topic)) in
  let hashtags :=
    map (fun word => js "#" ++ toUpperCase (charAt0 word) ++ skipn 1 word)
        (slice0 3 words) in
  let hashtags :=
    fillGeneral RECOMMENDED_HASHTAGS_min (List.length words) hashtags in
  slice0 RECOMMENDED_HASHTAGS_max hashtags.

Definition optimize (content : jsstring) (context : ContentContext)
  : OptimizedContent :=
  let optimizedContent := trim content in
  let hashtags : list jsstring := [] in
  let foundHashtags := matchAll re_hashtag optimizedContent in
  let optimizedContent :=
    if (0 <? List.length foundHashtags)%nat
    then trim (replaceAll re_hashtag [] optimizedContent)
    else optimizedContent in
  let hashtags :=
    if (0 <? List.length foundHashtags)%nat
    then hashtags ++ slice0 RECOMMENDED_HASHTAGS_max foundHashtags
    else hashtags in
  let hashtags :=
    if truthy (includeHashtags context) && (List.length hashtags =? 0)%nat
    then hashtags ++ slice0 RECOMMENDED_HASHTAGS_max (generateHashtags (topic context))
    else hashtags in
  let optimizedContent := optimizeLineBreaks optimizedContent in
  let optimizedContent :=
    if (0 <? List.length hashtags)%nat
    then optimizedContent ++ nl ++ nl ++ join (js " ") hashtags
    else optimizedContent in
  let characterCount := List.length optimizedContent in
  let wordCount := List.length (split (plus ws) optimizedContent) in
  let estimatedEngagement :=
    if (characterCount <? MIN_LENGTH * 2)%nat then low
    else if (OPTIMAL_MIN_LENGTH <=? characterCount)%nat
            && (characterCount <=? OPTIMAL_MAX_LENGTH)%nat then high
    else if (OPTIMAL_MAX_LENGTH <? characterCount)%nat then medium
    else medium in
  let suggestions := generateSuggestions optimizedContent context in
  {| content := optimizedContent;
     hashtags := map (replaceStr (js "#") (js "")) hashtags;
     metadata :=
       {| platform := js "linkedin";
          characterCount := characterCount;
          wordCount := wordCount;
          estimatedEngagement := estimatedEngagement;
          suggestions := suggestions |} |}.

Definition validate (content : jsstring) : ValidationResult :=
  let a := acc0 in
  let a :=
    when (CHAR_LIMIT <? List.length content)%nat
      (fun a => add_score (-3)
         (push_error (js "Content exceeds LinkedIn's " ++ nat_to_string CHAR_LIMIT
                      ++ js " character limit") a)) a in
  let a :=
    when (List.length content <? MIN_LENGTH)%nat
      (fun a => add_score (-2)
         (push_error (js "Content is too short (minimum " ++ nat_to_string MIN_LENGTH
                      ++ js " characters for LinkedIn)") a)) a in
  let a :=
    if (List.length content <? OPTIMAL_MIN_LENGTH)%nat
    then add_score (-0.5)
           (push_warning (js "Content is short. Consider expanding to " ++ range_text
                          ++ js " characters for better engagement.") a)
    else if (OPTIMAL_MAX_LENGTH <? List.length content)%nat
    then add_score (-0.5)
           (push_warning (js "Content is long. Posts between " ++ range_text
                          ++ js " characters tend to perform better.") a)
    else a in
  let hook := substring0 HOOK_CHAR_LIMIT content in
  let a :=
    when (List.length hook <? 100)%nat
      (fun a => add_score (-0.5)
         (push_warning (js "Hook might be too short. First 210 characters appear before "
                        ++ dq ++ js "see more" ++ dq ++ js ".") a)) a in
  let a :=
    when (existsb (fun pattern => test pattern hook) genericOpenings)
      (fun a => add_score (-0.5)
         (push_warning (js "Consider a stronger hook. Avoid generic openings.") a)) a in
  let lowerContent := toLowerCase content in
  let foundSlop := filter (fun phrase => includes lowerContent phrase) linkedinSlop in
  let a :=
    when (0 <? List.length foundSlop)%nat
      (fun a => add_score (- (INR (List.length foundSlop) * 0.5))
         (push_warning (js "LinkedIn AI slop detected: " ++ quoted_list foundSlop
                        ++ js ". Rewrite for authenticity.") a)) a in
  let hashtagCount := List.length (matchAll re_hash content) in
  let a :=
    if (MAX_HASHTAGS <? hashtagCount)%nat
    then add_score (-1)
           (push_warning (js "Too many hashtags (" ++ nat_to_string hashtagCount
                          ++ js "). " ++ recommended_text
                          ++ js " hashtags perform best.") a)
    else if (hashtagCount <? RECOMMENDED_HASHTAGS_min)%nat && (0 <? hashtagCount)%nat
    then push_warning (js "Consider adding more hashtags (" ++ recommended_text
                       ++ js " recommended).") a
    else a in
  let lineBreaks := List.length (matchAll re_newline content) in
  let a :=
    when ((500 <? List.length content)%nat && (lineBreaks <? 3)%nat)
      (fun a => add_score (-1)
         (push_warning (js "Add line breaks for readability. LinkedIn posts perform better with white space.") a)) a in
  let hasQuestion := test re_question content in
  let hasNumbers := test re_digits content in
  let hasCallToAction := hasCallToAction content in
  let a :=
    when (negb hasQuestion && negb hasCallToAction)
      (fun a => add_score (-0.5)
         (push_warning (js "Consider adding a question or call-to-action to boost engagement.") a)) a in
  let a := when hasNumbers (add_score 0.5) a in
  let hasValueIndicators := hasValueIndicators content in
  let a :=
    when (negb hasValueIndicators)
      (fun a => add_score (-1)
         (push_warning (js "Consider adding specific insights, data, or professional lessons.") a)) a in
  let a :=
    when ((4 <=? lineBreaks)%nat && (lineBreaks <=? 10)%nat) (add_score 0.5) a in
  finish a.

Definition strategy : PlatformStrategy :=
  {| Strategy.getPlatformName := getPlatformName;
     Strategy.getConstraints := getConstraints;
     Strategy.optimize := optimize;
     Strategy.validate := validate;
     Strategy.generatePrompt := generatePrompt;
     Strategy.postProcess := postProcess |}.

End WithCaseMapping.
End LinkedIn.

(* ================================================================== *)
(** * PlatformOptimizerService (the strategy registry) *)
(* ================================================================== *)

Module Optimizer.

(** A [Map<string, PlatformStrategy>] in insertion order. *)
Definition StrategyMap : Type := list (jsstring * PlatformStrategy).

Fixpoint map_get (m : StrategyMap) (key : jsstring) : option PlatformStrategy :=
  match m with
  | [] => None
  | (k, v) :: m' => if str_eqb k key then Some v else map_get m' key
  end.

Fixpoint map_set (m : StrategyMap) (key : jsstring) (v : PlatformStrategy)
  : StrategyMap :=
  match m with
  | [] => [(key, v)]
  | (k, w) :: m' =>
      if str_eqb k key then (k, v) :: m' else (k, w) :: map_set m' key v
  end.

Section WithCaseMapping.
Context {CM : CaseMapping}.

Definition twitterStrategy : PlatformStrategy := Twitter.strategy.
Definition linkedinStrategy : PlatformStrategy := LinkedIn.strategy.

(** The map built by the constructor. *)
Definition strategies : StrategyMap :=
  map_set (map_set [] (js "twitter") twitterStrategy)
          (js "linkedin") linkedinStrategy.

(** The warning written to the logger on the fallback path is not
    modelled. *)
Definition getStrategy (platform : jsstring) : PlatformStrategy :=
  match map_get strategies (toLowerCase platform) with
  | None => twitterStrategy
  | Some strategy => strategy
  end.

Definition optimize (platform content : jsstring) (context : ContentContext)
  : OptimizedContent :=
  Strategy.optimize (getStrategy platform) content context.

Definition generatePrompt (platform : jsstring) (context : ContentContext)
  : jsstring :=
  Strategy.generatePrompt (getStrategy platform) context.

Definition validate (platform content : jsstring) : ValidationResult :=
  Strategy.validate (getStrategy platform) content.

Definition postProcess (platform content : jsstring) (context : ContentContext)
  : jsstring :=
  Strategy.postProcess (getStrategy platform) content context.

Definition getAvailablePlatforms : list jsstring := map fst strategies.

Definition getPlatformConstraints (platform : jsstring) : PlatformConstraints :=
  Strategy.getConstraints (getStrategy platform).

End WithCaseMapping.
End Optimizer.

(* ================================================================== *)
(** * ContentGeneratorService (the orchestrator) *)
(* ================================================================== *)

Module Generator.

(** A property of an options object: missing, present with the value
    [undefined], or present with a value. *)
Inductive prop (A : Type) : Type :=
| Absent
| Undefined
| Defined (a : A).
Arguments Absent {A}.
Arguments Undefined {A}.
Arguments Defined {A} a.

(** [p ?? d] *)
Definition nullish {A} (p : prop A) (d : A) : A :=
  match p with Defined a => a | _ => d end.

(** The property after [{ key: base, ...over }]. *)
Definition spread {A} (base over : prop A) : prop A :=
  match over with Absent => base | _ => over end.

Record GenerationOptions : Type := {
  temperature : prop R;
  maxTokens : prop R;
  topP : prop R;
  frequencyPenalty : prop R;
  presencePenalty : prop R;
  stopSequences : prop (list jsstring)
}.

Definition no_options : GenerationOptions :=   (* {} *)
  {| temperature := Absent; maxTokens := Absent; topP := Absent;
     frequencyPenalty := Absent; presencePenalty := Absent;
     stopSequences := Absent |}.

Record TokensUsed : Type := {
  tok_prompt : nat;
  tok_completion : nat;
  tok_total : nat
}.

Record GenerationResult : Type := {
  gr_content : jsstring;
  gr_model : jsstring;
  gr_tokensUsed : TokensUsed;
  gr_cost : option R
}.

(** An optional field as a request carries it: [undefined] (or no such
    key), [null], or a value. *)
Inductive optional (A : Type) : Type :=
| NotGiven
| Null
| Given (a : A).
Arguments NotGiven {A}.
Arguments Null {A}.
Arguments Given {A} a.

(** [const { key = d } = request]: the default replaces [undefined] only,
    [null] stays; the result is [None] when it is [null]. *)
Definition destructured {A} (x : optional A) (d : A) : option A :=
  match x with
  | NotGiven => Some d
  | Null => None
  | Given a => Some a
  end.

(** For the other optional fields [null] acts as a value they have already:
    as [Some false] for the two flags, which are read by truthiness, as
    [None] for the audience and the call to action, read through [||], and
    as a format other than thread; [options] is never [null] when the
    request comes from the endpoint. *)
Record ContentGenerationRequest : Type := {
  req_platform : jsstring;
  req_topic : jsstring;
  req_tone : optional Tone;
  req_targetAudience : option jsstring;
  req_includeHashtags : option bool;
  req_includeEmojis : option bool;
  req_callToAction : option jsstring;
  req_format : option jsstring;
  req_options : option GenerationOptions
}.

Record ResponseMetadata : Type := {
  model : jsstring;
  provider : jsstring;
  tokensUsed : nat;
  cost : R;
  qualityScore : R;
  characterCount : nat;
  wordCount : nat;
  estimatedEngagement : Engagement
}.

Record ResponseValidation : Type := {
  isValid : bool;
  score : R;
  warnings : list jsstring;
  suggestions : list jsstring
}.

Record ContentGenerationResponse : Type := {
  content : jsstring;
  platform : jsstring;
  hashtags : list jsstring;
  metadata : ResponseMetadata;
  validation : ResponseValidation
}.

(** Programs that await the external provider: either a result, or a call
    [aiProvider.generateContent(prompt, options)] followed by what is done
    with its result.  A rejected call aborts the program ([run]). *)
Inductive Prog (A : Type) : Type :=
| Ret (a : A)
| Generate (prompt : jsstring) (options : GenerationOptions)
           (k : GenerationResult -> Prog A).
Arguments Ret {A} a.
Arguments Generate {A} prompt options k.

(** Sequencing, and the call itself as a program. *)
Fixpoint bind {A B} (p : Prog A) (f : A -> Prog B) : Prog B :=
  match p with
  | Ret a => f a
  | Generate prompt options k => Generate prompt options (fun r => bind (k r) f)
  end.

Definition generate (prompt : jsstring) (options : GenerationOptions)
  : Prog GenerationResult :=
  Generate prompt options Ret.

Notation "x <- c ;; k" := (bind c (fun x => k))
  (at level 61, c at next level, right associativity).

Definition Call : Type := (jsstring * GenerationOptions)%type.

(** The provider: what it answers to a call, given the calls made before;
    [None] is a ProviderError. *)
Definition Provider : Type :=
  list Call -> jsstring -> GenerationOptions -> option GenerationResult.

(** Runs a program against a provider; returns the outcome ([None] when a
    call was rejected) and the calls made, oldest first. *)
Fixpoint run {A} (p : Prog A) (ai : Provider) (calls : list Call)
  : option A * list Call :=
  match p with
  | Ret a => (Some a, calls)
  | Generate prompt options k =>
      match ai calls prompt options with
      | Some r => run (k r) ai (calls ++ [(prompt, options)])
      | None => (None, calls ++ [(prompt, options)])
      end
  end.

Definition default {A} (x : option A) (d : A) : A :=
  match x with Some a => a | None => d end.

Section WithCaseMapping.
Context {CM : CaseMapping}.

(** Step 5's condition. *)
Definition needsRegeneration (q : Validator.ContentQualityResult) : bool :=
  (if Rlt_dec (Validator.overall (Validator.score q)) 5 then true else false)
  && (0 <? List.length (Validator.critical (Validator.issues q)))%nat.

Definition improvedPrompt (prompt : jsstring)
    (q : Validator.ContentQualityResult) : jsstring :=
  prompt ++ nl ++ nl
  ++ js "IMPORTANT: Previous attempt failed with these issues: "
  ++ join (js ", ") (Validator.critical (Validator.issues q))
  ++ js ". Please address these issues.".

(** The scorer the service is constructed with ([this.validator]), as the
    function its [validateContent] computes. *)
Definition Scorer : Type := jsstring -> Validator.ContentQualityResult.

(** Steps 6 and 7 and the response. *)
Definition buildResponseWith (validateContent : Scorer)
    (platform : jsstring) (context : ContentContext)
    (generationResult : GenerationResult) (generatedContent : jsstring)
  : ContentGenerationResponse :=
  let optimized := Optimizer.optimize platform generatedContent context in
  let platformValidation :=
    Optimizer.validate platform (Strategy.content optimized) in
  let finalQuality := validateContent (Strategy.content optimized) in
  {| content := Strategy.content optimized;
     platform := platform;
     hashtags := Strategy.hashtags optimized;
     metadata :=
       {| model := gr_model generationResult;
          provider := js "openrouter";
          tokensUsed := tok_total (gr_tokensUsed generationResult);
          cost := match gr_cost generationResult with
                  | Some c => c     (* [0 || 0] is [0] *)
                  | None => 0
                  end;
          qualityScore := Validator.overall (Validator.score finalQuality);
          characterCount := Strategy.characterCount (Strategy.metadata optimized);
          wordCount := Strategy.wordCount (Strategy.metadata optimized);
          estimatedEngagement :=
            Strategy.estimatedEngagement (Strategy.metadata optimized) |};
     validation :=
       {| isValid :=
            Strategy.isValid platformValidation
            && (List.length (Validator.critical (Validator.issues finalQuality)) =? 0)%nat;
          score := Strategy.score platformValidation;
          warnings :=
            Strategy.warnings platformValidation
            ++ Validator.warnings (Validator.issues finalQuality);
          suggestions :=
            Strategy.warnings platformValidation
            ++ Validator.suggestions (Validator.issues finalQuality) |} |}.

(** The context built from the request, with the defaults of the
    destructuring. *)
Definition buildContext (request : ContentGenerationRequest) : ContentContext :=
  {| topic := req_topic request;
     tone := destructured (req_tone request) conversational;
     targetAudience := req_targetAudience request;
     includeHashtags := Some (default (req_includeHashtags request) false);
     includeEmojis := Some (default (req_includeEmojis request) false);
     callToAction := req_callToAction request;
     format := Some (default (req_format request) (js "single")) |}.

(** [{ temperature: options.temperature ?? 0.7,
       maxTokens: options.maxTokens ?? 500, ...options }] *)
Definition firstCallOptions (options : GenerationOptions) : GenerationOptions :=
  {| temperature :=
       spread (Defined (nullish (temperature options) 0.7)) (temperature options);
     maxTokens :=
       spread (Defined (nullish (maxTokens options) 500)) (maxTokens options);
     topP := topP options;
     frequencyPenalty := frequencyPenalty options;
     presencePenalty := presencePenalty options;
     stopSequences := stopSequences options |}.

Definition generateContentWith (validateContent : Scorer)
    (request : ContentGenerationRequest)
  : Prog ContentGenerationResponse :=
  let platform := req_platform request in
  let options := default (req_options request) no_options in
  let context := buildContext request in
  (* Step 1: the platform's prompt *)
  let prompt := Optimizer.generatePrompt platform context in
  (* Step 2: first call of the provider *)
  generationResult <- generate prompt (firstCallOptions options) ;;
  (* Step 3: post-processing *)
  let generatedContent :=
    Optimizer.postProcess platform (gr_content generationResult) context in
  (* Step 4: quality *)
  let qualityResult := validateContent generatedContent in
  (* Step 5: one regeneration when the quality is too low *)
  generatedContent <-
    (if needsRegeneration qualityResult
     then
       retryResult <- generate (improvedPrompt prompt qualityResult) options ;;
       Ret (Optimizer.postProcess platform (gr_content retryResult) context)
     else Ret generatedContent) ;;
  (* Steps 6 and 7, and the response *)
  Ret (buildResponseWith validateContent platform context generationResult
         generatedContent).

(** The service as the application module wires it: with the
    ContentValidatorService. *)
Definition buildResponse (platform : jsstring) (context : ContentContext)
    (generationResult : GenerationResult) (generatedContent : jsstring)
  : ContentGenerationResponse :=
  buildResponseWith Validator.validateContent platform context generationResult
    generatedContent.

Definition generateContent (request : ContentGenerationRequest)
  : Prog ContentGenerationResponse :=
  generateContentWith Validator.validateContent request.

Definition getAvailablePlatforms : list jsstring := Optimizer.getAvailablePlatforms.
Definition getPlatformConstraints (platform : jsstring) : PlatformConstraints :=
  Optimizer.getPlatformConstraints platform.

End WithCaseMapping.
End Generator.

(* ================================================================== *)
(** * OpenRouterProvider (the model provider) *)
(* ================================================================== *)

Module OpenRouter.
Import Generator.

(** Free models available on OpenRouter. *)
Definition freeModels : list jsstring :=
  [ js "google/gemini-flash-1.5-8b";
    js "meta-llama/llama-3.1-8b-instruct:free";
    js "mistralai/mistral-7b-instruct:free";
    js "nousresearch/hermes-3-llama-3.1-405b:free" ].

(** The one mutable field of the provider. *)
Record State : Type := {
  currentModel : jsstring
}.

(** The constructor: [configService.get('AI_MODEL') || <default>]. *)
Definition create (AI_MODEL : option jsstring) : State :=
  {| currentModel := str_or AI_MODEL (js "google/gemini-flash-1.5-8b") |}.

Record Pricing : Type := {
  price_prompt : R;
  price_completion : R
}.

Record ModelInfo : Type := {
  mi_id : jsstring;
  mi_name : jsstring;
  mi_provider : jsstring;
  mi_pricing : Pricing;
  mi_contextLength : N
}.

Definition getModelInfo (st : State) : ModelInfo :=
  let isFree := array_includes freeModels (currentModel st) in
  {| mi_id := currentModel st;
     mi_name :=
       str_or (nth_error (splitStr (js "/") (currentModel st)) 1) (currentModel st);
     mi_provider :=
       str_or (nth_error (splitStr (js "/") (currentModel st)) 0) (js "unknown");
     mi_pricing :=
       {| price_prompt := if isFree then 0 else 0.00001;
          price_completion := if isFree then 0 else 0.00003 |};
     mi_contextLength := 8192%N |}.

Definition setModel (modelId : jsstring) (st : State) : State :=
  {| currentModel := modelId |}.

Definition getCurrentModel (st : State) : jsstring := currentModel st.

Definition estimateCost (st : State) (promptTokens completionTokens : R) : R :=
  let modelInfo := getModelInfo st in
  let promptCost := (promptTokens / 1000) * price_prompt (mi_pricing modelInfo) in
  let completionCost :=
    (completionTokens / 1000) * price_completion (mi_pricing modelInfo) in
  promptCost + completionCost.

Definition getFreeModels (st : State) : list jsstring := freeModels.

Definition isCurrentModelFree (st : State) : bool :=
  array_includes freeModels (currentModel st).

(** The body posted to [/chat/completions]. *)
Record Message : Type := {
  msg_role : jsstring;
  msg_content : jsstring
}.

Record RequestBody : Type := {
  rb_model : jsstring;
  rb_messages : list Message;
  rb_temperature : R;
  rb_max_tokens : R;
  rb_top_p : R;
  rb_frequency_penalty : R;
  rb_presence_penalty : R;
  rb_stop : option (list jsstring)    (* the key is missing when [None] *)
}.

Definition requestBody (st : State) (prompt : jsstring)
    (options : GenerationOptions) : RequestBody :=
  let messages := [ {| msg_role := js "user"; msg_content := prompt |} ] in
  {| rb_model := currentModel st;
     rb_messages := messages;
     rb_temperature := nullish (temperature options) 0.7;
     rb_max_tokens := nullish (maxTokens options) 1000;
     rb_top_p := nullish (topP options) 1;
     rb_frequency_penalty := nullish (frequencyPenalty options) 0;
     rb_presence_penalty := nullish (presencePenalty options) 0;
     rb_stop :=
       match stopSequences options with   (* every array is truthy *)
       | Defined l => Some l
       | _ => None
       end |}.

(** The answer of the API. *)
Record Choice : Type := {
  choice_role : jsstring;
  choice_content : jsstring;
  finish_reason : jsstring
}.

Record Usage : Type := {
  prompt_tokens : nat;
  completion_tokens : nat;
  total_tokens : nat
}.

Record OpenRouterResponse : Type := {
  resp_id : jsstring;
  resp_model : jsstring;
  choices : list Choice;
  usage : Usage
}.

(** What [httpClient.post] does: it resolves with the data, or rejects
    with an Axios error (the status and the message of the API when there
    was a response, and the error's own message), or with another error. *)
Inductive HttpOutcome : Type :=
| HttpResponse (data : OpenRouterResponse)
| AxiosError (status : option nat) (apiMessage : option jsstring)
             (message : jsstring)
| OtherError (message : jsstring).

(** The promise of [generateContent]: a result, or an [Error] with its
    message. *)
Inductive Outcome : Type :=
| Resolved (result : GenerationResult)
| Rejected (message : jsstring).

(** A template literal prints a missing status as [undefined]. *)
Definition status_string (status : option nat) : jsstring :=
  match status with
  | Some n => nat_to_string n
  | None => js "undefined"
  end.

Definition generateContent (st : State) (post : RequestBody -> HttpOutcome)
    (prompt : jsstring) (options : GenerationOptions) : Outcome :=
  match post (requestBody st prompt options) with
  | HttpResponse data =>
      let content :=
        match choices data with
        | c :: _ => choice_content c       (* [x || ''] is [x] on strings *)
        | [] => []
        end in
      let usage := usage data in
      Resolved
        {| gr_content := content;
           gr_model := resp_model data;
           gr_tokensUsed :=
             {| tok_prompt := prompt_tokens usage;
                tok_completion := completion_tokens usage;
                tok_total := total_tokens usage |};
           gr_cost :=
             Some (estimateCost st (INR (prompt_tokens usage))
                                   (INR (completion_tokens usage))) |}
  | AxiosError status apiMessage message =>
      Rejected (js "OpenRouter API error (" ++ status_string status ++ js "): "
                ++ str_or apiMessage message)
  | OtherError message => Rejected message
  end.

(** The provider as the orchestrator sees it; [http n] is what the
    (n+1)-th request of the run meets. *)
Definition Http : Type := nat -> RequestBody -> HttpOutcome.

Definition aiProvider (st : State) (http : Http) : Provider :=
  fun calls prompt options =>
    match generateContent st (http (List.length calls)) prompt options with
    | Resolved result => Some result
    | Rejected _ => None
    end.

End OpenRouter.

(* ================================================================== *)
(** * ContentGeneratorService: the methods about the model *)
(* ================================================================== *)

Module GeneratorModels.

Definition getModelInfo (st : OpenRouter.State) : OpenRouter.ModelInfo :=
  OpenRouter.getModelInfo st.

Definition isUsingFreeModel (st : OpenRouter.State) : bool :=
  OpenRouter.isCurrentModelFree st.

Definition getAvailableFreeModels (st : OpenRouter.State) : list jsstring :=
  OpenRouter.getFreeModels st.

Definition switchModel (modelId : jsstring) (st : OpenRouter.State)
  : OpenRouter.State :=
  OpenRouter.setModel modelId st.

End GeneratorModels.

(* ================================================================== *)
(** * ContentGenerationController *)
(* ================================================================== *)

Module Controller.
Import Generator.

Record GenerateContentDto : Type := {
  dto_platform : jsstring;
  dto_topic : jsstring;
  dto_tone : optional Tone;
  dto_targetAudience : option jsstring;
  dto_includeHashtags : option bool;
  dto_includeEmojis : option bool;
  dto_callToAction : option jsstring;
  dto_format : option jsstring;
  dto_temperature : option R;
  dto_maxTokens : option R
}.

(** A key written in an object literal is present whatever its value. *)
Definition written {A} (x : option A) : prop A :=
  match x with
  | Some a => Defined a
  | None => Undefined
  end.

(** The request built by the [generate] endpoint. *)
Definition requestOf (dto : GenerateContentDto) : ContentGenerationRequest :=
  {| req_platform := dto_platform dto;
     req_topic := dto_topic dto;
     req_tone := dto_tone dto;
     req_targetAudience := dto_targetAudience dto;
     req_includeHashtags := dto_includeHashtags dto;
     req_includeEmojis := dto_includeEmojis dto;
     req_callToAction := dto_callToAction dto;
     req_format := dto_format dto;
     req_options :=
       Some {| temperature := written (dto_temperature dto);
               maxTokens := written (dto_maxTokens dto);
               topP := Absent;
               frequencyPenalty := Absent;
               presencePenalty := Absent;
               stopSequences := Absent |} |}.

Section WithCaseMapping.
Context {CM : CaseMapping}.

Definition generateContent (dto : GenerateContentDto)
  : Prog ContentGenerationResponse :=
  Generator.generateContent (requestOf dto).

Definition getAvailablePlatforms : list jsstring :=
  Generator.getAvailablePlatforms.

Definition getPlatformConstraints (platform : jsstring) : PlatformConstraints :=
  Generator.getPlatformConstraints platform.

End WithCaseMapping.

(** [{ ...getModelInfo(), isFree: isUsingFreeModel() }] *)
Record ModelInfoResponse : Type := {
  info : OpenRouter.ModelInfo;
  isFree : bool
}.

Definition getModelInfo (st : OpenRouter.State) : ModelInfoResponse :=
  {| info := GeneratorModels.getModelInfo st;
     isFree := GeneratorModels.isUsingFreeModel st |}.

Definition getFreeModels (st : OpenRouter.State) : list jsstring :=
  GeneratorModels.getAvailableFreeModels st.

End Controller.

(* ================================================================== *)
(** * Definitions used by the statements *)
(* ================================================================== *)

(** The case mapping restricted to ASCII letters: an inhabitant of the
    interface, exact on ASCII strings. *)
Definition ascii_case : CaseMapping :=
  {| toLowerCase := map ascii_lower;
     toUpperCase := map ascii_upper;
     toLowerCase_ascii := fun s _ => eq_refl |}.

Module Spec.

(** The coefficient of variation as statistics defines it: population
    standard deviation over mean. *)
Fixpoint sum (xs : list R) : R :=
  match xs with
  | [] => 0
  | x :: xs' => x + sum xs'
  end.

Definition mean (xs : list R) : R := sum xs / INR (List.length xs).

Definition stdDev (xs : list R) : R :=
  sqrt (sum (map (fun x => (x - mean xs) ^ 2) xs) / INR (List.length xs)).

Definition coefficientOfVariation (xs : list R) : R := stdDev xs / mean xs.

(** Per-sentence word counts, as [calculateSentenceVariety] takes them. *)
Definition sentenceWordCounts (content : jsstring) : list R :=
  map (fun s => INR (List.length (split (plus ws) (trim s))))
      (Validator.sentencesOf content).

(** [clamp(x, 0, 10)] *)
Definition clamp10 (x : R) : R := Math_max 0 (Math_min 10 x).

Definition delta (c : bool) (d : R) : R := if c then d else 0.

(** What the checks of [TwitterStrategy.validate] other than the
    character-limit check add to the score. *)
Definition twitterOtherAdjustments {CM : CaseMapping} (content : jsstring) : R :=
  let foundSlop :=
    filter (fun phrase => includes (toLowerCase content) phrase) Twitter.slopPhrases in
  delta (List.length content <? 50)%nat (-1)
  + delta (0 <? List.length foundSlop)%nat (- INR (List.length foundSlop))
  + delta (3 <? List.length (matchAll re_hash content))%nat (-1)
  + delta (test re_digits content) 1.

(** The same for [LinkedInStrategy.validate]. *)
Definition linkedinOtherAdjustments {CM : CaseMapping} (content : jsstring) : R :=
  let foundSlop :=
    filter (fun phrase => includes (toLowerCase content) phrase) LinkedIn.linkedinSlop in
  let hook := substring0 LinkedIn.HOOK_CHAR_LIMIT content in
  let lineBreaks := List.length (matchAll re_newline content) in
  delta (List.length content <? LinkedIn.MIN_LENGTH)%nat (-2)
  + delta ((List.length content <? LinkedIn.OPTIMAL_MIN_LENGTH)%nat
           || (LinkedIn.OPTIMAL_MAX_LENGTH <? List.length content)%nat) (-0.5)
  + delta (List.length hook <? 100)%nat (-0.5)
  + delta (existsb (fun pattern => test pattern hook) LinkedIn.genericOpenings) (-0.5)
  + delta (0 <? List.length foundSlop)%nat (- (INR (List.length foundSlop) * 0.5))
  + delta (LinkedIn.MAX_HASHTAGS <? List.length (matchAll re_hash content))%nat (-1)
  + delta ((500 <? List.length content)%nat && (lineBreaks <? 3)%nat) (-1)
  + delta (negb (test re_question content) && negb (LinkedIn.hasCallToAction content)) (-0.5)
  + delta (test re_digits content) 0.5
  + delta (negb (LinkedIn.hasValueIndicators content)) (-1)
  + delta ((4 <=? lineBreaks)%nat && (lineBreaks <=? 10)%nat) 0.5.

(** 300 times the letter [a]. *)
Definition over300 : jsstring := repeat 97%N 300.

(** A generic filler text, a provider stub that always answers it, and a
    request for a tweet. *)
Definition fillerText : jsstring :=
  js "Many people leverage synergy in the realm of the innovative landscape".

Definition fillerProvider : Generator.Provider :=
  fun _ _ _ =>
    Some {| Generator.gr_content := fillerText;
            Generator.gr_model := js "stub";
            Generator.gr_tokensUsed :=
              {| Generator.tok_prompt := 10; Generator.tok_completion := 12;
                 Generator.tok_total := 22 |};
            Generator.gr_cost := None |}.

Definition tweetRequest : Generator.ContentGenerationRequest :=
  {| Generator.req_platform := js "twitter";
     Generator.req_topic := js "remote work";
     Generator.req_tone := Generator.NotGiven;
     Generator.req_targetAudience := None;
     Generator.req_includeHashtags := None;
     Generator.req_includeEmojis := None;
     Generator.req_callToAction := None;
     Generator.req_format := None;
     Generator.req_options := None |}.

(** A context; [postProcess] does not look at it. *)
Definition plainContext : ContentContext :=
  {| topic := js "remote work"; tone := None; targetAudience := None;
     includeHashtags := None; includeEmojis := None; callToAction := None;
     format := None |}.

Definition labelledTweet : jsstring := js "Tweet:  Hello   world!!!!  what??".
Definition labelledPost : jsstring := js "Post: Great news ,team.It works !Really".

Definition twitterOverLimit : jsstring :=
  js "Content exceeds Twitter's 280 character limit".
Definition linkedinOverLimit : jsstring :=
  js "Content exceeds LinkedIn's 3000 character limit".

End Spec.

(* ================================================================== *)
(** * Predicates on strings *)
(* ================================================================== *)

(** Length of the longest prefix of [s] made of characters of class [p]. *)
Fixpoint span_len (p : char -> bool) (s : jsstring) : nat :=
  match s with
  | c :: s' => if p c then S (span_len p s') else 0
  | [] => 0
  end.

(** What [rmatch] computes on the greedy star of a class: the longest
    run first, then shorter ones. *)
Fixpoint star_chr {X : Type} (p : char -> bool) (k : cont X)
    (pre rest : jsstring) (cs : caps) : option X :=
  match rest with
  | c :: rest' =>
      if p c
      then match star_chr p k (c :: pre) rest' cs with
           | Some x => Some x
           | None => k pre rest cs
           end
      else k pre rest cs
  | [] => k pre rest cs
  end.

(** Every run of characters of class [p] in [s] is shorter than [L],
    counting [n] such characters just before [s]. *)
Fixpoint runs_lt (p : char -> bool) (L n : nat) (s : jsstring) : bool :=
  match s with
  | [] => true
  | c :: s' =>
      if p c then (S n <? L)%nat && runs_lt p L (S n) s' else runs_lt p L 0 s'
  end.

(** No character of class [A] is directly followed by one of class [B];
    [b] tells whether the character before [s] is of class [A]. *)
Fixpoint noPair (A B : char -> bool) (b : bool) (s : jsstring) : bool :=
  match s with
  | [] => true
  | c :: s' => negb (b && B c) && noPair A B (A c) s'
  end.

Definition startsNonWs (s : jsstring) : bool :=
  match s with [] => true | c :: _ => negb (is_space c) end.

Fixpoint endsNonWs (s : jsstring) : bool :=
  match s with
  | [] => true
  | [c] => negb (is_space c)
  | _ :: s' => endsNonWs s'
  end.

(** [s] has no whitespace at either end. *)
Definition trimmed (s : jsstring) : bool := startsNonWs s && endsNonWs s.

(** [s] with every maximal run of whitespace turned into one space: the
    first whitespace character of a run becomes a space, those that follow
    it are dropped, every other character is kept; [b] tells whether the
    character before [s] is whitespace. *)
Fixpoint oneSpacePerRun (b : bool) (s : jsstring) : jsstring :=
  match s with
  | [] => []
  | c :: s' =>
      if is_space c
      then (if b then oneSpacePerRun true s' else 32%N :: oneSpacePerRun true s')
      else c :: oneSpacePerRun false s'
  end.

Definition collapseWhitespace (s : jsstring) : jsstring := oneSpacePerRun false s.

(** The words of a text: its maximal runs of characters other than
    whitespace, in order. *)
Fixpoint words (s : jsstring) : list jsstring :=
  match s with
  | [] => []
  | c :: rest =>
      if is_space c then words rest
      else match words rest with
           | w :: others =>
               if startsNonWs rest then (c :: w) :: others else [c] :: w :: others
           | [] => [[c]]
           end
  end.

(** The number of words that begin in [s]; [inWord] tells whether the
    character before [s] belongs to a word. *)
Fixpoint wordStarts (inWord : bool) (s : jsstring) : nat :=
  match s with
  | [] => 0
  | c :: rest =>
      if is_space c then wordStarts false rest
      else (if inWord then 0 else 1) + wordStarts true rest
  end.

(** Every whitespace character of [s] is the plain space. *)
Definition plainSpaces (s : jsstring) : Prop :=
  Forall (fun c => is_space c = true -> c = 32%N) s.

(** The class [[.,!?]]. *)
Definition is_punct (c : char) : bool := char_in (js ".,!?") c.

(** What follows the run of whitespace at the head of [s]. *)
Definition afterSpaces (s : jsstring) : jsstring := skipn (span_len is_space s) s.

Definition spacesThenPunct (s : jsstring) : bool :=
  match afterSpaces s with
  | d :: _ => is_punct d
  | [] => false
  end.

(** What [LinkedInStrategy.postProcess] guarantees of its result. *)
Definition linkedinShape (y : jsstring) : Prop :=
  trimmed y = true
  /\ runs_lt (N.eqb 10) 3 0 y = true
  /\ noPair is_space is_punct false y = true
  /\ noPair is_punct is_alpha false y = true.

(* ================================================================== *)
(** * Properties *)
(* ================================================================== *)


(* ================================================================== *)
(** * Notions used by the further properties *)
(* ================================================================== *)

(** The bodies posted to the API for a list of provider calls. *)
Definition bodies (st : OpenRouter.State) (calls : list Generator.Call)
  : list OpenRouter.RequestBody :=
  map (fun c => OpenRouter.requestBody st (fst c) (snd c)) calls.

(** The slash, the separator of a model identifier. *)
Definition slash : char := 47%N.

(** The second error message of [LinkedInStrategy.validate]. *)
Definition linkedinTooShort : jsstring :=
  js "Content is too short (minimum 150 characters for LinkedIn)".

(** The one critical issue and the two suggestions of the quality check. *)
Definition tooGeneric : jsstring :=
  js "Content is too generic. Add specific examples, data, or insights.".
Definition addEngagement : jsstring :=
  js "Add engagement elements: questions, numbers, or action words.".
Definition varySentences : jsstring :=
  js "Vary sentence length for better flow.".

(** A request to LinkedIn, written with capitals, whose tone is [null]. *)
Definition nullToneRequest : Generator.ContentGenerationRequest :=
  {| Generator.req_platform := js "LinkedIn";
     Generator.req_topic := js "remote work";
     Generator.req_tone := Generator.Null;
     Generator.req_targetAudience := None;
     Generator.req_includeHashtags := None;
     Generator.req_includeEmojis := None;
     Generator.req_callToAction := None;
     Generator.req_format := None;
     Generator.req_options := None |}.

(** The warning of the Twitter validation for the filler text. *)
Definition fillerSlopWarning : jsstring :=
  js "AI slop detected: " ++ dq ++ js "landscape" ++ dq ++ js ", "
  ++ dq ++ js "realm" ++ dq ++ js ", " ++ dq ++ js "leverage" ++ dq ++ js ", "
  ++ dq ++ js "synergy" ++ dq ++ js ". Consider rewriting.".

(** An answer of the API and a transport that always gives it; the
    provider as configured without [AI_MODEL]. *)
Definition stubData : OpenRouter.OpenRouterResponse :=
  {| OpenRouter.resp_id := js "gen-1";
     OpenRouter.resp_model := js "google/gemini-flash-1.5-8b";
     OpenRouter.choices :=
       [ {| OpenRouter.choice_role := js "assistant";
            OpenRouter.choice_content :=
              js "Ship 3 small fixes a day, because momentum beats plans.";
            OpenRouter.finish_reason := js "stop" |} ];
     OpenRouter.usage :=
       {| OpenRouter.prompt_tokens := 120;
          OpenRouter.completion_tokens := 30;
          OpenRouter.total_tokens := 150 |} |}.

Definition stubHttp : OpenRouter.Http :=
  fun _ _ => OpenRouter.HttpResponse stubData.

Definition defaultProvider : OpenRouter.State := OpenRouter.create None.

(** A tag as it is written in a text: with its hash sign. *)
Definition startsWithHash (t : jsstring) : Prop := exists h, t = js "#" ++ h.

(** [s] is empty or its last character is of class [p]. *)
Fixpoint endsIn (p : char -> bool) (s : jsstring) : bool :=
  match s with
  | [] => true
  | [c] => p c
  | _ :: s' => endsIn p s'
  end.

(** The class [[.!?]] that ends a sentence. *)
Definition is_stop (c : char) : bool := char_in (js ".!?") c.

(** An answer of the API without any choice, and a transport that gives
    it. *)
Definition emptyData : OpenRouter.OpenRouterResponse :=
  {| OpenRouter.resp_id := js "gen-2";
     OpenRouter.resp_model := js "google/gemini-flash-1.5-8b";
     OpenRouter.choices := [];
     OpenRouter.usage :=
       {| OpenRouter.prompt_tokens := 120;
          OpenRouter.completion_tokens := 0;
          OpenRouter.total_tokens := 120 |} |}.

Definition emptyHttp : OpenRouter.Http :=
  fun _ _ => OpenRouter.HttpResponse emptyData.

(** Two characters that differ at most in the case of an ASCII letter,
    and two texts that do so position by position. *)
Definition sameLetter (x y : char) : Prop := ascii_lower x = ascii_lower y.
Definition sameText (a b : jsstring) : Prop := Forall2 sameLetter a b.

(** The upper-case ASCII letters. *)
Definition uppers : list char := map N.of_nat (seq 65 26).

(** A class that does not tell the two cases of a letter apart, and a
    pattern made of such classes. *)
Definition blind_class (p : char -> bool) : bool :=
  forallb (fun u => Bool.eqb (p u) (p (u + 32)%N)) uppers.

Fixpoint caseBlind (r : regex) : bool :=
  match r with
  | Chr p => blind_class p
  | Seq r1 r2 | Alt r1 r2 => caseBlind r1 && caseBlind r2
  | Star r1 | Group _ r1 => caseBlind r1
  | Eps | Bol _ | Eol | WordB => true
  end.

(** Two outcomes that fail together, or succeed with related results. *)
Definition agree {X Y : Type} (Q : X -> Y -> Prop) (o : option X) (o' : option Y)
  : Prop :=
  match o, o' with
  | Some x, Some y => Q x y
  | None, None => True
  | _, _ => False
  end.
Unset Implicit Arguments.

Section Strings.

Lemma str_eqb_eq (a b : jsstring) : str_eqb a b = true <-> a = b.
Proof.
  revert b; induction a as [|x a IH]; intros [|y b]; simpl;
    try (split; [discriminate | discriminate]); try tauto.
  rewrite andb_true_iff, N.eqb_eq, IH.
  split; [intros [-> ->]; reflexivity | intros E; injection E; auto].
Qed.

Lemma str_eqb_refl (a : jsstring) : str_eqb a a = true.
Proof. now apply str_eqb_eq. Qed.

Lemma str_eqb_neq (a b : jsstring) : str_eqb a b = false <-> a <> b.
Proof.
  rewrite <- str_eqb_eq. destruct (str_eqb a b); split; congruence.
Qed.

End Strings.

Section Registry.
Context {CM : CaseMapping}.

Lemma strategies_eq :
  Optimizer.strategies
  = [ (js "twitter", Optimizer.twitterStrategy);
      (js "linkedin", Optimizer.linkedinStrategy) ].
Proof. reflexivity. Qed.

Lemma getStrategy_eq (platform : jsstring) :
  Optimizer.getStrategy platform
  = if str_eqb (js "linkedin") (toLowerCase platform)
    then Optimizer.linkedinStrategy else Optimizer.twitterStrategy.
Proof.
  unfold Optimizer.getStrategy. rewrite strategies_eq.
  cbn [Optimizer.map_get].
  destruct (str_eqb (js "twitter") (toLowerCase platform)) eqn:Et;
    destruct (str_eqb (js "linkedin") (toLowerCase platform)) eqn:El;
    try reflexivity.
  apply str_eqb_eq in Et, El. rewrite <- Et in El. discriminate El.
Qed.

Lemma getStrategy_cases (platform : jsstring) :
  Optimizer.getStrategy platform = Optimizer.twitterStrategy
  \/ Optimizer.getStrategy platform = Optimizer.linkedinStrategy.
Proof.
  rewrite getStrategy_eq. destruct (str_eqb _ _); auto.
Qed.

(** C9: the registry looks the identifier up by its lower-cased form, so
    identifiers that differ only in (ASCII) case get the same strategy;
    every identifier that is not a registered name gets the Twitter
    strategy; the lookup always returns one of the two strategies. *)
Theorem getStrategy_case_insensitive_with_fallback (platform : jsstring) :
  (toLowerCase platform = js "twitter"
     -> Optimizer.getStrategy platform = Optimizer.twitterStrategy)
  /\ (toLowerCase platform = js "linkedin"
     -> Optimizer.getStrategy platform = Optimizer.linkedinStrategy)
  /\ (toLowerCase platform <> js "twitter" -> toLowerCase platform <> js "linkedin"
     -> Optimizer.getStrategy platform = Optimizer.twitterStrategy)
  /\ (forall other,
        forallb is_ascii platform = true -> forallb is_ascii other = true ->
        map ascii_lower other = map ascii_lower platform ->
        Optimizer.getStrategy other = Optimizer.getStrategy platform)
  /\ (Optimizer.getStrategy platform = Optimizer.twitterStrategy
      \/ Optimizer.getStrategy platform = Optimizer.linkedinStrategy).
Proof.
  repeat split.
  - intros E. rewrite getStrategy_eq, E. reflexivity.
  - intros E. rewrite getStrategy_eq, E. reflexivity.
  - intros _ E. rewrite getStrategy_eq.
    destruct (str_eqb _ _) eqn:El; [|reflexivity].
    apply str_eqb_eq in El. congruence.
  - intros other Hp Ho E. rewrite !getStrategy_eq.
    rewrite (toLowerCase_ascii _ Hp), (toLowerCase_ascii _ Ho), E. reflexivity.
  - apply getStrategy_cases.
Qed.

End Registry.

Section ValidationResults.
Context {CM : CaseMapping}.

Lemma finish_isValid (a : Acc) :
  Strategy.isValid (finish a) = false <-> Strategy.errors (finish a) <> [].
Proof.
  unfold finish; simpl.
  destruct (acc_errors a) as [|e es]; simpl.
  - split; [discriminate | intros H; now elim H].
  - split; [discriminate | reflexivity].
Qed.

(** C8: for both strategies the result of [validate] is invalid exactly
    when at least one error was accumulated; the warnings play no part.
    The same holds through the registry, whatever the platform name. *)
Theorem validate_invalid_iff_error (content : jsstring) :
  (Strategy.isValid (Twitter.validate content) = false
     <-> Strategy.errors (Twitter.validate content) <> [])
  /\ (Strategy.isValid (LinkedIn.validate content) = false
     <-> Strategy.errors (LinkedIn.validate content) <> [])
  /\ (forall platform,
        Strategy.isValid (Optimizer.validate platform content) = false
        <-> Strategy.errors (Optimizer.validate platform content) <> []).
Proof.
  split; [apply finish_isValid | split; [apply finish_isValid |]].
  intros platform. unfold Optimizer.validate.
  destruct (getStrategy_cases platform) as [-> | ->]; apply finish_isValid.
Qed.

End ValidationResults.

Section Hashtags.
Context {CM : CaseMapping}.

Lemma slice0_length {A} (n : nat) (l : list A) : (List.length (slice0 n l) <= n)%nat.
Proof. apply firstn_le_length. Qed.

(** C6: [optimize] returns at most [maxHashtags] hashtags, the bound that
    [getConstraints] reports: 2 for Twitter, 5 for LinkedIn. *)
Theorem optimize_hashtags_within_max (content : jsstring) (context : ContentContext) :
  (maxHashtags Twitter.getConstraints = Some 2%nat
   /\ (List.length (Strategy.hashtags (Twitter.optimize content context)) <= 2)%nat)
  /\ (maxHashtags LinkedIn.getConstraints = Some 5%nat
   /\ (List.length (Strategy.hashtags (LinkedIn.optimize content context)) <= 5)%nat).
Proof.
  split; (split; [reflexivity|]).
  - unfold Twitter.optimize. cbn [Strategy.hashtags]. rewrite length_map.
    destruct (0 <? _)%nat; cbn [app].
    + pose proof (slice0_length Twitter.MAX_HASHTAGS
                    (matchAll re_hashtag (trim content))) as Hl.
      destruct (truthy _ && _)%bool eqn:E.
      * apply andb_true_iff in E as [_ E]. apply Nat.eqb_eq in E.
        rewrite length_app, E. cbn.
        apply (slice0_length Twitter.MAX_HASHTAGS).
      * exact Hl.
    + destruct (truthy _ && _)%bool; cbn [app List.length]; [|lia].
      apply (slice0_length Twitter.MAX_HASHTAGS).
  - unfold LinkedIn.optimize. cbn [Strategy.hashtags]. rewrite length_map.
    destruct (0 <? _)%nat; cbn [app].
    + pose proof (slice0_length LinkedIn.RECOMMENDED_HASHTAGS_max
                    (matchAll re_hashtag (trim content))) as Hl.
      destruct (truthy _ && _)%bool eqn:E.
      * apply andb_true_iff in E as [_ E]. apply Nat.eqb_eq in E.
        rewrite length_app, E. cbn.
        apply (slice0_length LinkedIn.RECOMMENDED_HASHTAGS_max).
      * exact Hl.
    + destruct (truthy _ && _)%bool; cbn [app List.length]; [|lia].
      apply (slice0_length LinkedIn.RECOMMENDED_HASHTAGS_max).
Qed.

End Hashtags.

Section QualityScores.
Context {CM : CaseMapping}.

Lemma Math_round_range (x : R) (n : Z) :
  0 <= x <= IZR n -> 0 <= Math_round x <= IZR n.
Proof.
  intros [H0 Hn]. unfold Math_round.
  destruct (base_Int_part (x + / 2)) as [Hle Hgt].
  split.
  - apply IZR_le.
    assert (IZR (-1) < IZR (Int_part (x + / 2))) as Hlt by (simpl; lra).
    apply lt_IZR in Hlt. lia.
  - apply IZR_le.
    assert (IZR (Int_part (x + / 2)) < IZR (n + 1)) as Hlt
        by (rewrite plus_IZR; simpl; lra).
    apply lt_IZR in Hlt. lia.
Qed.

Lemma round1_range (x : R) : 0 <= x <= 10 -> 0 <= Validator.round1 x <= 10.
Proof.
  intros H. unfold Validator.round1.
  destruct (@Math_round_range (x * 10) 100) as [H0 H1]; [simpl; lra|].
  simpl in H1. lra.
Qed.

Lemma Math_round_IZR (n : Z) : Math_round (IZR n) = IZR n.
Proof.
  unfold Math_round. f_equal. symmetry. apply Int_part_spec. lra.
Qed.

Lemma clamp_range (lo hi x : R) :
  lo <= hi -> lo <= Math_max lo (Math_min hi x) <= hi.
Proof.
  intros H. unfold Math_max, Math_min, Rmax, Rmin.
  destruct (Rle_dec hi x); destruct (Rle_dec lo _); lra.
Qed.

Lemma calculateReadability_range (content : jsstring) :
  0 <= Validator.calculateReadability content <= 100.
Proof.
  unfold Validator.calculateReadability.
  destruct (_ || _)%bool; [lra|]. apply clamp_range. lra.
Qed.

Lemma calculateSentenceVariety_nonneg (content : jsstring) :
  0 <= Validator.calculateSentenceVariety content.
Proof.
  unfold Validator.calculateSentenceVariety.
  destruct (_ <? 2)%nat; [lra|].
  destruct (Rlt_dec 0 _) as [Hm|]; [|lra].
  apply Rmult_le_pos; [apply sqrt_pos|].
  apply Rlt_le, Rinv_0_lt_compat, Hm.
Qed.

Lemma calculateQualityScore_range (content : jsstring) (s j e : nat) (r v : R) :
  0 <= r <= 100 -> 0 <= v ->
  let q := Validator.calculateQualityScore content s j e r v in
  0 <= Validator.overall q <= 10
  /\ 0 <= Validator.authenticity q <= 10
  /\ 0 <= Validator.engagement q <= 10
  /\ 0 <= Validator.clarity q <= 10
  /\ 0 <= Validator.platform q <= 10.
Proof.
  intros Hr Hv. unfold Validator.calculateQualityScore. cbv zeta.
  set (a := Math_max 0 (Math_min 10 _)).
  set (g := if Validator.isGeneric content then _ else _).
  set (c := Math_min 10 (r / 10)).
  set (p := Math_min 10 (v * 10 + 5)).
  assert (Ha : 0 <= a <= 10) by (apply clamp_range; lra).
  assert (He : 0 <= INR e) by apply pos_INR.
  assert (Hg : 0 <= g <= 10).
  { unfold g, Math_max, Math_min, Rmax, Rmin.
    destruct (Validator.isGeneric content);
      destruct (Rle_dec 10 (INR e * 3)); try destruct (Rle_dec 0 _); lra. }
  assert (Hc : 0 <= c <= 10).
  { unfold c, Math_min, Rmin. destruct (Rle_dec 10 (r / 10)); lra. }
  assert (Hp : 0 <= p <= 10).
  { unfold p, Math_min, Rmin. destruct (Rle_dec 10 (v * 10 + 5)); lra. }
  cbn [Validator.overall Validator.authenticity Validator.engagement
       Validator.clarity Validator.platform].
  repeat split; apply round1_range; lra.
Qed.

(** C1: every field of the score returned by [validateContent] lies in
    the closed interval from 0 to 10, whatever the text. *)
Theorem validateContent_scores_in_range (content : jsstring) :
  let q := Validator.score (Validator.validateContent content) in
  0 <= Validator.overall q <= 10
  /\ 0 <= Validator.authenticity q <= 10
  /\ 0 <= Validator.engagement q <= 10
  /\ 0 <= Validator.clarity q <= 10
  /\ 0 <= Validator.platform q <= 10.
Proof.
  unfold Validator.validateContent. cbn [Validator.score].
  apply calculateQualityScore_range.
  - apply calculateReadability_range.
  - apply calculateSentenceVariety_nonneg.
Qed.

End QualityScores.

Section AsciiAgreement.
Context {CM : CaseMapping}.

Lemma filter_lower_ascii (l : list jsstring) (f : jsstring -> jsstring -> bool)
    (content : jsstring) :
  forallb (forallb is_ascii) l = true ->
  filter (fun phrase => f content (toLowerCase phrase)) l
  = filter (fun phrase => f content (map ascii_lower phrase)) l.
Proof.
  intros H. apply filter_ext_in. intros phrase Hin.
  rewrite forallb_forall in H. rewrite (toLowerCase_ascii _ (H _ Hin)).
  reflexivity.
Qed.

Lemma detectAISlop_ascii (content : jsstring) :
  forallb is_ascii content = true ->
  Validator.detectAISlop content = Validator.detectAISlop (CM := ascii_case) content.
Proof.
  intros H. unfold Validator.detectAISlop.
  rewrite (toLowerCase_ascii _ H).
  apply (filter_lower_ascii Validator.AI_SLOP_PHRASES includes). reflexivity.
Qed.

Lemma detectCorporateJargon_ascii (content : jsstring) :
  forallb is_ascii content = true ->
  Validator.detectCorporateJargon content
  = Validator.detectCorporateJargon (CM := ascii_case) content.
Proof.
  intros H. unfold Validator.detectCorporateJargon.
  rewrite (toLowerCase_ascii _ H).
  apply (filter_lower_ascii Validator.CORPORATE_JARGON includes). reflexivity.
Qed.

Lemma countSyllables_ascii (content : jsstring) :
  forallb is_ascii content = true ->
  Validator.countSyllables content = Validator.countSyllables (CM := ascii_case) content.
Proof.
  intros H. unfold Validator.countSyllables. now rewrite (toLowerCase_ascii _ H).
Qed.

Lemma isGeneric_ascii (content : jsstring) :
  forallb is_ascii content = true ->
  Validator.isGeneric content = Validator.isGeneric (CM := ascii_case) content.
Proof.
  intros H. unfold Validator.isGeneric. now rewrite (toLowerCase_ascii _ H).
Qed.

Lemma validateContent_ascii (content : jsstring) :
  forallb is_ascii content = true ->
  Validator.validateContent content
  = Validator.validateContent (CM := ascii_case) content.
Proof.
  intros H.
  unfold Validator.validateContent, Validator.calculateQualityScore,
    Validator.calculateReadability.
  rewrite (detectAISlop_ascii _ H), (detectCorporateJargon_ascii _ H),
    (countSyllables_ascii _ H), (isGeneric_ascii _ H).
  reflexivity.
Qed.

End AsciiAgreement.

Ltac rminmax :=
  unfold Math_max, Math_min;
  repeat first [ rewrite Rmin_left by lra | rewrite Rmin_right by lra
               | rewrite Rmax_left by lra | rewrite Rmax_right by lra ].

Section EmptyInput.
Context {CM : CaseMapping}.

Lemma empty_readability : Validator.calculateReadability (CM := ascii_case) [] = 0.
Proof. reflexivity. Qed.

Lemma empty_variety : Validator.calculateSentenceVariety [] = 1.
Proof. reflexivity. Qed.

Lemma empty_overall :
  Validator.overall (Validator.score (Validator.validateContent (CM := ascii_case) [])) = 5.
Proof.
  unfold Validator.validateContent, Validator.calculateQualityScore.
  cbn [Validator.score Validator.overall].
  rewrite empty_readability, empty_variety.
  replace (Validator.isGeneric (CM := ascii_case) []) with false by reflexivity.
  replace (List.length (Validator.detectAISlop (CM := ascii_case) [])) with 0%nat
    by reflexivity.
  replace (List.length (Validator.detectCorporateJargon (CM := ascii_case) [])) with 0%nat
    by reflexivity.
  replace (List.length (Validator.detectEngagementElements [])) with 0%nat
    by reflexivity.
  unfold Validator.round1. simpl INR.
  match goal with |- Math_round ?x / 10 = 5 => replace x with (IZR 50) end.
  2:{ rminmax. lra. }
  rewrite Math_round_IZR. lra.
Qed.

(** C2, as the code has it: on the empty string [validateContent]
    returns a result (it is a total function) whose overall score is 5
    and whose readability score is 0. *)
Theorem validateContent_empty :
  Validator.overall (Validator.score (Validator.validateContent [])) = 5
  /\ Validator.readabilityScore (Validator.metrics (Validator.validateContent [])) = 0.
Proof.
  rewrite (validateContent_ascii []) by reflexivity.
  split; [apply empty_overall | apply empty_readability].
Qed.

End EmptyInput.

(** C2, as stated, fails: the overall score of the empty string is not 0. *)
Lemma validateContent_empty_overall_not_zero :
  ~ (Validator.overall
       (Validator.score (Validator.validateContent (CM := ascii_case) [])) = 0
     /\ Validator.readabilityScore
          (Validator.metrics (Validator.validateContent (CM := ascii_case) [])) = 0).
Proof.
  intros [H _]. rewrite empty_overall in H. lra.
Qed.

Section SentenceVariety.

Lemma fold_left_sum (xs : list R) (acc : R) :
  fold_left (fun a b => a + b) xs acc = acc + Spec.sum xs.
Proof.
  revert acc; induction xs as [|x xs IH]; intros acc; simpl.
  - lra.
  - rewrite IH. lra.
Qed.

Lemma fold_left_sum_map (f : R -> R) (xs : list R) (acc : R) :
  fold_left (fun sum length => sum + f length) xs acc
  = acc + Spec.sum (map f xs).
Proof.
  revert acc; induction xs as [|x xs IH]; intros acc; simpl.
  - lra.
  - rewrite IH. lra.
Qed.

Lemma split_go_nonempty (r : regex) (s : jsstring) (skip : nat) (pre cur : jsstring) :
  (1 <= List.length (split_go r skip pre cur s))%nat.
Proof.
  revert skip pre cur; induction s as [|c s IH]; intros skip pre cur; simpl.
  - lia.
  - destruct skip as [|k]; [|apply IH].
    destruct (rexec r pre (c :: s)) as [[[|n] cs]|]; try apply IH.
    + destruct cur; [apply IH | simpl; lia].
    + simpl; lia.
Qed.

Lemma split_ws_nonempty (s : jsstring) :
  (1 <= List.length (split (plus ws) s))%nat.
Proof.
  destruct s as [|c s]; [simpl; lia|].
  unfold split. apply split_go_nonempty.
Qed.

Lemma sum_ge_length (xs : list R) :
  Forall (fun x => 1 <= x) xs -> INR (List.length xs) <= Spec.sum xs.
Proof.
  induction 1 as [|x xs Hx _ IH].
  - simpl. lra.
  - change (List.length (x :: xs)) with (S (List.length xs)).
    rewrite S_INR. simpl. lra.
Qed.

Lemma sentenceWordCounts_ge_1 (content : jsstring) :
  Forall (fun x => 1 <= x) (Spec.sentenceWordCounts content).
Proof.
  unfold Spec.sentenceWordCounts. apply Forall_map, Forall_forall.
  intros s _. change 1 with (INR 1). apply le_INR, split_ws_nonempty.
Qed.

Lemma mean_positive (content : jsstring) :
  (0 < List.length (Spec.sentenceWordCounts content))%nat ->
  0 < Spec.mean (Spec.sentenceWordCounts content).
Proof.
  intros Hn. unfold Spec.mean.
  pose proof (sum_ge_length _ (sentenceWordCounts_ge_1 content)) as Hs.
  apply lt_INR in Hn. simpl in Hn.
  apply Rdiv_lt_0_compat; lra.
Qed.

(** C5, as the code has it: with at least two sentences the metric is
    the coefficient of variation (standard deviation over mean) of the
    per-sentence word counts; with fewer than two sentences it is 1. *)
Theorem calculateSentenceVariety_spec (content : jsstring) :
  Validator.calculateSentenceVariety content
  = if (List.length (Validator.sentencesOf content) <? 2)%nat
    then 1
    else Spec.coefficientOfVariation (Spec.sentenceWordCounts content).
Proof.
  unfold Validator.calculateSentenceVariety.
  destruct (_ <? 2)%nat eqn:E; [reflexivity|].
  apply Nat.ltb_ge in E.
  fold (Spec.sentenceWordCounts content).
  set (xs := Spec.sentenceWordCounts content).
  rewrite fold_left_sum, Rplus_0_l. fold (Spec.mean xs).
  rewrite fold_left_sum_map, Rplus_0_l.
  assert (Hm : 0 < Spec.mean xs).
  { apply mean_positive. unfold Spec.sentenceWordCounts.
    rewrite length_map. lia. }
  destruct (Rlt_dec 0 (Spec.mean xs)) as [_|Hn]; [reflexivity | contradiction].
Qed.

End SentenceVariety.

(** C5, as stated, fails: a text of one sentence has fewer than two
    sentences and its metric is 1, not 0. *)
Lemma calculateSentenceVariety_one_sentence :
  (List.length (Validator.sentencesOf (js "Hello world.")) < 2)%nat
  /\ Validator.calculateSentenceVariety (js "Hello world.") <> 0.
Proof.
  split; [vm_compute; lia|].
  change (Validator.calculateSentenceVariety (js "Hello world.")) with 1.
  lra.
Qed.

Section OverLimit.
Context {CM : CaseMapping}.

Lemma score_when_warning (c : bool) (d : R) (m : jsstring) (a : Acc) :
  acc_score (when c (fun a => add_score d (Strategy.push_warning m a)) a)
  = acc_score a + Spec.delta c d.
Proof. destruct c; simpl; lra. Qed.

Lemma score_when_error (c : bool) (d : R) (m : jsstring) (a : Acc) :
  acc_score (when c (fun a => add_score d (push_error m a)) a)
  = acc_score a + Spec.delta c d.
Proof. destruct c; simpl; lra. Qed.

Lemma score_when_add (c : bool) (d : R) (a : Acc) :
  acc_score (when c (add_score d) a) = acc_score a + Spec.delta c d.
Proof. destruct c; simpl; lra. Qed.

Lemma score_when_push (c : bool) (m : jsstring) (a : Acc) :
  acc_score (when c (Strategy.push_warning m) a) = acc_score a.
Proof. destruct c; reflexivity. Qed.

Lemma errors_when_warning (c : bool) (d : R) (m : jsstring) (a : Acc) :
  acc_errors (when c (fun a => add_score d (Strategy.push_warning m a)) a)
  = acc_errors a.
Proof. destruct c; reflexivity. Qed.

Lemma errors_when_error (c : bool) (d : R) (m : jsstring) (a : Acc) :
  acc_errors (when c (fun a => add_score d (push_error m a)) a)
  = acc_errors a ++ (if c then [m] else []).
Proof. destruct c; simpl; [reflexivity | now rewrite app_nil_r]. Qed.

Lemma errors_when_add (c : bool) (d : R) (a : Acc) :
  acc_errors (when c (add_score d) a) = acc_errors a.
Proof. destruct c; reflexivity. Qed.

Lemma errors_when_push (c : bool) (m : jsstring) (a : Acc) :
  acc_errors (when c (Strategy.push_warning m) a) = acc_errors a.
Proof. destruct c; reflexivity. Qed.

Lemma score_add (d : R) (a : Acc) : acc_score (add_score d a) = acc_score a + d.
Proof. reflexivity. Qed.

Lemma score_push (m : jsstring) (a : Acc) :
  acc_score (Strategy.push_warning m a) = acc_score a.
Proof. reflexivity. Qed.

Lemma errors_add (d : R) (a : Acc) : acc_errors (add_score d a) = acc_errors a.
Proof. reflexivity. Qed.

Lemma errors_push (m : jsstring) (a : Acc) :
  acc_errors (Strategy.push_warning m a) = acc_errors a.
Proof. reflexivity. Qed.

Lemma score_if (c : bool) (x y : Acc) :
  acc_score (if c then x else y) = if c then acc_score x else acc_score y.
Proof. now destruct c. Qed.

Lemma errors_if (c : bool) (x y : Acc) :
  acc_errors (if c then x else y) = if c then acc_errors x else acc_errors y.
Proof. now destruct c. Qed.

Ltac acc_score_steps :=
  repeat match goal with
    | |- context [acc_score (when _ (add_score _) _)] => rewrite score_when_add
    | |- context [acc_score (when _ (fun a => add_score _ (Strategy.push_warning _ a)) _)] =>
        rewrite score_when_warning
    | |- context [acc_score (when _ (fun a => add_score _ (push_error _ a)) _)] =>
        rewrite score_when_error
    | |- context [acc_score (when _ (Strategy.push_warning _) _)] =>
        rewrite score_when_push
    | |- context [acc_score (if _ then _ else _)] => rewrite score_if
    | |- context [acc_score (add_score _ _)] => rewrite score_add
    | |- context [acc_score (Strategy.push_warning _ _)] => rewrite score_push
    | |- context [acc_score acc0] => change (acc_score acc0) with 10
    end.

Ltac acc_errors_steps :=
  repeat match goal with
    | |- context [acc_errors (when _ (add_score _) _)] => rewrite errors_when_add
    | |- context [acc_errors (when _ (fun a => add_score _ (Strategy.push_warning _ a)) _)] =>
        rewrite errors_when_warning
    | |- context [acc_errors (when _ (fun a => add_score _ (push_error _ a)) _)] =>
        rewrite errors_when_error
    | |- context [acc_errors (when _ (Strategy.push_warning _) _)] =>
        rewrite errors_when_push
    | |- context [acc_errors (if _ then _ else _)] => rewrite errors_if
    | |- context [acc_errors (add_score _ _)] => rewrite errors_add
    | |- context [acc_errors (Strategy.push_warning _ _)] => rewrite errors_push
    | |- context [acc_errors acc0] => change (acc_errors acc0) with (@nil jsstring)
    end.

Lemma twitter_validate_score (content : jsstring) :
  Strategy.score (Twitter.validate content)
  = Spec.clamp10
      (10 + Spec.delta (Twitter.CHAR_LIMIT <? List.length content)%nat (-3)
       + Spec.twitterOtherAdjustments content).
Proof.
  unfold Twitter.validate, finish, Spec.clamp10, Spec.twitterOtherAdjustments.
  cbn [Strategy.score]. do 2 f_equal.
  acc_score_steps. lra.
Qed.

Lemma twitter_validate_errors (content : jsstring) :
  Strategy.errors (Twitter.validate content)
  = if (Twitter.CHAR_LIMIT <? List.length content)%nat
    then [Spec.twitterOverLimit] else [].
Proof.
  unfold Twitter.validate, finish. cbn [Strategy.errors].
  acc_errors_steps. destruct (_ <? _)%nat; reflexivity.
Qed.

Lemma linkedin_validate_score (content : jsstring) :
  Strategy.score (LinkedIn.validate content)
  = Spec.clamp10
      (10 + Spec.delta (LinkedIn.CHAR_LIMIT <? List.length content)%nat (-3)
       + Spec.linkedinOtherAdjustments content).
Proof.
  unfold LinkedIn.validate, finish, Spec.clamp10, Spec.linkedinOtherAdjustments.
  cbn [Strategy.score]. do 2 f_equal.
  acc_score_steps.
  destruct (LinkedIn.MAX_HASHTAGS <? _)%nat;
    try destruct ((_ <? LinkedIn.RECOMMENDED_HASHTAGS_min)%nat && _)%bool;
    destruct (List.length content <? LinkedIn.OPTIMAL_MIN_LENGTH)%nat;
    destruct (LinkedIn.OPTIMAL_MAX_LENGTH <? List.length content)%nat;
    cbn [orb Spec.delta]; lra.
Qed.

Lemma linkedin_validate_errors (content : jsstring) :
  (LinkedIn.CHAR_LIMIT <? List.length content)%nat = true ->
  Strategy.errors (LinkedIn.validate content) = [Spec.linkedinOverLimit].
Proof.
  intros H. unfold LinkedIn.validate, finish. cbn [Strategy.errors].
  acc_errors_steps. rewrite H.
  apply Nat.ltb_lt in H. unfold LinkedIn.CHAR_LIMIT in H.
  replace (List.length content <? LinkedIn.MIN_LENGTH)%nat with false
    by (symmetry; apply Nat.ltb_ge; unfold LinkedIn.MIN_LENGTH; lia).
  repeat match goal with
         | |- context [if ?c then _ else _] => destruct c
         end;
    reflexivity.
Qed.

Lemma clamp10_id (x : R) : 0 <= x <= 10 -> Spec.clamp10 x = x.
Proof. intros H. unfold Spec.clamp10. rminmax. reflexivity. Qed.

Lemma over300_adjustments : Spec.twitterOtherAdjustments Spec.over300 = 0.
Proof.
  unfold Spec.twitterOtherAdjustments.
  rewrite (toLowerCase_ascii Spec.over300) by reflexivity.
  replace (filter _ Twitter.slopPhrases) with (@nil jsstring)
    by (vm_compute; reflexivity).
  replace (List.length Spec.over300 <? 50)%nat with false by reflexivity.
  replace (3 <? List.length (matchAll re_hash Spec.over300))%nat with false
    by (vm_compute; reflexivity).
  replace (test re_digits Spec.over300) with false by (vm_compute; reflexivity).
  simpl. lra.
Qed.

(** C7: on a text longer than the platform's limit [validate] answers
    invalid, reports the over-limit error, and takes 3 off the score
    (before the other checks and the clamping to the 0-10 range).  On 300
    letters [a] the Twitter result is invalid, carries the over-limit
    error, and has score 7. *)
Theorem validate_over_limit :
  (forall content,
     (maxLength Twitter.getConstraints < List.length content)%nat ->
     Strategy.isValid (Twitter.validate content) = false
     /\ In Spec.twitterOverLimit (Strategy.errors (Twitter.validate content))
     /\ Strategy.score (Twitter.validate content)
        = Spec.clamp10 (10 - 3 + Spec.twitterOtherAdjustments content))
  /\ (forall content,
     (maxLength LinkedIn.getConstraints < List.length content)%nat ->
     Strategy.isValid (LinkedIn.validate content) = false
     /\ In Spec.linkedinOverLimit (Strategy.errors (LinkedIn.validate content))
     /\ Strategy.score (LinkedIn.validate content)
        = Spec.clamp10 (10 - 3 + Spec.linkedinOtherAdjustments content))
  /\ (Strategy.isValid (Twitter.validate Spec.over300) = false
      /\ Strategy.errors (Twitter.validate Spec.over300) = [Spec.twitterOverLimit]
      /\ Strategy.score (Twitter.validate Spec.over300) = 7).
Proof.
  assert (HT : forall content, (Twitter.CHAR_LIMIT < List.length content)%nat ->
     Strategy.isValid (Twitter.validate content) = false
     /\ Strategy.errors (Twitter.validate content) = [Spec.twitterOverLimit]
     /\ Strategy.score (Twitter.validate content)
        = Spec.clamp10 (10 - 3 + Spec.twitterOtherAdjustments content)).
  { intros content H. apply Nat.ltb_lt in H.
    assert (E : Strategy.errors (Twitter.validate content) = [Spec.twitterOverLimit])
      by (rewrite twitter_validate_errors, H; reflexivity).
    split; [apply finish_isValid; fold (Twitter.validate content);
            rewrite E; discriminate|].
    split; [exact E|].
    rewrite twitter_validate_score, H. unfold Spec.delta.
    first [reflexivity | f_equal; lra]. }
  split; [|split].
  - intros content H. destruct (HT content H) as (Hv & He & Hs).
    rewrite He. repeat split; [exact Hv | now left | exact Hs].
  - intros content H.
    change (maxLength LinkedIn.getConstraints) with LinkedIn.CHAR_LIMIT in H.
    apply Nat.ltb_lt in H.
    pose proof (linkedin_validate_errors content H) as E.
    split; [apply finish_isValid; fold (LinkedIn.validate content);
            rewrite E; discriminate|].
    split; [rewrite E; now left|].
    rewrite linkedin_validate_score, H. unfold Spec.delta.
    first [reflexivity | f_equal; lra].
  - destruct (HT Spec.over300) as (Hv & He & Hs); [vm_compute; lia|].
    repeat split; [exact Hv | exact He |].
    rewrite Hs, over300_adjustments.
    rewrite clamp10_id; lra.
Qed.

End OverLimit.

Section Orchestrator.
Context {CM : CaseMapping}.

Import Generator.

Lemma needsRegeneration_iff (q : Validator.ContentQualityResult) :
  needsRegeneration q = true
  <-> Validator.overall (Validator.score q) < 5
      /\ Validator.critical (Validator.issues q) <> [].
Proof.
  unfold needsRegeneration. rewrite andb_true_iff, Nat.ltb_lt.
  destruct (Rlt_dec _ 5) as [Hlt|Hge];
    destruct (Validator.critical (Validator.issues q)) as [|m ms]; simpl;
    split; intros [H1 H2]; try discriminate; try lia; try contradiction;
    try (now elim H2).
Qed.

(** C3: the calls made to the provider by one request, whatever scorer
    the service was constructed with.  After the first answer is
    post-processed and scored, a second call is made exactly when the
    overall score the scorer returned is below 5 and it raised a critical
    issue; its answer is post-processed and used whatever it scores; no
    program path makes a third call.  [generateContent] is this program
    with the ContentValidatorService as its scorer. *)
Theorem generateContent_regenerates_at_most_once
    (validateContent : Scorer)
    (request : ContentGenerationRequest) (ai : Provider) :
  let platform := req_platform request in
  let context := buildContext request in
  let options := default (req_options request) no_options in
  let prompt := Optimizer.generatePrompt platform context in
  let first := (prompt, firstCallOptions options) in
  run (generateContentWith validateContent request) ai []
  = match ai [] prompt (firstCallOptions options) with
    | None => (None, [first])
    | Some r1 =>
        let content1 := Optimizer.postProcess platform (gr_content r1) context in
        let q := validateContent content1 in
        if needsRegeneration q
        then
          let retry := (improvedPrompt prompt q, options) in
          (option_map
             (fun r2 =>
                buildResponseWith validateContent platform context r1
                  (Optimizer.postProcess platform (gr_content r2) context))
             (ai [first] (improvedPrompt prompt q) options),
           [first; retry])
        else (Some (buildResponseWith validateContent platform context r1 content1),
              [first])
    end
  /\ (forall q, needsRegeneration q = true
        <-> Validator.overall (Validator.score q) < 5
            /\ Validator.critical (Validator.issues q) <> [])
  /\ (List.length (snd (run (generateContentWith validateContent request) ai []))
      <= 2)%nat
  /\ generateContent request
     = generateContentWith Validator.validateContent request.
Proof.
  cbv zeta.
  assert (E : run (generateContentWith validateContent request) ai []
    = match ai [] (Optimizer.generatePrompt (req_platform request) (buildContext request))
              (firstCallOptions (default (req_options request) no_options)) with
      | None =>
          (None, [(Optimizer.generatePrompt (req_platform request) (buildContext request),
                   firstCallOptions (default (req_options request) no_options))])
      | Some r1 =>
          if needsRegeneration
               (validateContent
                  (Optimizer.postProcess (req_platform request) (gr_content r1)
                     (buildContext request)))
          then
            (option_map
               (fun r2 =>
                  buildResponseWith validateContent (req_platform request)
                    (buildContext request) r1
                    (Optimizer.postProcess (req_platform request) (gr_content r2)
                       (buildContext request)))
               (ai [(Optimizer.generatePrompt (req_platform request) (buildContext request),
                     firstCallOptions (default (req_options request) no_options))]
                   (improvedPrompt
                      (Optimizer.generatePrompt (req_platform request) (buildContext request))
                      (validateContent
                         (Optimizer.postProcess (req_platform request) (gr_content r1)
                            (buildContext request))))
                   (default (req_options request) no_options)),
             [(Optimizer.generatePrompt (req_platform request) (buildContext request),
               firstCallOptions (default (req_options request) no_options));
              (improvedPrompt
                 (Optimizer.generatePrompt (req_platform request) (buildContext request))
                 (validateContent
                    (Optimizer.postProcess (req_platform request) (gr_content r1)
                       (buildContext request))),
               default (req_options request) no_options)])
          else
            (Some (buildResponseWith validateContent (req_platform request)
                     (buildContext request) r1
                     (Optimizer.postProcess (req_platform request) (gr_content r1)
                        (buildContext request))),
             [(Optimizer.generatePrompt (req_platform request) (buildContext request),
               firstCallOptions (default (req_options request) no_options))])
      end).
  { unfold generateContentWith, generate. cbn [run bind app].
    destruct (ai [] _ _) as [r1|]; [|reflexivity].
    destruct (needsRegeneration _); cbn [run bind app]; [|reflexivity].
    destruct (ai _ _ _) as [r2|]; reflexivity. }
  split; [exact E | split; [apply needsRegeneration_iff |]].
  split; [|reflexivity].
  rewrite E.
  destruct (ai [] _ _) as [r1|]; [|simpl; lia].
  destruct (needsRegeneration _); simpl; lia.
Qed.

End Orchestrator.

Section FillerScenario.

Import Generator.

Lemma round1_le (x : R) (n : Z) :
  0 <= x -> x * 10 <= IZR n -> Validator.round1 x <= IZR n / 10.
Proof.
  intros H0 Hn. unfold Validator.round1.
  destruct (@Math_round_range (x * 10) n) as [_ H]; lra.
Qed.

Lemma overall_of_slop (CM : CaseMapping) (content : jsstring) (s j : nat) (r v : R) :
  (5 <= s)%nat -> 0 <= r <= 100 -> 0 <= v ->
  Validator.overall (Validator.calculateQualityScore content s j 0 r v) <= 4.
Proof.
  intros Hs Hr Hv. unfold Validator.calculateQualityScore.
  cbn [Validator.overall].
  apply le_INR in Hs. simpl INR in Hs.
  pose proof (pos_INR j) as Hj.
  replace (Math_max 0 (Math_min 10 (10 - INR s * 2 - INR j))) with 0
    by (rminmax; reflexivity).
  change (INR 0) with 0.
  replace (Math_min 10 (0 * 3)) with 0 by (rminmax; lra).
  replace (if Validator.isGeneric content then Math_max 0 (0 - 3) else 0) with 0
    by (destruct (Validator.isGeneric content); rminmax; reflexivity).
  assert (Hc : 0 <= Math_min 10 (r / 10) <= 10)
    by (unfold Math_min, Rmin; destruct (Rle_dec 10 (r / 10)); lra).
  assert (Hp : 0 <= Math_min 10 (v * 10 + 5) <= 10)
    by (unfold Math_min, Rmin; destruct (Rle_dec 10 (v * 10 + 5)); lra).
  replace 4 with (IZR 40 / 10) by lra.
  apply round1_le; lra.
Qed.

Lemma filler_needs_regeneration :
  needsRegeneration
    (Validator.validateContent (CM := ascii_case)
       (Optimizer.postProcess (CM := ascii_case) (js "twitter") Spec.fillerText
          (buildContext Spec.tweetRequest))) = true.
Proof.
  replace (Optimizer.postProcess (CM := ascii_case) (js "twitter") Spec.fillerText
             (buildContext Spec.tweetRequest))
    with Spec.fillerText by (vm_compute; reflexivity).
  apply needsRegeneration_iff. split.
  - unfold Validator.validateContent. cbn [Validator.score].
    replace (List.length (Validator.detectEngagementElements Spec.fillerText))
      with 0%nat by (vm_compute; reflexivity).
    apply Rle_lt_trans with 4; [|lra].
    apply overall_of_slop.
    + vm_compute. lia.
    + apply calculateReadability_range.
    + apply calculateSentenceVariety_nonneg.
  - unfold Validator.validateContent. cbn [Validator.issues].
    replace (Validator.isGeneric (CM := ascii_case) Spec.fillerText) with true
      by (vm_compute; reflexivity).
    destruct (Rlt_dec _ 0.3); destruct (Rlt_dec _ 60);
      destruct (Nat.eqb _ 0); destruct (Nat.ltb 0 _); destruct (Nat.ltb 0 _);
      cbn; try discriminate; destruct (Validator.critical _); discriminate.
Qed.

(** C3 on the scenario of the specification: against a provider that
    always answers the same generic filler text the request makes exactly
    two calls and completes with a response. *)
Lemma filler_regenerated_once :
  fst (run (generateContent (CM := ascii_case) Spec.tweetRequest)
           Spec.fillerProvider []) <> None
  /\ List.length
       (snd (run (generateContent (CM := ascii_case) Spec.tweetRequest)
                 Spec.fillerProvider [])) = 2%nat.
Proof.
  pose proof (@generateContent_regenerates_at_most_once ascii_case
                (Validator.validateContent (CM := ascii_case))
                Spec.tweetRequest Spec.fillerProvider) as H.
  cbv zeta in H. destruct H as (E & _ & _ & _).
  unfold generateContent. rewrite E. unfold Spec.fillerProvider. cbv beta iota.
  match goal with
  | |- context [needsRegeneration ?q] =>
      replace (needsRegeneration q) with true
        by (symmetry; exact filler_needs_regeneration)
  end.
  split; [cbn [fst option_map]; discriminate | reflexivity].
Defined.

End FillerScenario.

(* ================================================================== *)
(** * Post-processing *)
(* ================================================================== *)

Close Scope R_scope.

(** ** The greedy star of a character class *)

Section StarChr.
Context {X : Type} (p : char -> bool) (k : cont X).

Lemma star_loop_chr (fuel : nat) : forall pre rest cs,
  (List.length rest <= fuel)%nat ->
  star_loop (fun pre' rest' cs' k' => rmatch (Chr p) pre' rest' cs' k')
            k fuel pre rest cs
  = star_chr p k pre rest cs.
Proof.
  induction fuel as [|fuel IH]; intros pre rest cs Hf.
  - destruct rest; [reflexivity | simpl in Hf; lia].
  - destruct rest as [|c rest]; [reflexivity|].
    cbn [star_loop rmatch star_chr].
    destruct (p c); [|reflexivity].
    replace (List.length rest <? List.length (c :: rest))%nat with true
      by (symmetry; apply Nat.ltb_lt; simpl; lia).
    rewrite IH by (simpl in Hf; lia). reflexivity.
Qed.

Lemma rmatch_star_chr (pre rest : jsstring) (cs : caps) :
  rmatch (Star (Chr p)) pre rest cs k = star_chr p k pre rest cs.
Proof. cbn [rmatch]. apply star_loop_chr. lia. Qed.

End StarChr.

Lemma span_len_le (p : char -> bool) (s : jsstring) :
  (span_len p s <= List.length s)%nat.
Proof. induction s as [|c s IH]; simpl; [lia|]. destruct (p c); simpl; lia. Qed.

(** with a continuation that always succeeds the star takes the whole run *)
Lemma star_chr_total {X} (p : char -> bool) (f : jsstring -> caps -> X) :
  forall rest pre cs,
  star_chr p (fun _ rest' cs' => Some (f rest' cs')) pre rest cs
  = Some (f (skipn (span_len p rest) rest) cs).
Proof.
  induction rest as [|c rest IH]; intros pre cs; [reflexivity|].
  cbn [star_chr span_len]. destruct (p c); [|reflexivity].
  rewrite IH. reflexivity.
Qed.

Lemma rmatch_at_least {X} (p : char -> bool) (f : jsstring -> caps -> X) (T : nat) :
  forall rest pre cs,
  rmatch (at_least T (Chr p)) pre rest cs (fun _ rest' cs' => Some (f rest' cs'))
  = if (T <=? span_len p rest)%nat
    then Some (f (skipn (span_len p rest) rest) cs) else None.
Proof.
  induction T as [|T IH]; intros rest pre cs.
  - cbn [at_least]. rewrite rmatch_star_chr, star_chr_total. reflexivity.
  - cbn [at_least rmatch]. destruct rest as [|c rest]; [reflexivity|].
    cbn [span_len]. destruct (p c); [|reflexivity].
    rewrite IH. reflexivity.
Qed.

Lemma rexec_at_least (p : char -> bool) (T : nat) (pre s : jsstring) :
  rexec (at_least T (Chr p)) pre s
  = if (T <=? span_len p s)%nat then Some (span_len p s, []) else None.
Proof.
  unfold rexec.
  rewrite (rmatch_at_least p (fun rest' cs' => ((List.length s - List.length rest')%nat, cs'))).
  destruct (T <=? _)%nat; [|reflexivity].
  rewrite length_skipn. pose proof (span_len_le p s).
  do 2 f_equal. lia.
Qed.

Lemma runs_lt_mono (p : char -> bool) (L : nat) (s : jsstring) :
  forall m n, (m <= n)%nat -> runs_lt p L n s = true -> runs_lt p L m s = true.
Proof.
  induction s as [|c s IH]; intros m n Hmn H; [reflexivity|].
  cbn [runs_lt] in *. destruct (p c); [|exact H].
  apply andb_true_iff in H as [H1 H2]. apply Nat.ltb_lt in H1.
  apply andb_true_iff. split; [apply Nat.ltb_lt; lia|].
  apply (IH (S m) (S n)); [lia | exact H2].
Qed.

Lemma runs_lt_app (p : char -> bool) (L : nat) (rep o : jsstring) :
  forall n, forallb p rep = true -> (n + List.length rep < L)%nat ->
  runs_lt p L (n + List.length rep) o = true ->
  runs_lt p L n (rep ++ o) = true.
Proof.
  induction rep as [|x rep IH]; intros n Hp Hn Ho.
  - simpl in *. now rewrite Nat.add_0_r in Ho.
  - simpl in Hp. apply andb_true_iff in Hp as [Hx Hp].
    cbn [app runs_lt List.length] in *. rewrite Hx.
    apply andb_true_iff. split; [apply Nat.ltb_lt; lia|].
    apply IH; [exact Hp | lia |].
    now replace (S n + List.length rep)%nat with (n + S (List.length rep))%nat by lia.
Qed.

Lemma runs_lt_span (p : char -> bool) (L : nat) (s : jsstring) :
  forall n, runs_lt p L n s = true ->
  (0 < span_len p s -> n + span_len p s < L)%nat.
Proof.
  induction s as [|c s IH]; intros n H Hs; [simpl in Hs; lia|].
  cbn [runs_lt span_len] in *. destruct (p c); [|lia].
  apply andb_true_iff in H as [H1 H2]. apply Nat.ltb_lt in H1.
  destruct (span_len p s) eqn:E; [lia|].
  specialize (IH _ H2). lia.
Qed.

(** ** Trimmed strings *)

Lemma endsNonWs_cons (c : char) (s : jsstring) :
  s <> [] -> endsNonWs (c :: s) = endsNonWs s.
Proof. destruct s; [congruence | reflexivity]. Qed.

Lemma endsNonWs_tail (c : char) (s : jsstring) :
  endsNonWs (c :: s) = true -> endsNonWs s = true.
Proof. destruct s; [reflexivity | exact (fun H => H)]. Qed.

Lemma endsNonWs_app (a b : jsstring) :
  b <> [] -> endsNonWs (a ++ b) = endsNonWs b.
Proof.
  intros Hb. induction a as [|c a IH]; [reflexivity|].
  cbn [app]. rewrite endsNonWs_cons; [exact IH|].
  destruct a; [exact Hb | discriminate].
Qed.

Lemma endsNonWs_app_nil (a b : jsstring) :
  endsNonWs a = true -> endsNonWs b = true -> a <> [] -> endsNonWs (a ++ b) = true.
Proof.
  intros Ha Hb Hne. destruct b as [|c b]; [now rewrite app_nil_r|].
  rewrite endsNonWs_app; [exact Hb | discriminate].
Qed.

Lemma endsNonWs_rev (s : jsstring) : endsNonWs s = startsNonWs (rev s).
Proof.
  induction s as [|c s IH]; [reflexivity|].
  destruct s as [|d s]; [reflexivity|].
  rewrite endsNonWs_cons by discriminate. rewrite IH.
  cbn [rev]. destruct (rev s ++ [d]) eqn:E; [|reflexivity].
  now destruct (rev s).
Qed.

Lemma dropWhile_starts (s : jsstring) : startsNonWs (dropWhile is_space s) = true.
Proof.
  induction s as [|c s IH]; [reflexivity|].
  cbn [dropWhile]. destruct (is_space c) eqn:E; [exact IH|].
  cbn. now rewrite E.
Qed.

Lemma dropWhile_id (s : jsstring) : startsNonWs s = true -> dropWhile is_space s = s.
Proof.
  destruct s as [|c s]; [reflexivity|]. cbn. now destruct (is_space c).
Qed.

Lemma dropWhile_suffix (s : jsstring) :
  exists a, s = a ++ dropWhile is_space s.
Proof.
  induction s as [|c s [a IH]]; [now exists []|].
  cbn [dropWhile]. destruct (is_space c); [|now exists []].
  exists (c :: a). cbn. now f_equal.
Qed.

Lemma trim_trimmed (s : jsstring) : trimmed (trim s) = true.
Proof.
  unfold trimmed, trim, trimEnd, trimStart. apply andb_true_iff. split.
  - set (t := dropWhile is_space s).
    assert (Ht : startsNonWs t = true) by apply dropWhile_starts.
    destruct (dropWhile_suffix (rev t)) as [a Ha].
    apply (f_equal (@rev char)) in Ha. rewrite rev_involutive, rev_app_distr in Ha.
    destruct (rev (dropWhile is_space (rev t))) as [|c u] eqn:E; [reflexivity|].
    rewrite Ha in Ht. exact Ht.
  - rewrite endsNonWs_rev, rev_involutive. apply dropWhile_starts.
Qed.

Lemma trim_id (s : jsstring) : trimmed s = true -> trim s = s.
Proof.
  unfold trimmed, trim, trimEnd, trimStart. intros H.
  apply andb_true_iff in H as [H1 H2].
  rewrite (dropWhile_id s H1).
  rewrite endsNonWs_rev in H2. rewrite (dropWhile_id _ H2).
  apply rev_involutive.
Qed.

Section Squeeze.
Variables (p : char -> bool) (T : nat) (r : regex) (rep : jsstring).
Hypothesis Hr : forall pre s,
  rexec r pre s = if (T <=? span_len p s)%nat then Some (span_len p s, []) else None.
Hypothesis HT : (1 <= T)%nat.

Local Abbreviation go := (replaceAll_go r [Lit rep]).

Lemma squeeze_nil (pre : jsstring) : go 0 pre [] = [].
Proof.
  cbn [replaceAll_go]. rewrite Hr. cbn [span_len].
  destruct T; [lia | reflexivity].
Qed.

Lemma squeeze_cons_other (pre : jsstring) (c : char) (s : jsstring) :
  p c = false -> go 0 pre (c :: s) = c :: go 0 (c :: pre) s.
Proof.
  intros Hc. cbn [replaceAll_go]. rewrite Hr. cbn [span_len].
  rewrite Hc. destruct T; [lia | reflexivity].
Qed.

Lemma squeeze_cons_short (pre : jsstring) (c : char) (s : jsstring) :
  (span_len p (c :: s) < T)%nat -> go 0 pre (c :: s) = c :: go 0 (c :: pre) s.
Proof.
  intros Hc. cbn [replaceAll_go]. rewrite Hr.
  apply Nat.leb_gt in Hc. rewrite Hc. reflexivity.
Qed.

Lemma squeeze_cons_match (pre : jsstring) (c : char) (s : jsstring) :
  p c = true -> (T <= S (span_len p s))%nat ->
  go 0 pre (c :: s) = rep ++ go (span_len p s) (c :: pre) s.
Proof.
  intros Hc Hs. cbn [replaceAll_go]. rewrite Hr. cbn [span_len].
  rewrite Hc. apply Nat.leb_le in Hs. rewrite Hs. cbn [expand].
  now rewrite app_nil_r.
Qed.

Lemma squeeze_skip (pre : jsstring) (c : char) (s : jsstring) (k : nat) :
  go (S k) pre (c :: s) = go k (c :: pre) s.
Proof. reflexivity. Qed.

Section Runs.
Variable L : nat.
Hypothesis Hrep : forallb p rep = true.
Hypothesis HL : (List.length rep < L)%nat.
Hypothesis HTL : (T <= L)%nat.

Lemma squeeze_runs (s : jsstring) : forall pre,
  runs_lt p L 0 (go 0 pre s) = true
  /\ (forall n, (n + span_len p s < T)%nat -> runs_lt p L n (go 0 pre s) = true)
  /\ runs_lt p L (List.length rep) (go (span_len p s) pre s) = true.
Proof.
  induction s as [|c s IH]; intros pre.
  - cbn [span_len]. rewrite squeeze_nil. repeat split.
  - destruct (IH (c :: pre)) as (IHa & IHn & IHb).
    cbn [span_len]. destruct (p c) eqn:Hc.
    + rewrite squeeze_skip. split; [|split].
      * destruct (Nat.le_gt_cases T (S (span_len p s))) as [Hm|Hm].
        -- rewrite squeeze_cons_match by assumption.
           apply runs_lt_app; [exact Hrep | simpl; lia | exact IHb].
        -- rewrite squeeze_cons_short by (cbn [span_len]; rewrite Hc; lia).
           cbn [runs_lt]. rewrite Hc. apply andb_true_iff.
           split; [apply Nat.ltb_lt; lia | apply IHn; lia].
      * intros n Hn.
        rewrite squeeze_cons_short by (cbn [span_len]; rewrite Hc; lia).
        cbn [runs_lt]. rewrite Hc. apply andb_true_iff.
        split; [apply Nat.ltb_lt; lia | apply IHn; lia].
      * exact IHb.
    + rewrite squeeze_cons_other by assumption.
      cbn [runs_lt]. rewrite Hc. repeat split; auto.
Qed.

Lemma squeeze_bounded (s pre : jsstring) : runs_lt p L 0 (go 0 pre s) = true.
Proof. now destruct (squeeze_runs s pre) as [H _]. Qed.

End Runs.

(** no run reaches the threshold: nothing is replaced *)
Lemma squeeze_fixed (s : jsstring) : forall pre n,
  runs_lt p T n s = true -> go 0 pre s = s.
Proof.
  induction s as [|c s IH]; intros pre n H.
  - apply squeeze_nil.
  - pose proof (runs_lt_span _ _ _ _ H) as Hs.
    cbn [runs_lt] in H. destruct (p c) eqn:Hc.
    + apply andb_true_iff in H as [H1 H2].
      rewrite squeeze_cons_short
        by (cbn [span_len] in *; rewrite Hc in *; lia).
      f_equal. eapply IH, H2.
    + rewrite squeeze_cons_other by assumption. f_equal. eapply IH, H.
Qed.

Lemma runs_lt_skip_run (L : nat) (s : jsstring) : forall n,
  runs_lt p L n s = true -> runs_lt p L 0 (skipn (span_len p s) s) = true.
Proof.
  induction s as [|c s IH]; intros n H; [reflexivity|].
  cbn [runs_lt span_len] in *. destruct (p c) eqn:Hc.
  - apply andb_true_iff in H as [_ H]. cbn [skipn]. eapply IH, H.
  - cbn [skipn runs_lt]. now rewrite Hc.
Qed.

(** runs of exactly the threshold that already are the replacement *)
Section Same.
Variable x : char.
Hypothesis Hx : p x = true.
Hypothesis Hrepx : rep = repeat x T.

Lemma squeeze_same_aux (s : jsstring) : forall pre,
  Forall (fun c => p c = true -> c = x) s ->
  (forall n, runs_lt p (S T) n s = true ->
     (n = 0 \/ n + span_len p s < T)%nat -> go 0 pre s = s)
  /\ (runs_lt p (S T) 0 (skipn (span_len p s) s) = true ->
      repeat x (span_len p s) ++ go (span_len p s) pre s = s).
Proof.
  induction s as [|c s IH]; intros pre Hall.
  - split; [intros; apply squeeze_nil | intros; cbn; apply squeeze_nil].
  - apply Forall_cons_iff in Hall as [Hc Hall'].
    destruct (IH (c :: pre) Hall') as [IH1 IH2].
    cbn [span_len]. destruct (p c) eqn:Hpc.
    + specialize (Hc eq_refl). subst c. split.
      * intros n H Hn.
        pose proof (runs_lt_span _ _ _ _ H) as Hspan.
        cbn [runs_lt span_len] in H, Hspan. rewrite Hpc in H, Hspan.
        apply andb_true_iff in H as [H1 H2].
        destruct (Nat.le_gt_cases T (S (span_len p s))) as [Hm|Hm].
        -- assert (n = 0)%nat by lia.
           subst n.
           rewrite squeeze_cons_match by assumption.
           rewrite Hrepx at 1.
           replace T with (S (span_len p s)) by lia.
           cbn [repeat app]. f_equal. apply IH2.
           eapply runs_lt_skip_run, H2.
        -- rewrite squeeze_cons_short by (cbn [span_len]; rewrite Hpc; lia).
           f_equal. apply (IH1 (S n) H2). lia.
      * intros H. cbn [skipn] in H. rewrite squeeze_skip.
        cbn [repeat app]. f_equal. apply IH2, H.
    + split.
      * intros n H _. rewrite squeeze_cons_other by assumption.
        cbn [runs_lt] in H. rewrite Hpc in H. f_equal. apply (IH1 0%nat H). now left.
      * intros H. cbn [skipn repeat app] in *.
        rewrite squeeze_cons_other by assumption.
        cbn [runs_lt] in H. rewrite Hpc in H. f_equal. apply (IH1 0%nat H). now left.
Qed.

Lemma squeeze_same (s pre : jsstring) :
  Forall (fun c => p c = true -> c = x) s ->
  runs_lt p (S T) 0 s = true -> go 0 pre s = s.
Proof.
  intros Hall H. destruct (squeeze_same_aux s pre Hall) as [H1 _].
  apply (H1 0%nat H). now left.
Qed.

End Same.

(** with threshold 1 every character of the class is replaced *)
Lemma squeeze_all_chars (Q : char -> Prop) (s : jsstring) :
  T = 1%nat -> Forall Q rep -> (forall c, p c = false -> Q c) ->
  forall k pre, Forall Q (go k pre s).
Proof.
  intros HT1 Hrep HQ. induction s as [|c s IH]; intros k pre.
  - destruct k; [rewrite squeeze_nil|]; constructor.
  - destruct k as [|k]; [|apply IH].
    destruct (p c) eqn:Hc.
    + rewrite squeeze_cons_match by (assumption || lia).
      apply Forall_app. split; [exact Hrep | apply IH].
    + rewrite squeeze_cons_other by assumption.
      constructor; [apply HQ, Hc | apply IH].
Qed.

(** classes of whitespace only: a trimmed string stays trimmed *)
Section Inside.
Hypothesis Hpw : forall c, p c = true -> is_space c = true.

Lemma squeeze_ends (s : jsstring) : forall k pre,
  (k <= span_len p s)%nat -> endsNonWs s = true ->
  endsNonWs (go k pre s) = true /\ (s <> [] -> go k pre s <> []).
Proof.
  induction s as [|c s IH]; intros k pre Hk He.
  - cbn [span_len] in Hk. replace k with 0%nat by lia.
    rewrite squeeze_nil. split; [reflexivity | congruence].
  - assert (Hne : is_space c = true -> s <> []).
    { intros Hc ->. cbn in He. now rewrite Hc in He. }
    pose proof (endsNonWs_tail _ _ He) as He'.
    destruct k as [|k].
    + assert (Hcopy : go 0 pre (c :: s) = c :: go 0 (c :: pre) s ->
                endsNonWs (go 0 pre (c :: s)) = true
                /\ (c :: s <> [] -> go 0 pre (c :: s) <> [])).
      { intros ->. split; [|discriminate].
        destruct s as [|d s].
        - rewrite squeeze_nil. exact He.
        - destruct (IH 0%nat (c :: pre)) as [I1 I2]; [lia | exact He' |].
          rewrite endsNonWs_cons; [exact I1 | apply I2; discriminate]. }
      destruct (p c) eqn:Hc.
      * destruct (Nat.le_gt_cases T (S (span_len p s))) as [Hm|Hm].
        -- rewrite squeeze_cons_match by assumption.
           destruct (IH (span_len p s) (c :: pre)) as [I1 I2]; [lia | exact He' |].
           specialize (I2 (Hne (Hpw _ Hc))).
           split; [rewrite endsNonWs_app; assumption|].
           intros _ E. apply app_eq_nil in E as [_ E]. contradiction.
        -- apply Hcopy, squeeze_cons_short. cbn [span_len]. rewrite Hc. lia.
      * apply Hcopy, squeeze_cons_other, Hc.
    + cbn [span_len] in Hk. destruct (p c) eqn:Hc; [|lia].
      rewrite squeeze_skip.
      destruct (IH k (c :: pre)) as [I1 I2]; [lia | exact He' |].
      split; [exact I1 | intros _; apply I2, Hne, Hpw, Hc].
Qed.

Lemma squeeze_trimmed (s pre : jsstring) :
  trimmed s = true -> trimmed (go 0 pre s) = true.
Proof.
  unfold trimmed. intros H. apply andb_true_iff in H as [H1 H2].
  apply andb_true_iff. split.
  - destruct s as [|c s]; [now rewrite squeeze_nil|].
    cbn in H1. rewrite squeeze_cons_other.
    + cbn. exact H1.
    + destruct (p c) eqn:Hc; [|reflexivity].
      rewrite (Hpw _ Hc) in H1. discriminate.
  - apply squeeze_ends; [lia | exact H2].
Qed.

End Inside.

End Squeeze.

(** ** Patterns that match nowhere *)

Lemma replace_no_match (r : regex) (t : list rpiece) (s : jsstring) : forall pre,
  test_from r pre s = false -> replace_from r t pre s = s.
Proof.
  induction s as [|c s IH]; intros pre H; cbn [test_from replace_from] in *;
    destruct (rexec r pre _) as [[n cs]|]; try discriminate; [reflexivity|].
  f_equal. apply IH, H.
Qed.

Lemma replaceAll_no_match (r : regex) (t : list rpiece) (s : jsstring) : forall pre,
  test_from r pre s = false -> replaceAll_go r t 0 pre s = s.
Proof.
  induction s as [|c s IH]; intros pre H; cbn [test_from replaceAll_go] in *;
    destruct (rexec r pre _) as [[n cs]|]; try discriminate; [reflexivity|].
  f_equal. apply IH, H.
Qed.

(** ** What any replacement preserves *)

Lemma runs_lt_other_app (p : char -> bool) (L : nat) (w o : jsstring) : forall n,
  w <> [] -> forallb (fun c => negb (p c)) w = true ->
  runs_lt p L n (w ++ o) = runs_lt p L 0 o.
Proof.
  induction w as [|c w IH]; intros n Hne Hw; [congruence|].
  cbn [forallb] in Hw. apply andb_true_iff in Hw as [Hc Hw].
  apply negb_true_iff in Hc. cbn [app runs_lt]. rewrite Hc.
  destruct w as [|d w]; [reflexivity|]. apply IH; [discriminate | exact Hw].
Qed.

Lemma runs_lt_tail (p : char -> bool) (L n : nat) (c : char) (s : jsstring) :
  runs_lt p L n (c :: s) = true -> runs_lt p L 0 s = true.
Proof.
  cbn [runs_lt]. destruct (p c); [|exact (fun H => H)].
  intros H. apply andb_true_iff in H as [_ H].
  apply (runs_lt_mono p L s 0 (S n)); [lia | exact H].
Qed.

Section AnyReplacement.
Variables (r : regex) (t : list rpiece).
Local Abbreviation go := (replaceAll_go r t).

Lemma replaceAll_Forall (Q : char -> Prop) :
  (forall pre s n cs, rexec r pre s = Some (n, cs) -> Forall Q (expand t cs)) ->
  forall s k pre, Forall Q s -> Forall Q (go k pre s).
Proof.
  intros Hgood. induction s as [|c s IH]; intros k pre Hs.
  - cbn [replaceAll_go]. destruct k; [|constructor].
    destruct (rexec r pre []) as [[n cs]|] eqn:E; [|constructor].
    eapply Hgood, E.
  - apply Forall_cons_iff in Hs as [Hc Hs].
    cbn [replaceAll_go]. destruct k as [|k]; [|apply IH, Hs].
    destruct (rexec r pre (c :: s)) as [[[|n] cs]|] eqn:E.
    + apply Forall_app. split; [eapply Hgood, E|].
      constructor; [exact Hc | apply IH, Hs].
    + apply Forall_app. split; [eapply Hgood, E | apply IH, Hs].
    + constructor; [exact Hc | apply IH, Hs].
Qed.

Lemma replaceAll_runs (p : char -> bool) (L : nat) :
  (forall pre s n cs, rexec r pre s = Some (n, cs) ->
     expand t cs <> [] /\ forallb (fun c => negb (p c)) (expand t cs) = true) ->
  forall s k pre n, runs_lt p L n s = true ->
  runs_lt p L (match k with O => n | S _ => O end) (go k pre s) = true.
Proof.
  intros Hgood. induction s as [|c s IH]; intros k pre n Hs.
  - cbn [replaceAll_go]. destruct k; [|reflexivity].
    destruct (rexec r pre []) as [[m cs]|] eqn:E; [|reflexivity].
    destruct (Hgood _ _ _ _ E) as [Hne Hw].
    rewrite <- (app_nil_r (expand t cs)).
    now rewrite runs_lt_other_app.
  - pose proof (runs_lt_tail _ _ _ _ _ Hs) as Hs'.
    cbn [replaceAll_go]. destruct k as [|k].
    + destruct (rexec r pre (c :: s)) as [[[|m] cs]|] eqn:E.
      * destruct (Hgood _ _ _ _ E) as [Hne Hw].
        rewrite runs_lt_other_app by assumption.
        apply (runs_lt_mono p L _ 0 n); [lia|].
        cbn [runs_lt] in *. destruct (p c).
        -- apply andb_true_iff in Hs as [H1 H2]. rewrite H1. apply (IH 0%nat), H2.
        -- apply (IH 0%nat), Hs.
      * destruct (Hgood _ _ _ _ E) as [Hne Hw].
        rewrite runs_lt_other_app by assumption.
        generalize (IH m (c :: pre) 0%nat Hs'). now destruct m.
      * cbn [runs_lt] in *. destruct (p c).
        -- apply andb_true_iff in Hs as [H1 H2]. rewrite H1. apply (IH 0%nat), H2.
        -- apply (IH 0%nat), Hs.
    + generalize (IH k (c :: pre) 0%nat Hs'). now destruct k.
Qed.

Section Trimmed.
Hypothesis Hgood : forall pre s n cs, rexec r pre s = Some (n, cs) ->
  expand t cs <> [] /\ trimmed (expand t cs) = true.

Lemma replaceAll_nil_inv (s pre : jsstring) : go 0 pre s = [] -> s = [].
Proof.
  destruct s as [|c s]; [reflexivity|]. cbn [replaceAll_go].
  destruct (rexec r pre (c :: s)) as [[[|m] cs]|] eqn:E; try discriminate;
    destruct (Hgood _ _ _ _ E) as [Hne _]; intros H;
    apply app_eq_nil in H as [H _]; contradiction.
Qed.

Lemma replaceAll_ends (s : jsstring) : forall k pre,
  endsNonWs s = true -> endsNonWs (go k pre s) = true.
Proof.
  induction s as [|c s IH]; intros k pre He.
  - cbn [replaceAll_go]. destruct k; [|reflexivity].
    destruct (rexec r pre []) as [[m cs]|] eqn:E; [|reflexivity].
    destruct (Hgood _ _ _ _ E) as [_ Hw]. unfold trimmed in Hw.
    now apply andb_true_iff in Hw as [_ Hw].
  - pose proof (endsNonWs_tail _ _ He) as He'.
    assert (Hcopy : forall pre', endsNonWs (c :: go 0 pre' s) = true).
    { intros pre'. destruct (go 0 pre' s) as [|d o] eqn:Eo.
      - apply replaceAll_nil_inv in Eo. subst s. exact He.
      - rewrite endsNonWs_cons by discriminate. rewrite <- Eo. apply IH, He'. }
    cbn [replaceAll_go]. destruct k as [|k]; [|apply IH, He'].
    destruct (rexec r pre (c :: s)) as [[[|m] cs]|] eqn:E.
    + rewrite endsNonWs_app by discriminate. apply Hcopy.
    + destruct (Hgood _ _ _ _ E) as [Hne Hw]. unfold trimmed in Hw.
      apply andb_true_iff in Hw as [_ Hw].
      apply endsNonWs_app_nil; [exact Hw | apply IH, He' | exact Hne].
    + apply Hcopy.
Qed.

Lemma replaceAll_trimmed (s pre : jsstring) :
  trimmed s = true -> trimmed (go 0 pre s) = true.
Proof.
  unfold trimmed. intros H. apply andb_true_iff in H as [H1 H2].
  apply andb_true_iff. split; [|apply replaceAll_ends, H2].
  assert (Hw : forall pre' s' n cs o, rexec r pre' s' = Some (n, cs) ->
                startsNonWs (expand t cs ++ o) = true).
  { intros pre' s' n cs o E. destruct (Hgood _ _ _ _ E) as [Hne Hw].
    unfold trimmed in Hw. apply andb_true_iff in Hw as [Hw _].
    destruct (expand t cs); [congruence | exact Hw]. }
  destruct s as [|c s]; cbn [replaceAll_go].
  - destruct (rexec r pre []) as [[m cs]|] eqn:E; [|reflexivity].
    rewrite <- (app_nil_r (expand t cs)). eapply Hw, E.
  - destruct (rexec r pre (c :: s)) as [[[|m] cs]|] eqn:E;
      [eapply Hw, E | eapply Hw, E | exact H1].
Qed.

End Trimmed.
End AnyReplacement.

(** ** The patterns of postProcess *)

Lemma rexec_ws_run (pre s : jsstring) :
  rexec (plus ws) pre s
  = if (1 <=? span_len is_space s)%nat then Some (span_len is_space s, []) else None.
Proof. apply (rexec_at_least is_space 1). Qed.

Lemma rexec_bangs (pre s : jsstring) :
  rexec re_bangs pre s
  = if (3 <=? span_len (N.eqb 33) s)%nat then Some (span_len (N.eqb 33) s, []) else None.
Proof. apply (rexec_at_least (N.eqb 33) 3). Qed.

Lemma rexec_questions (pre s : jsstring) :
  rexec re_questions pre s
  = if (2 <=? span_len (N.eqb 63) s)%nat then Some (span_len (N.eqb 63) s, []) else None.
Proof. apply (rexec_at_least (N.eqb 63) 2). Qed.

Lemma expand_lit (w : jsstring) (cs : caps) : expand [Lit w] cs = w.
Proof. cbn. apply app_nil_r. Qed.

Lemma collapse_plainSpaces (s : jsstring) :
  plainSpaces (replaceAll (plus ws) [Lit (js " ")] s).
Proof.
  apply (squeeze_all_chars is_space 1 (plus ws) (js " ") rexec_ws_run (le_n 1)).
  - reflexivity.
  - change (js " ") with [32%N]. now repeat constructor.
  - intros c Hc Hs. congruence.
Qed.

Lemma collapse_runs (s : jsstring) :
  runs_lt is_space 2 0 (replaceAll (plus ws) [Lit (js " ")] s) = true.
Proof.
  apply (squeeze_bounded is_space 1 (plus ws) (js " ") rexec_ws_run (le_n 1) 2);
    [reflexivity | cbn; lia | lia].
Qed.

Lemma collapse_trimmed (s : jsstring) :
  trimmed s = true -> trimmed (replaceAll (plus ws) [Lit (js " ")] s) = true.
Proof.
  apply (squeeze_trimmed is_space 1 (plus ws) (js " ") rexec_ws_run (le_n 1)).
  auto.
Qed.

Lemma collapse_fixed (s : jsstring) :
  plainSpaces s -> runs_lt is_space 2 0 s = true ->
  replaceAll (plus ws) [Lit (js " ")] s = s.
Proof.
  intros Hp Hr.
  apply (squeeze_same is_space 1 (plus ws) (js " ") rexec_ws_run (le_n 1) 32%N);
    first [exact Hp | exact Hr | reflexivity].
Qed.

(** a replacement by one visible character *)
Section VisibleLiteral.
Variables (r : regex) (x : char).
Hypothesis Hx : is_space x = false.

Lemma literal_plainSpaces (s : jsstring) :
  plainSpaces s -> plainSpaces (replaceAll r [Lit [x]] s).
Proof.
  apply replaceAll_Forall. intros pre s' n cs _. rewrite expand_lit.
  constructor; [intros H; congruence | constructor].
Qed.

Lemma literal_runs (p : char -> bool) (L : nat) (s : jsstring) :
  p x = false -> runs_lt p L 0 s = true ->
  runs_lt p L 0 (replaceAll r [Lit [x]] s) = true.
Proof.
  intros Hp Hs. unfold replaceAll.
  refine (replaceAll_runs r [Lit [x]] p L _ s 0%nat [] 0%nat Hs).
  intros pre s' n cs _. rewrite expand_lit. split; [discriminate|].
  cbn. now rewrite Hp.
Qed.

Lemma literal_trimmed (s : jsstring) :
  trimmed s = true -> trimmed (replaceAll r [Lit [x]] s) = true.
Proof.
  apply replaceAll_trimmed. intros pre s' n cs _. rewrite expand_lit.
  split; [discriminate|]. unfold trimmed. cbn. now rewrite Hx.
Qed.

End VisibleLiteral.

Lemma bangs_runs (s : jsstring) :
  runs_lt (N.eqb 33) 3 0 (replaceAll re_bangs [Lit (js "!")] s) = true.
Proof.
  apply (squeeze_bounded (N.eqb 33) 3 re_bangs (js "!") rexec_bangs);
    [lia | reflexivity | cbn; lia | lia].
Qed.

Lemma questions_runs (s : jsstring) :
  runs_lt (N.eqb 63) 2 0 (replaceAll re_questions [Lit (js "?")] s) = true.
Proof.
  apply (squeeze_bounded (N.eqb 63) 2 re_questions (js "?") rexec_questions);
    [lia | reflexivity | cbn; lia | lia].
Qed.

Lemma bangs_fixed (s : jsstring) :
  runs_lt (N.eqb 33) 3 0 s = true -> replaceAll re_bangs [Lit (js "!")] s = s.
Proof.
  apply (squeeze_fixed (N.eqb 33) 3 re_bangs (js "!") rexec_bangs). lia.
Qed.

Lemma questions_fixed (s : jsstring) :
  runs_lt (N.eqb 63) 2 0 s = true -> replaceAll re_questions [Lit (js "?")] s = s.
Proof.
  apply (squeeze_fixed (N.eqb 63) 2 re_questions (js "?") rexec_questions). lia.
Qed.

(** the facts about the result of TwitterStrategy.postProcess *)
Lemma twitter_postProcess_shape (content : jsstring) :
  let y := Twitter.postProcess content in
  plainSpaces y /\ runs_lt is_space 2 0 y = true /\ trimmed y = true
  /\ runs_lt (N.eqb 33) 3 0 y = true /\ runs_lt (N.eqb 63) 2 0 y = true.
Proof.
  unfold Twitter.postProcess.
  set (t0 := trim _).
  set (t1 := replaceAll (plus ws) _ t0).
  set (t2 := replaceAll re_bangs _ t1).
  cbv zeta.
  assert (H1 : plainSpaces t1 /\ runs_lt is_space 2 0 t1 = true /\ trimmed t1 = true).
  { repeat split; [apply collapse_plainSpaces | apply collapse_runs |].
    apply collapse_trimmed, trim_trimmed. }
  destruct H1 as (P1 & R1 & T1).
  assert (H2 : plainSpaces t2 /\ runs_lt is_space 2 0 t2 = true /\ trimmed t2 = true
               /\ runs_lt (N.eqb 33) 3 0 t2 = true).
  { repeat split.
    - now apply (literal_plainSpaces re_bangs 33%N).
    - now apply (literal_runs re_bangs 33%N).
    - now apply (literal_trimmed re_bangs 33%N).
    - apply bangs_runs. }
  destruct H2 as (P2 & R2 & T2 & B2).
  repeat split.
  - now apply (literal_plainSpaces re_questions 63%N).
  - now apply (literal_runs re_questions 63%N).
  - now apply (literal_trimmed re_questions 63%N).
  - now apply (literal_runs re_questions 63%N).
  - apply questions_runs.
Qed.

Lemma twitter_postProcess_fixed (y : jsstring) :
  test Twitter.re_label y = false -> test re_quotes y = false ->
  plainSpaces y -> runs_lt is_space 2 0 y = true -> trimmed y = true ->
  runs_lt (N.eqb 33) 3 0 y = true -> runs_lt (N.eqb 63) 2 0 y = true ->
  Twitter.postProcess y = y.
Proof.
  intros Hl Hq P R T B Q. unfold Twitter.postProcess.
  unfold replace. rewrite (replace_no_match _ _ _ _ Hl).
  unfold replaceAll at 4. rewrite (replaceAll_no_match _ _ _ _ Hq).
  rewrite (trim_id _ T), (collapse_fixed _ P R), (bangs_fixed _ B).
  apply (questions_fixed _ Q).
Qed.

(** ** The two LinkedIn patterns with captures *)

Lemma punct_not_space (c : char) : is_punct c = true -> is_space c = false.
Proof.
  unfold is_punct, char_in. cbn [js list_ascii_of_string map existsb].
  rewrite !orb_true_iff, !N.eqb_eq.
  intros [H|[H|[H|[H|H]]]]; try discriminate; subst c; reflexivity.
Qed.

Lemma space_not_punct (c : char) : is_space c = true -> is_punct c = false.
Proof.
  intros H. destruct (is_punct c) eqn:E; [|reflexivity].
  apply punct_not_space in E. congruence.
Qed.

Lemma punct_not_alpha (c : char) : is_punct c = true -> is_alpha c = false.
Proof.
  unfold is_punct, char_in. cbn [js list_ascii_of_string map existsb].
  rewrite !orb_true_iff, !N.eqb_eq.
  intros [H|[H|[H|[H|H]]]]; try discriminate; subst c; reflexivity.
Qed.

Lemma alpha_not_space (c : char) : is_alpha c = true -> is_space c = false.
Proof.
  unfold is_alpha, is_upper, is_lower, is_space, in_range.
  rewrite orb_true_iff, !andb_true_iff, !N.leb_le. intros H.
  repeat (apply orb_false_iff; split);
    first [ apply N.eqb_neq; lia
          | apply andb_false_iff; rewrite !N.leb_gt; lia ].
Qed.

Lemma alpha_not_newline (c : char) : is_alpha c = true -> N.eqb 10 c = false.
Proof.
  unfold is_alpha, is_upper, is_lower, in_range.
  rewrite orb_true_iff, !andb_true_iff, !N.leb_le. intros H.
  apply N.eqb_neq. lia.
Qed.

Lemma star_chr_end {X} (p : char -> bool) (k : cont X) :
  (forall pre c rest cs, p c = true -> k pre (c :: rest) cs = None) ->
  forall rest pre cs,
  star_chr p k pre rest cs
  = k (rev (firstn (span_len p rest) rest) ++ pre) (skipn (span_len p rest) rest) cs.
Proof.
  intros Hk. induction rest as [|c rest IH]; intros pre cs; [reflexivity|].
  cbn [star_chr span_len]. destruct (p c) eqn:Hc; [|reflexivity].
  rewrite IH. cbn [firstn skipn rev]. rewrite <- app_assoc. cbn [app].
  destruct (k _ _ _) eqn:E; [reflexivity|].
  apply Hk, Hc.
Qed.

Lemma length_sub_tail {A} (c : A) (s : list A) :
  (List.length (c :: s) - List.length s = 1)%nat.
Proof. change (List.length (c :: s)) with (S (List.length s)). lia. Qed.

Lemma rexec_space_before_punct (pre s : jsstring) :
  rexec LinkedIn.re_space_before_punct pre s
  = match span_len is_space s, afterSpaces s with
    | S n, d :: _ => if is_punct d then Some (S (S n), [(1%nat, [d])]) else None
    | _, _ => None
    end.
Proof.
  unfold rexec, LinkedIn.re_space_before_punct, plus, ws, LinkedIn.punct, afterSpaces.
  fold is_punct.
  cbn [rmatch]. destruct s as [|c s]; [reflexivity|].
  cbn [span_len]. destruct (is_space c) eqn:Hc; [|reflexivity].
  change (star_loop _ _ _ _ _ _) with
    (rmatch (Star (Chr is_space)) (c :: pre) s []
       (fun pre' rest' cs' =>
          match rest' with
          | [] => None
          | c0 :: rest'0 =>
              if is_punct c0
              then Some ((List.length (c :: s) - List.length rest'0)%nat,
                         (1%nat, firstn (List.length rest' - List.length rest'0) rest') :: cs')
              else None
          end)).
  rewrite rmatch_star_chr, star_chr_end.
  - cbn [skipn]. destruct (skipn (span_len is_space s) s) as [|d rest] eqn:E;
      [reflexivity|].
    destruct (is_punct d); [|reflexivity].
    rewrite length_sub_tail. cbn [firstn].
    assert (Hl : List.length s = (span_len is_space s + S (List.length rest))%nat).
    { rewrite <- (firstn_skipn (span_len is_space s) s) at 1.
      rewrite length_app, E, length_firstn. cbn [List.length].
      pose proof (span_len_le is_space s). lia. }
    do 2 f_equal. cbn [List.length]. lia.
  - intros pre' d rest cs Hd. now rewrite (space_not_punct _ Hd).
Qed.

Lemma rexec_punct_letter (pre s : jsstring) :
  rexec LinkedIn.re_punct_letter pre s
  = match s with
    | c1 :: c2 :: _ =>
        if is_punct c1 && is_alpha c2
        then Some (2%nat, [(2%nat, [c2]); (1%nat, [c1])]) else None
    | _ => None
    end.
Proof.
  unfold rexec, LinkedIn.re_punct_letter, LinkedIn.punct, is_punct.
  cbn [rmatch]. destruct s as [|c1 s]; [reflexivity|].
  destruct (char_in (js ".,!?") c1); [|now destruct s]. cbn [andb].
  destruct s as [|c2 s]; [reflexivity|].
  destruct (is_alpha c2); [|reflexivity].
  rewrite !length_sub_tail. cbn [firstn].
  do 2 f_equal. cbn [List.length]. lia.
Qed.

Lemma noPair_weaken (A B : char -> bool) (b : bool) (s : jsstring) :
  noPair A B b s = true -> noPair A B false s = true.
Proof.
  destruct s as [|c s]; [reflexivity|]. cbn [noPair].
  intros H. apply andb_true_iff in H as [_ H]. exact H.
Qed.

Section SpaceBeforePunct.
Local Abbreviation go := (replaceAll_go LinkedIn.re_space_before_punct [Ref 1]).

Lemma sbp_nil (pre : jsstring) : go 0 pre [] = [].
Proof. cbn [replaceAll_go]. now rewrite rexec_space_before_punct. Qed.

Lemma afterSpaces_cons (c : char) (s : jsstring) :
  is_space c = true -> afterSpaces (c :: s) = afterSpaces s.
Proof. intros H. unfold afterSpaces. cbn [span_len]. now rewrite H. Qed.

Lemma spacesThenPunct_cons (c : char) (s : jsstring) :
  is_space c = true -> spacesThenPunct (c :: s) = spacesThenPunct s.
Proof. intros H. unfold spacesThenPunct. now rewrite afterSpaces_cons. Qed.

Lemma spacesThenPunct_other (c : char) (s : jsstring) :
  is_space c = false -> spacesThenPunct (c :: s) = is_punct c.
Proof.
  intros H. unfold spacesThenPunct, afterSpaces. cbn [span_len]. now rewrite H.
Qed.

Lemma sbp_copy (pre : jsstring) (c : char) (s : jsstring) :
  is_space c && spacesThenPunct (c :: s) = false ->
  go 0 pre (c :: s) = c :: go 0 (c :: pre) s.
Proof.
  intros H. cbn [replaceAll_go]. rewrite rexec_space_before_punct.
  unfold spacesThenPunct in H. cbn [span_len] in *.
  destruct (is_space c); [|reflexivity]. cbn [andb] in H.
  destruct (afterSpaces (c :: s)) as [|d rest]; [reflexivity|].
  now rewrite H.
Qed.

Lemma sbp_match (pre : jsstring) (c : char) (s : jsstring) :
  is_space c = true -> spacesThenPunct (c :: s) = true ->
  exists d, is_punct d = true
    /\ go 0 pre (c :: s) = d :: go (S (span_len is_space s)) (c :: pre) s.
Proof.
  intros Hc H. cbn [replaceAll_go]. rewrite rexec_space_before_punct.
  unfold spacesThenPunct in H. cbn [span_len]. rewrite Hc.
  destruct (afterSpaces (c :: s)) as [|d rest]; [discriminate|].
  rewrite H. exists d. split; [exact H | reflexivity].
Qed.

Lemma sbp_pairs (s : jsstring) :
  (forall pre b, (b = true -> spacesThenPunct s = false) ->
     noPair is_space is_punct b (go 0 pre s) = true)
  /\ (forall pre,
        noPair is_space is_punct false (go (S (span_len is_space s)) pre s) = true).
Proof.
  induction s as [|c s [IHa IHb]].
  - split; intros; [now rewrite sbp_nil | reflexivity].
  - split.
    + intros pre b Hb.
      destruct (is_space c && spacesThenPunct (c :: s)) eqn:E.
      * apply andb_true_iff in E as [Hc Hp].
        destruct (sbp_match pre c s Hc Hp) as (d & Hd & ->).
        cbn [noPair]. rewrite (punct_not_space _ Hd).
        destruct b; [rewrite Hb in Hp by reflexivity; discriminate|].
        apply IHb.
      * rewrite sbp_copy by exact E. cbn [noPair].
        apply andb_true_iff. split.
        -- destruct b; [|reflexivity]. specialize (Hb eq_refl).
           destruct (is_space c) eqn:Hc.
           ++ now rewrite (space_not_punct _ Hc).
           ++ rewrite spacesThenPunct_other in Hb by exact Hc. now rewrite Hb.
        -- apply IHa. intros Hc. rewrite Hc in E. cbn [andb] in E.
           now rewrite spacesThenPunct_cons in E.
    + intros pre. cbn [span_len replaceAll_go].
      destruct (is_space c); [apply IHb | apply IHa; discriminate].
Qed.

Lemma noPair_spaces (s : jsstring) :
  noPair is_space is_punct true s = true -> spacesThenPunct s = false.
Proof.
  induction s as [|c s IH]; [reflexivity|]. cbn [noPair andb].
  intros H. apply andb_true_iff in H as [H1 H2]. apply negb_true_iff in H1.
  destruct (is_space c) eqn:Hc.
  - rewrite spacesThenPunct_cons by exact Hc. apply IH, H2.
  - now rewrite spacesThenPunct_other.
Qed.

Lemma sbp_fixed (s : jsstring) : forall pre b,
  noPair is_space is_punct b s = true -> go 0 pre s = s.
Proof.
  induction s as [|c s IH]; intros pre b H; [apply sbp_nil|].
  cbn [noPair] in H. apply andb_true_iff in H as [_ H].
  rewrite sbp_copy; [f_equal; eapply IH, H|].
  destruct (is_space c) eqn:Hc; [|reflexivity]. cbn [andb].
  rewrite spacesThenPunct_cons by exact Hc. apply noPair_spaces, H.
Qed.

Lemma sbp_expansion (pre s : jsstring) (n : nat) (cs : caps) :
  rexec LinkedIn.re_space_before_punct pre s = Some (n, cs) ->
  exists d, is_punct d = true /\ expand [Ref 1] cs = [d].
Proof.
  rewrite rexec_space_before_punct.
  destruct (span_len is_space s); [discriminate|].
  destruct (afterSpaces s) as [|d rest]; [discriminate|].
  destruct (is_punct d) eqn:Hd; [|discriminate].
  intros E. injection E as _ <-. now exists d.
Qed.

End SpaceBeforePunct.

Section PunctLetter.
Local Abbreviation go :=
  (replaceAll_go LinkedIn.re_punct_letter [Ref 1; Lit (js " "); Ref 2]).

Lemma pl_nil (pre : jsstring) : go 0 pre [] = [].
Proof. reflexivity. Qed.

Lemma pl_cons (pre : jsstring) (c1 : char) (s : jsstring) :
  go 0 pre (c1 :: s)
  = if is_punct c1 && prev_is is_alpha s
    then c1 :: 32%N :: firstn 1 s ++ go 1 (c1 :: pre) s
    else c1 :: go 0 (c1 :: pre) s.
Proof.
  cbn [replaceAll_go]. rewrite rexec_punct_letter.
  destruct s as [|c2 s]; [now rewrite andb_false_r|]. cbn [prev_is].
  destruct (is_punct c1 && is_alpha c2); reflexivity.
Qed.

Lemma alpha_not_punct (c : char) : is_alpha c = true -> is_punct c = false.
Proof.
  intros H. destruct (is_punct c) eqn:E; [|reflexivity].
  apply punct_not_alpha in E. congruence.
Qed.

Lemma pl_pairs (s : jsstring) :
  (forall pre b, (b = true -> prev_is is_alpha s = false) ->
     noPair is_punct is_alpha b (go 0 pre s) = true)
  /\ (forall pre, noPair is_punct is_alpha false (go 1 pre s) = true).
Proof.
  induction s as [|c s [IHa IHb]].
  - split; reflexivity.
  - split.
    + intros pre b Hb. rewrite pl_cons.
      destruct (is_punct c && prev_is is_alpha s) eqn:E.
      * apply andb_true_iff in E as [Hc Hs].
        destruct s as [|c2 s]; [discriminate|]. cbn [prev_is] in Hs.
        cbn [firstn app noPair]. rewrite (punct_not_alpha _ Hc).
        rewrite (alpha_not_punct _ Hs), !andb_false_r. cbn [negb andb].
        change (is_punct 32%N) with false. cbn [andb negb].
        apply IHb.
      * cbn [noPair]. apply andb_true_iff. split.
        -- destruct b; [|reflexivity]. cbn [prev_is] in Hb. now rewrite Hb.
        -- apply IHa. intros Hc. rewrite Hc in E. exact E.
    + intros pre. cbn [replaceAll_go]. apply IHa. discriminate.
Qed.

Lemma pl_keeps (s : jsstring) :
  (forall pre b, noPair is_space is_punct b s = true ->
     noPair is_space is_punct b (go 0 pre s) = true)
  /\ (forall pre b, noPair is_space is_punct b s = true ->
        noPair is_space is_punct (prev_is is_space s) (go 1 pre s) = true).
Proof.
  induction s as [|c s [IHa IHb]].
  - split; reflexivity.
  - split.
    + intros pre b H. rewrite pl_cons.
      cbn [noPair] in H. apply andb_true_iff in H as [H1 H2].
      destruct (is_punct c && prev_is is_alpha s) eqn:E.
      * apply andb_true_iff in E as [Hc Hs].
        destruct s as [|c2 s]; [discriminate|]. cbn [prev_is] in Hs.
        cbn [firstn app noPair]. rewrite H1, (alpha_not_punct _ Hs).
        change (is_punct 32%N) with false. rewrite !andb_false_r. cbn [negb andb].
        apply (IHb (c :: pre) _ H2).
      * cbn [noPair]. rewrite H1. apply IHa, H2.
    + intros pre b H. cbn [replaceAll_go prev_is].
      cbn [noPair] in H. apply andb_true_iff in H as [_ H]. apply IHa, H.
Qed.

Lemma pl_fixed (s : jsstring) : forall pre b,
  noPair is_punct is_alpha b s = true -> go 0 pre s = s.
Proof.
  induction s as [|c s IH]; intros pre b H; [reflexivity|].
  rewrite pl_cons. cbn [noPair] in H. apply andb_true_iff in H as [_ H].
  assert (E : is_punct c && prev_is is_alpha s = false).
  { destruct (is_punct c) eqn:Hc; [|reflexivity]. cbn [andb].
    destruct s as [|c2 s]; [reflexivity|]. cbn [prev_is noPair] in *.
    apply andb_true_iff in H as [H _]. cbn [andb] in H.
    now apply negb_true_iff in H. }
  rewrite E. f_equal. eapply IH, H.
Qed.

Lemma pl_expansion (pre s : jsstring) (n : nat) (cs : caps) :
  rexec LinkedIn.re_punct_letter pre s = Some (n, cs) ->
  exists c1 c2, is_punct c1 = true /\ is_alpha c2 = true
    /\ expand [Ref 1; Lit (js " "); Ref 2] cs = [c1; 32%N; c2].
Proof.
  rewrite rexec_punct_letter.
  destruct s as [|c1 [|c2 s]]; try discriminate.
  destruct (is_punct c1 && is_alpha c2) eqn:E; [|discriminate].
  apply andb_true_iff in E as [H1 H2].
  intros E. injection E as _ <-. now exists c1, c2.
Qed.

End PunctLetter.

Lemma rexec_blank_lines (pre s : jsstring) :
  rexec LinkedIn.re_blank_lines pre s
  = if (3 <=? span_len (N.eqb 10) s)%nat then Some (span_len (N.eqb 10) s, []) else None.
Proof. apply (rexec_at_least (N.eqb 10) 3). Qed.

Lemma rexec_dots (pre s : jsstring) :
  rexec LinkedIn.re_dots pre s
  = if (3 <=? span_len (N.eqb 46) s)%nat then Some (span_len (N.eqb 46) s, []) else None.
Proof. apply (rexec_at_least (N.eqb 46) 3). Qed.

(** a replacement by a text without the characters of a class *)
Section Literal.
Variables (r : regex) (w : jsstring).
Hypothesis Hw : w <> [].

Lemma text_runs (p : char -> bool) (L : nat) (s : jsstring) :
  forallb (fun c => negb (p c)) w = true -> runs_lt p L 0 s = true ->
  runs_lt p L 0 (replaceAll r [Lit w] s) = true.
Proof.
  intros Hp Hs. unfold replaceAll.
  refine (replaceAll_runs r [Lit w] p L _ s 0%nat [] 0%nat Hs).
  intros pre s' n cs _. rewrite expand_lit. now split.
Qed.

Lemma text_trimmed (s : jsstring) :
  trimmed w = true -> trimmed s = true -> trimmed (replaceAll r [Lit w] s) = true.
Proof.
  intros Ht. apply replaceAll_trimmed. intros pre s' n cs _.
  rewrite expand_lit. now split.
Qed.

End Literal.

Lemma newline_is_space (c : char) : N.eqb 10 c = true -> is_space c = true.
Proof. intros H. apply N.eqb_eq in H. now subst c. Qed.

Lemma punct_not_newline (c : char) : is_punct c = true -> N.eqb 10 c = false.
Proof.
  intros H. destruct (N.eqb 10 c) eqn:E; [|reflexivity].
  apply newline_is_space in E. apply punct_not_space in H. congruence.
Qed.

Lemma linkedin_postProcess_shape (content : jsstring) (context : ContentContext) :
  linkedinShape (LinkedIn.postProcess content context).
Proof.
  unfold LinkedIn.postProcess.
  set (t0 := trim _).
  set (t1 := replaceAll LinkedIn.re_blank_lines _ t0).
  set (t2 := replaceAll re_bangs _ t1).
  set (t3 := replaceAll re_questions _ t2).
  set (t4 := replaceAll LinkedIn.re_dots _ t3).
  set (t5 := replaceAll LinkedIn.re_space_before_punct _ t4).
  cbv zeta.
  assert (T1 : trimmed t1 = true).
  { apply (squeeze_trimmed (N.eqb 10) 3 LinkedIn.re_blank_lines (nl ++ nl)
             rexec_blank_lines); [lia | exact newline_is_space | apply trim_trimmed]. }
  assert (N1 : runs_lt (N.eqb 10) 3 0 t1 = true).
  { apply (squeeze_bounded (N.eqb 10) 3 LinkedIn.re_blank_lines (nl ++ nl)
             rexec_blank_lines); [lia | reflexivity | cbn; lia | lia]. }
  assert (T2 : trimmed t2 = true) by (apply text_trimmed; [discriminate | reflexivity | exact T1]).
  assert (N2 : runs_lt (N.eqb 10) 3 0 t2 = true)
    by (apply text_runs; [discriminate | reflexivity | exact N1]).
  assert (T3 : trimmed t3 = true) by (apply text_trimmed; [discriminate | reflexivity | exact T2]).
  assert (N3 : runs_lt (N.eqb 10) 3 0 t3 = true)
    by (apply text_runs; [discriminate | reflexivity | exact N2]).
  assert (T4 : trimmed t4 = true) by (apply text_trimmed; [discriminate | reflexivity | exact T3]).
  assert (N4 : runs_lt (N.eqb 10) 3 0 t4 = true)
    by (apply text_runs; [discriminate | reflexivity | exact N3]).
  assert (T5 : trimmed t5 = true).
  { apply replaceAll_trimmed; [|exact T4]. intros pre s n cs E.
    destruct (sbp_expansion _ _ _ _ E) as (d & Hd & ->).
    split; [discriminate|]. unfold trimmed. cbn [startsNonWs endsNonWs].
    now rewrite (punct_not_space _ Hd). }
  assert (N5 : runs_lt (N.eqb 10) 3 0 t5 = true).
  { refine (replaceAll_runs _ _ (N.eqb 10) 3 _ t4 0%nat [] 0%nat N4).
    intros pre s n cs E.
    destruct (sbp_expansion _ _ _ _ E) as (d & Hd & ->).
    split; [discriminate|]. cbn [forallb]. now rewrite (punct_not_newline _ Hd). }
  assert (S5 : noPair is_space is_punct false t5 = true).
  { apply sbp_pairs. discriminate. }
  repeat split.
  - apply replaceAll_trimmed; [|exact T5]. intros pre s n cs E.
    destruct (pl_expansion _ _ _ _ E) as (c1 & c2 & H1 & H2 & ->).
    split; [discriminate|]. unfold trimmed. cbn [startsNonWs endsNonWs].
    now rewrite (punct_not_space _ H1), (alpha_not_space _ H2).
  - refine (replaceAll_runs _ _ (N.eqb 10) 3 _ t5 0%nat [] 0%nat N5).
    intros pre s n cs E.
    destruct (pl_expansion _ _ _ _ E) as (c1 & c2 & H1 & H2 & ->).
    split; [discriminate|]. cbn [forallb].
    now rewrite (punct_not_newline _ H1), (alpha_not_newline _ H2).
  - apply pl_keeps, S5.
  - apply pl_pairs. discriminate.
Qed.

Lemma dots_fixed (s : jsstring) :
  runs_lt (N.eqb 46) 4 0 s = true ->
  replaceAll LinkedIn.re_dots [Lit (js "...")] s = s.
Proof.
  intros H.
  apply (squeeze_same (N.eqb 46) 3 LinkedIn.re_dots (js "...") rexec_dots) with (x := 46%N);
    first [exact H | reflexivity | lia | idtac].
  apply Forall_forall. intros c _ Hc. apply N.eqb_eq in Hc. now subst c.
Qed.

Lemma blank_lines_fixed (s : jsstring) :
  runs_lt (N.eqb 10) 3 0 s = true ->
  replaceAll LinkedIn.re_blank_lines [Lit (nl ++ nl)] s = s.
Proof.
  apply (squeeze_fixed (N.eqb 10) 3 LinkedIn.re_blank_lines (nl ++ nl) rexec_blank_lines).
  lia.
Qed.

Lemma linkedin_postProcess_fixed (y : jsstring) (context : ContentContext) :
  test LinkedIn.re_label y = false -> test re_quotes y = false ->
  runs_lt (N.eqb 33) 3 0 y = true -> runs_lt (N.eqb 63) 2 0 y = true ->
  runs_lt (N.eqb 46) 4 0 y = true ->
  linkedinShape y ->
  LinkedIn.postProcess y context = y.
Proof.
  intros Hl Hq B Q D (T & N & S & L). unfold LinkedIn.postProcess.
  unfold replace. rewrite (replace_no_match _ _ _ _ Hl).
  unfold replaceAll at 7. rewrite (replaceAll_no_match _ _ _ _ Hq).
  rewrite (trim_id _ T), (blank_lines_fixed _ N), (bangs_fixed _ B),
    (questions_fixed _ Q), (dots_fixed _ D).
  unfold replaceAll. rewrite (sbp_fixed _ _ _ S). apply (pl_fixed _ _ _ L).
Qed.


(** *** Whitespace runs and words *)

Lemma collapse_oneSpacePerRun (s : jsstring) : forall pre,
  replaceAll_go (plus ws) [Lit (js " ")] 0 pre s = oneSpacePerRun false s
  /\ replaceAll_go (plus ws) [Lit (js " ")] (span_len is_space s) pre s
     = oneSpacePerRun true s.
Proof.
  induction s as [|c s IH]; intros pre.
  - split; [|cbn [span_len]];
      apply (squeeze_nil is_space 1 (plus ws) (js " ") rexec_ws_run (le_n 1)).
  - destruct (IH (c :: pre)) as [IH0 IHs].
    cbn [span_len oneSpacePerRun]. destruct (is_space c) eqn:Hc.
    + split.
      * rewrite (squeeze_cons_match is_space 1 (plus ws) (js " ") rexec_ws_run pre c s Hc)
          by lia.
        rewrite IHs. reflexivity.
      * rewrite squeeze_skip. exact IHs.
    + rewrite (squeeze_cons_other is_space 1 (plus ws) (js " ") rexec_ws_run (le_n 1)
                 pre c s Hc).
      rewrite IH0. split; reflexivity.
Qed.

Lemma collapse_is_collapseWhitespace (s : jsstring) :
  replaceAll (plus ws) [Lit (js " ")] s = collapseWhitespace s.
Proof. apply collapse_oneSpacePerRun. Qed.

Lemma words_oneSpacePerRun (s : jsstring) :
  (forall b, words (oneSpacePerRun b s) = words s)
  /\ startsNonWs (oneSpacePerRun false s) = startsNonWs s.
Proof.
  induction s as [|c s [IHw IHs]]; [split; reflexivity|].
  cbn [oneSpacePerRun words startsNonWs]. destruct (is_space c) eqn:Hc.
  - split; [|reflexivity]. intros [|]; [apply IHw|].
    cbn [words]. change (is_space 32%N) with true. cbv iota. apply IHw.
  - split.
    + intros b. cbn [words]. rewrite Hc, IHw, IHs. reflexivity.
    + cbn [startsNonWs]. now rewrite Hc.
Qed.

Lemma words_nil_inv (s : jsstring) :
  words s = [] -> endsNonWs s = true -> s = [].
Proof.
  induction s as [|c s IH]; [reflexivity|]. cbn [words].
  destruct (is_space c) eqn:Hc.
  - intros Hw He. destruct s as [|d s].
    + cbn in He. rewrite Hc in He. discriminate He.
    + specialize (IH Hw He). discriminate IH.
  - destruct (words s) as [|w others]; [discriminate|].
    destruct (startsNonWs s); discriminate.
Qed.

(** a text without whitespace at its end: collapsing its runs gives its
    words, one space between two of them *)
Lemma oneSpacePerRun_join (s : jsstring) :
  endsNonWs s = true ->
  oneSpacePerRun true s = join (js " ") (words s)
  /\ oneSpacePerRun false s
     = (if startsNonWs s then [] else js " ") ++ join (js " ") (words s).
Proof.
  induction s as [|c s IH]; intros He; [split; reflexivity|].
  cbn [oneSpacePerRun words startsNonWs]. destruct (is_space c) eqn:Hc; cbn [negb].
  - destruct s as [|d s]; [cbn in He; rewrite Hc in He; discriminate He|].
    destruct (IH He) as [IHt _]. rewrite IHt. split; reflexivity.
  - destruct (IH (endsNonWs_tail _ _ He)) as [_ IHf]. rewrite IHf.
    assert (E : c :: (if startsNonWs s then [] else js " ") ++ join (js " ") (words s)
                = join (js " ")
                    (match words s with
                     | w :: others =>
                         if startsNonWs s then (c :: w) :: others
                         else [c] :: w :: others
                     | [] => [[c]]
                     end)).
    { destruct (words s) as [|w others] eqn:Ew.
      - rewrite (words_nil_inv s Ew (endsNonWs_tail _ _ He)). reflexivity.
      - destruct (startsNonWs s); cbn [app join]; [|reflexivity].
        destruct others; reflexivity. }
    unfold jsstring in *. rewrite E. split; reflexivity.
Qed.

Lemma collapse_trimmed_join (s : jsstring) :
  trimmed s = true -> collapseWhitespace s = join (js " ") (words s).
Proof.
  unfold trimmed, collapseWhitespace. intros H.
  apply andb_true_iff in H as [Hs He].
  destruct (oneSpacePerRun_join s He) as [_ E]. now rewrite E, Hs.
Qed.

Lemma wordStarts_words (s : jsstring) :
  wordStarts false s = List.length (words s)
  /\ (wordStarts true s + (if startsNonWs s then match s with [] => 0 | _ => 1 end else 0)
      = List.length (words s))%nat.
Proof.
  induction s as [|c s [IHf IHt]]; [split; reflexivity|].
  cbn [wordStarts words startsNonWs]. destruct (is_space c) eqn:Hc; cbn [negb].
  - split; [exact IHf | lia].
  - assert (E : List.length
                  (match words s with
                   | w :: others =>
                       if startsNonWs s then (c :: w) :: others else [c] :: w :: others
                   | [] => [[c]]
                   end)
                = S (wordStarts true s)).
    { destruct s as [|d s]; [reflexivity|].
      cbn [startsNonWs] in IHt |- *.
      destruct (words (d :: s)) as [|w others] eqn:Ew.
      - cbn [List.length] in IHt |- *. destruct (negb (is_space d)); lia.
      - destruct (negb (is_space d)); cbn [List.length] in IHt |- *;
          unfold jsstring in *; lia. }
    unfold jsstring in *. rewrite E. split; lia.
Qed.

Section SqueezeWords.
Variables (p : char -> bool) (T : nat) (r : regex) (rep : jsstring).
Hypothesis Hr : forall pre s,
  rexec r pre s = if (T <=? span_len p s)%nat then Some (span_len p s, []) else None.
Hypothesis HT : (1 <= T)%nat.
Hypothesis Hp : forall c, p c = true -> is_space c = false.
Hypothesis Hrep : forallb (fun c => negb (is_space c)) rep = true.
Hypothesis Hne : rep <> [].

Lemma wordStarts_visible (x : jsstring) : forall inWord rest,
  forallb (fun c => negb (is_space c)) x = true -> x <> [] ->
  wordStarts inWord (x ++ rest) = ((if inWord then 0 else 1) + wordStarts true rest)%nat.
Proof.
  induction x as [|c x IH]; intros inWord rest Hx Hn; [now elim Hn|].
  cbn [forallb] in Hx. apply andb_true_iff in Hx as [Hc Hx].
  apply negb_true_iff in Hc. cbn [app wordStarts]. rewrite Hc.
  destruct x as [|d x]; [reflexivity|].
  rewrite (IH true rest Hx) by discriminate. reflexivity.
Qed.

(** replacing runs of visible characters by a visible text neither joins
    nor splits words *)
Lemma squeeze_wordStarts (s : jsstring) : forall pre,
  (forall inWord,
     wordStarts inWord (replaceAll_go r [Lit rep] 0 pre s) = wordStarts inWord s)
  /\ wordStarts true (replaceAll_go r [Lit rep] (span_len p s) pre s)
     = wordStarts true s.
Proof.
  induction s as [|c s IH]; intros pre.
  - cbn [span_len]. rewrite (squeeze_nil p T r rep Hr HT). split; reflexivity.
  - destruct (IH (c :: pre)) as [IH0 IHs]. cbn [span_len].
    destruct (p c) eqn:Hc.
    + pose proof (Hp c Hc) as Hv. split.
      * intros inWord.
        destruct (Nat.le_gt_cases T (S (span_len p s))) as [Hm|Hm].
        -- rewrite (squeeze_cons_match p T r rep Hr pre c s Hc Hm).
           rewrite (wordStarts_visible rep inWord _ Hrep Hne), IHs.
           cbn [wordStarts]. now rewrite Hv.
        -- rewrite (squeeze_cons_short p T r rep Hr pre c s)
             by (cbn [span_len]; rewrite Hc; lia).
           cbn [wordStarts]. now rewrite Hv, IH0.
      * rewrite squeeze_skip, IHs. cbn [wordStarts]. now rewrite Hv.
    + rewrite (squeeze_cons_other p T r rep Hr HT pre c s Hc).
      assert (E : forall inWord,
                 wordStarts inWord (c :: replaceAll_go r [Lit rep] 0 (c :: pre) s)
                 = wordStarts inWord (c :: s)).
      { intros inWord. cbn [wordStarts]. now rewrite !IH0. }
      split; [exact E | apply E].
Qed.

Lemma squeeze_word_count (s : jsstring) :
  List.length (words (replaceAll r [Lit rep] s)) = List.length (words s).
Proof.
  destruct (wordStarts_words (replaceAll r [Lit rep] s)) as [<- _].
  destruct (wordStarts_words s) as [<- _].
  apply squeeze_wordStarts.
Qed.

End SqueezeWords.

(** ** Results *)

(** C10: [TwitterStrategy.postProcess] flattens its input onto one line.
    Once the label and the quotes are removed and the text is trimmed,
    every maximal run of whitespace, line breaks included, becomes one
    space and nothing else is touched by that step: the line is the words
    of the text with one space between two of them; the two punctuation
    steps that follow shorten runs inside words and keep their number.  Hence the result has no newline, its only
    whitespace character is the plain space, and no two whitespace
    characters are adjacent. *)
Theorem twitter_postProcess_single_line (content : jsstring) :
  let cleaned :=
    trim (replaceAll re_quotes [] (replace Twitter.re_label [] content)) in
  let line := collapseWhitespace cleaned in
  let y := Twitter.postProcess content in
  y = replaceAll re_questions [Lit (js "?")] (replaceAll re_bangs [Lit (js "!")] line)
  /\ line = join (js " ") (words cleaned)
  /\ words line = words cleaned
  /\ List.length (words y) = List.length (words cleaned)
  /\ ~ In 10%N y
  /\ Forall (fun c => is_space c = true -> c = 32%N) y
  /\ runs_lt is_space 2 0 y = true.
Proof.
  cbv zeta.
  assert (E : Twitter.postProcess content
              = replaceAll re_questions [Lit (js "?")]
                  (replaceAll re_bangs [Lit (js "!")]
                     (collapseWhitespace
                        (trim (replaceAll re_quotes []
                                 (replace Twitter.re_label [] content))))))
    by (unfold Twitter.postProcess; cbv zeta;
        now rewrite collapse_is_collapseWhitespace).
  split; [exact E|].
  split; [apply collapse_trimmed_join, trim_trimmed|].
  split; [apply words_oneSpacePerRun|].
  split.
  - rewrite E.
    rewrite (squeeze_word_count (N.eqb 63) 2 re_questions (js "?") rexec_questions);
      [|lia | intros c Hc; apply N.eqb_eq in Hc; now subst c | reflexivity
       | discriminate].
    rewrite (squeeze_word_count (N.eqb 33) 3 re_bangs (js "!") rexec_bangs);
      [|lia | intros c Hc; apply N.eqb_eq in Hc; now subst c | reflexivity
       | discriminate].
    f_equal. apply words_oneSpacePerRun.
  - destruct (twitter_postProcess_shape content) as (P & R & _).
    repeat split; [|exact P | exact R].
    intros Hin. unfold plainSpaces in P. rewrite Forall_forall in P.
    specialize (P _ Hin eq_refl). discriminate.
Qed.

Example thread_separator_flattened :
  Twitter.postProcess
    (js "Thread: first tweet" ++ nl ++ js "---" ++ nl ++ js "second tweet")
  = js "first tweet --- second tweet".
Proof. reflexivity. Qed.

Example thread_separator_words :
  words (js "Thread: first tweet" ++ nl ++ js "---" ++ nl ++ js "second  tweet")
  = [ js "Thread:"; js "first"; js "tweet"; js "---"; js "second"; js "tweet" ]
  /\ collapseWhitespace (js "first tweet" ++ nl ++ js "---" ++ nl ++ js "second  tweet")
     = js "first tweet --- second tweet".
Proof. split; reflexivity. Qed.

(** C4, as the code has it: a second pass changes nothing when the first
    result does not begin with a role label and has no quote character at
    either end, and, for LinkedIn, has no run of three exclamation marks,
    of two question marks or of four full stops. *)
Theorem postProcess_idempotent_on_clean_results :
  (forall x,
     let y := Twitter.postProcess x in
     test Twitter.re_label y = false -> test re_quotes y = false ->
     Twitter.postProcess y = y)
  /\ (forall x context,
     let y := LinkedIn.postProcess x context in
     test LinkedIn.re_label y = false -> test re_quotes y = false ->
     runs_lt (N.eqb 33) 3 0 y = true -> runs_lt (N.eqb 63) 2 0 y = true ->
     runs_lt (N.eqb 46) 4 0 y = true ->
     LinkedIn.postProcess y context = y).
Proof.
  split.
  - intros x y Hl Hq.
    destruct (twitter_postProcess_shape x) as (P & R & T & B & Q).
    now apply twitter_postProcess_fixed.
  - intros x context y Hl Hq B Q D.
    apply linkedin_postProcess_fixed; try assumption.
    apply linkedin_postProcess_shape.
Qed.

(** The two parts of the theorem on a labelled tweet and a labelled
    post. *)
Lemma postProcess_idempotent_examples :
  Twitter.postProcess (Twitter.postProcess Spec.labelledTweet)
  = Twitter.postProcess Spec.labelledTweet
  /\ Twitter.postProcess Spec.labelledTweet = js "Hello world! what?"
  /\ LinkedIn.postProcess (LinkedIn.postProcess Spec.labelledPost Spec.plainContext)
       Spec.plainContext
     = LinkedIn.postProcess Spec.labelledPost Spec.plainContext
  /\ LinkedIn.postProcess Spec.labelledPost Spec.plainContext
     = js "Great news, team. It works! Really".
Proof.
  destruct postProcess_idempotent_on_clean_results as [HT HL].
  split; [apply HT; reflexivity|].
  split; [reflexivity|].
  split; [apply HL; reflexivity | reflexivity].
Defined.

(** C4, as stated, fails for both strategies: a repeated label, nested
    quotes, or punctuation that the first pass brings together is only
    cleaned by a second pass. *)
Lemma postProcess_not_idempotent :
  Twitter.postProcess (Twitter.postProcess (js "Tweet: Tweet: hi"))
    <> Twitter.postProcess (js "Tweet: Tweet: hi")
  /\ Twitter.postProcess (Twitter.postProcess (js "'' hi"))
    <> Twitter.postProcess (js "'' hi")
  /\ LinkedIn.postProcess
       (LinkedIn.postProcess (js "Post: Post: hi") Spec.plainContext) Spec.plainContext
    <> LinkedIn.postProcess (js "Post: Post: hi") Spec.plainContext
  /\ LinkedIn.postProcess
       (LinkedIn.postProcess (js "wow ! ! !") Spec.plainContext) Spec.plainContext
    <> LinkedIn.postProcess (js "wow ! ! !") Spec.plainContext
  /\ LinkedIn.postProcess
       (LinkedIn.postProcess (js "why ? ?") Spec.plainContext) Spec.plainContext
    <> LinkedIn.postProcess (js "why ? ?") Spec.plainContext
  /\ LinkedIn.postProcess
       (LinkedIn.postProcess (js "so . . . .") Spec.plainContext) Spec.plainContext
    <> LinkedIn.postProcess (js "so . . . .") Spec.plainContext.
Proof.
  repeat split; vm_compute; discriminate.
Qed.

(* ================================================================== *)
(** * The model on concrete inputs *)
(* ================================================================== *)

Example split_on_whitespace :
  split (plus ws) (js " a  b ") = [js ""; js "a"; js "b"; js ""].
Proof. reflexivity. Qed.

Example hashtags_matched :
  matchAll re_hashtag (js "x #ab #c_d! ##e") = [js "#ab"; js "#c_d"; js "#e"].
Proof. reflexivity. Qed.

Example label_is_case_insensitive :
  replace Twitter.re_label [] (js "tHrEaD:   one") = js "one".
Proof. reflexivity. Qed.

Example word_boundaries :
  test Validator.re_specifics (js "Not for instances") = false
  /\ test Validator.re_specifics (js "Take, for Instance, this") = true.
Proof. split; reflexivity. Qed.

Example linkedin_postProcess_spacing :
  LinkedIn.postProcess (js "Post:  a ,b.c ? ?  x....") Spec.plainContext
  = js "a, b. c??  x...".
Proof. reflexivity. Qed.

(** The slop scenario of the specification: five phrases are found and
    the authenticity component is at its floor. *)
Example slop_scenario :
  Validator.detectAISlop (CM := ascii_case)
    (js "I delve into synergy to unlock game-changer results.")
  = [js "delve"; js "delve into"; js "unlock"; js "game-changer"; js "synergy"].
Proof. reflexivity. Qed.

Example engagement_scenario :
  Validator.detectEngagementElements (js "Stop it. 3 things to learn?")
  = [js "question"; js "numbers"; js "hook"; js "actionWord"].
Proof. reflexivity. Qed.

Example registry_examples :
  Strategy.getPlatformName (Optimizer.getStrategy (CM := ascii_case) (js "LinkedIn"))
  = js "linkedin"
  /\ Strategy.getPlatformName (Optimizer.getStrategy (CM := ascii_case) (js "TWITTER"))
     = js "twitter"
  /\ Strategy.getPlatformName (Optimizer.getStrategy (CM := ascii_case) (js "mastodon"))
     = js "twitter".
Proof. repeat split; reflexivity. Qed.

Example linkedin_optimize_scenario :
  let r := LinkedIn.optimize (CM := ascii_case)
             (js "hello world. This is it. And more! yes? ok.")
             {| topic := js "career growth"; tone := None; targetAudience := None;
                includeHashtags := Some true; includeEmojis := None;
                callToAction := None; format := None |} in
  Strategy.hashtags r = [js "Career"; js "Growth"; js "Leadership"]
  /\ Strategy.content r
     = js "hello world. This is it." ++ nl ++ nl ++ js "And more! yes?" ++ nl ++ nl
       ++ js "ok." ++ nl ++ nl ++ js "#Career #Growth #Leadership"
  /\ Strategy.estimatedEngagement (Strategy.metadata r) = low.
Proof. repeat split; reflexivity. Qed.

(* ================================================================== *)
(** * Further properties of the services *)
(* ================================================================== *)

(** ** Splitting at one character *)

Lemma rexec_chr (p : char -> bool) (pre s : jsstring) :
  rexec (Chr p) pre s
  = match s with
    | c :: _ => if p c then Some (1%nat, []) else None
    | [] => None
    end.
Proof.
  unfold rexec. destruct s as [|c s]; cbn [rmatch]; [reflexivity|].
  destruct (p c); [|reflexivity].
  do 2 f_equal. cbn [List.length]. lia.
Qed.

Lemma split_go_chr_plain (p : char -> bool) (s : jsstring) : forall pre cur,
  Forall (fun c => p c = false) s ->
  split_go (Chr p) 0 pre cur s = [rev cur ++ s].
Proof.
  induction s as [|c s IH]; intros pre cur H.
  - cbn [split_go]. now rewrite app_nil_r.
  - apply Forall_cons_iff in H as [Hc Hs].
    cbn [split_go]. rewrite rexec_chr, Hc, IH by exact Hs.
    cbn [rev]. now rewrite <- app_assoc.
Qed.

Lemma split_go_chr_sep (p : char -> bool) (a : jsstring) (c : char)
    (rest : jsstring) : forall pre cur,
  Forall (fun x => p x = false) a -> p c = true ->
  split_go (Chr p) 0 pre cur (a ++ c :: rest)
  = (rev cur ++ a) :: split_go (Chr p) 0 (c :: rev a ++ pre) [] rest.
Proof.
  induction a as [|x a IH]; intros pre cur Ha Hc.
  - cbn [app split_go rev]. rewrite rexec_chr, Hc. now rewrite app_nil_r.
  - apply Forall_cons_iff in Ha as [Hx Ha].
    cbn [app split_go]. rewrite rexec_chr, Hx, IH by assumption.
    cbn [rev]. now rewrite <- !app_assoc.
Qed.

Lemma not_slash (s : jsstring) :
  ~ In slash s -> Forall (fun c => N.eqb slash c = false) s.
Proof.
  intros H. apply Forall_forall. intros c Hc.
  apply N.eqb_neq. intros E. apply H. now rewrite E.
Qed.

(** ** The provider: model information *)

Section ModelInfo.
Import OpenRouter.
Local Open Scope R_scope.

Lemma splitStr_slash (s : jsstring) :
  splitStr (js "/") s = split (Chr (N.eqb slash)) s.
Proof. reflexivity. Qed.

Lemma split_without_slash (s : jsstring) :
  ~ In slash s -> splitStr (js "/") s = [s].
Proof.
  intros H. rewrite splitStr_slash. destruct s as [|c s]; [reflexivity|].
  unfold split. now rewrite split_go_chr_plain by (now apply not_slash).
Qed.

Lemma split_provider_name (p n rest : jsstring) :
  ~ In slash p -> ~ In slash n -> (rest = [] \/ exists r, rest = slash :: r) ->
  exists more, splitStr (js "/") (p ++ js "/" ++ n ++ rest) = p :: n :: more.
Proof.
  intros Hp Hn Hr. rewrite splitStr_slash.
  change (js "/") with [slash]. cbn [app].
  assert (E : split (Chr (N.eqb slash)) (p ++ slash :: n ++ rest)
              = split_go (Chr (N.eqb slash)) 0 [] [] (p ++ slash :: n ++ rest)).
  { destruct p; reflexivity. }
  rewrite E, split_go_chr_sep by (try apply not_slash; auto using N.eqb_refl).
  cbn [rev app].
  destruct Hr as [-> | [r ->]].
  - rewrite !app_nil_r, split_go_chr_plain by (now apply not_slash).
    now exists [].
  - rewrite split_go_chr_sep by (try apply not_slash; auto using N.eqb_refl).
    cbn [rev app]. eexists. reflexivity.
Qed.

(** X1: how [getModelInfo] reads the identifier of the current model.  An
    identifier [p/n], possibly followed by further [/]-separated segments,
    has provider [p] and name [n] (the further segments are dropped); an
    empty [p] gives the provider [unknown], an empty [n] the whole
    identifier as name.  An identifier without a slash is its own name and,
    unless it is empty, its own provider. *)
Theorem getModelInfo_reads_identifier :
  (forall p n rest : jsstring,
     ~ In slash p -> ~ In slash n -> (rest = [] \/ exists r, rest = slash :: r) ->
     let id := p ++ js "/" ++ n ++ rest in
     let info := getModelInfo {| currentModel := id |} in
     mi_id info = id
     /\ mi_provider info = match p with [] => js "unknown" | _ :: _ => p end
     /\ mi_name info = match n with [] => id | _ :: _ => n end)
  /\ (forall id : jsstring,
        ~ In slash id ->
        let info := getModelInfo {| currentModel := id |} in
        mi_name info = id
        /\ mi_provider info = match id with [] => js "unknown" | _ :: _ => id end).
Proof.
  split.
  - intros p n rest Hp Hn Hr. cbv zeta.
    destruct (split_provider_name p n rest Hp Hn Hr) as [more E].
    unfold getModelInfo. cbn [currentModel mi_id mi_provider mi_name].
    rewrite E. cbn [nth_error str_or].
    repeat split; [destruct p | destruct n]; reflexivity.
  - intros id H. cbv zeta. unfold getModelInfo.
    cbn [currentModel mi_provider mi_name].
    rewrite (split_without_slash id H). cbn [nth_error str_or].
    split; destruct id; reflexivity.
Qed.

(** The identifier of the default model, and one with a third segment. *)
Lemma getModelInfo_reads_identifier_examples :
  (let info := getModelInfo (create None) in
   mi_provider info = js "google" /\ mi_name info = js "gemini-flash-1.5-8b")
  /\ (let info := getModelInfo {| currentModel := js "a/b/c" |} in
      mi_provider info = js "a" /\ mi_name info = js "b")
  /\ (let info := getModelInfo {| currentModel := js "local-model" |} in
      mi_name info = js "local-model" /\ mi_provider info = js "local-model").
Proof.
  destruct getModelInfo_reads_identifier as [H1 H2].
  assert (N : forall s : jsstring, forallb (fun c => negb (N.eqb slash c)) s = true
                -> ~ In slash s).
  { intros s Hs Hin. rewrite forallb_forall in Hs. specialize (Hs _ Hin).
    now rewrite N.eqb_refl in Hs. }
  split; [|split].
  - destruct (H1 (js "google") (js "gemini-flash-1.5-8b") []) as (_ & A & B);
      [now apply N | now apply N | now left |].
    cbv zeta. split; [exact A | exact B].
  - destruct (H1 (js "a") (js "b") (js "/c")) as (_ & A & B);
      [now apply N | now apply N | right; now exists (js "c") |].
    cbv zeta. split; [exact A | exact B].
  - apply (H2 (js "local-model")). now apply N.
Defined.

End ModelInfo.

(** ** The provider seen through the endpoints *)

Section ModelEndpoints.
Import OpenRouter.
Local Open Scope R_scope.

Lemma array_includes_In (l : list jsstring) (x : jsstring) :
  array_includes l x = true <-> In x l.
Proof.
  unfold array_includes. rewrite existsb_exists. split.
  - intros (y & Hy & E). apply str_eqb_eq in E. now subst.
  - intros H. exists x. split; [exact H | apply str_eqb_refl].
Qed.

(** X2: after [switchModel(m)] the model endpoint reports the identifier
    [m]; it reports the model as free exactly when [m] is one of the free
    models, which is exactly when both prices it reports are zero; the list
    of free models is not affected by the switch. *)
Theorem model_info_after_switchModel (modelId : jsstring) (st : State) :
  let st' := GeneratorModels.switchModel modelId st in
  let r := Controller.getModelInfo st' in
  mi_id (Controller.info r) = modelId
  /\ (Controller.isFree r = true <-> In modelId freeModels)
  /\ (Controller.isFree r = true
      <-> price_prompt (mi_pricing (Controller.info r)) = 0
          /\ price_completion (mi_pricing (Controller.info r)) = 0)
  /\ Controller.getFreeModels st' = Controller.getFreeModels st.
Proof.
  cbv zeta.
  unfold Controller.getModelInfo, GeneratorModels.switchModel,
    GeneratorModels.getModelInfo, GeneratorModels.isUsingFreeModel,
    setModel, getModelInfo, isCurrentModelFree.
  cbn [Controller.info Controller.isFree currentModel mi_id mi_pricing
       price_prompt price_completion].
  split; [reflexivity|]. split; [apply array_includes_In|]. split; [|reflexivity].
  destruct (array_includes freeModels modelId);
    (split; [intros H; try discriminate H; split; reflexivity
            | intros [H _]; try reflexivity; lra]).
Qed.

End ModelEndpoints.

(** ** The runs of the orchestrator *)

Section Runs.
Context {CM : CaseMapping}.
Import Generator.

Lemma run_generateContentWith (validateContent : Scorer)
    (request : ContentGenerationRequest) (ai : Provider) :
  let platform := req_platform request in
  let context := buildContext request in
  let options := default (req_options request) no_options in
  let prompt := Optimizer.generatePrompt platform context in
  let first := (prompt, firstCallOptions options) in
  run (generateContentWith validateContent request) ai []
  = match ai [] prompt (firstCallOptions options) with
    | None => (None, [first])
    | Some r1 =>
        let content1 := Optimizer.postProcess platform (gr_content r1) context in
        let q := validateContent content1 in
        if needsRegeneration q
        then
          (option_map
             (fun r2 =>
                buildResponseWith validateContent platform context r1
                  (Optimizer.postProcess platform (gr_content r2) context))
             (ai [first] (improvedPrompt prompt q) options),
           [first; (improvedPrompt prompt q, options)])
        else (Some (buildResponseWith validateContent platform context r1 content1),
              [first])
    end.
Proof.
  cbv zeta. unfold generateContentWith, generate. cbn [run bind app].
  destruct (ai [] _ _) as [r1|]; [|reflexivity].
  destruct (needsRegeneration _); cbn [run bind app]; [|reflexivity].
  destruct (ai _ _ _) as [r2|]; reflexivity.
Qed.

Lemma run_generateContent (request : ContentGenerationRequest) (ai : Provider) :
  let platform := req_platform request in
  let context := buildContext request in
  let options := default (req_options request) no_options in
  let prompt := Optimizer.generatePrompt platform context in
  let first := (prompt, firstCallOptions options) in
  run (generateContent request) ai []
  = match ai [] prompt (firstCallOptions options) with
    | None => (None, [first])
    | Some r1 =>
        let content1 := Optimizer.postProcess platform (gr_content r1) context in
        let q := Validator.validateContent content1 in
        if needsRegeneration q
        then
          (option_map
             (fun r2 =>
                buildResponse platform context r1
                  (Optimizer.postProcess platform (gr_content r2) context))
             (ai [first] (improvedPrompt prompt q) options),
           [first; (improvedPrompt prompt q, options)])
        else (Some (buildResponse platform context r1 content1), [first])
    end.
Proof. exact (run_generateContentWith Validator.validateContent request ai). Qed.

(** With any scorer, a response is built from the first answer and the
    post-processed answer to the last call. *)
Lemma run_responseWith (validateContent : Scorer)
    (request : ContentGenerationRequest) (ai : Provider)
    (response : ContentGenerationResponse) :
  fst (run (generateContentWith validateContent request) ai []) = Some response ->
  exists r1 earlier prompt options answer,
    snd (run (generateContentWith validateContent request) ai [])
    = earlier ++ [(prompt, options)]
    /\ ai earlier prompt options = Some answer
    /\ response
       = buildResponseWith validateContent (req_platform request)
           (buildContext request) r1
           (Optimizer.postProcess (req_platform request) (gr_content answer)
              (buildContext request)).
Proof.
  rewrite run_generateContentWith. cbv zeta.
  destruct (ai [] _ _) as [r1|] eqn:E1; [|discriminate].
  destruct (needsRegeneration _).
  - cbn [fst snd]. intros Hrun.
    match type of Hrun with
    | option_map _ ?x = _ => destruct x as [r2|] eqn:E2; [|discriminate Hrun]
    end.
    cbn [option_map] in Hrun. injection Hrun as <-.
    exists r1. eexists [_]. eexists. eexists. exists r2.
    split; [reflexivity | split; [exact E2 | reflexivity]].
  - cbn [fst snd]. intros [= <-].
    exists r1, []. eexists. eexists. exists r1.
    split; [reflexivity | split; [exact E1 | reflexivity]].
Qed.

(** A response is built from the first answer and some post-processed
    text. *)
Lemma run_response (request : ContentGenerationRequest) (ai : Provider)
    (response : ContentGenerationResponse) :
  fst (run (generateContent request) ai []) = Some response ->
  exists r1 text,
    ai [] (Optimizer.generatePrompt (req_platform request) (buildContext request))
          (firstCallOptions (default (req_options request) no_options)) = Some r1
    /\ response = buildResponse (req_platform request) (buildContext request) r1 text.
Proof.
  rewrite run_generateContent. cbv zeta.
  destruct (ai [] _ _) as [r1|]; [|discriminate].
  destruct (needsRegeneration _).
  - cbn [fst]. destruct (ai _ _ _) as [r2|]; [|discriminate].
    cbn [option_map]. intros [= <-]. now exists r1, (Optimizer.postProcess
      (req_platform request) (gr_content r2) (buildContext request)).
  - cbn [fst]. intros [= <-]. now exists r1, (Optimizer.postProcess
      (req_platform request) (gr_content r1) (buildContext request)).
Qed.

(** The calls of a run: the first one, and at most a retry that follows a
    first draft in need of regeneration. *)
Lemma run_calls (request : ContentGenerationRequest) (ai : Provider) :
  let platform := req_platform request in
  let context := buildContext request in
  let options := default (req_options request) no_options in
  let prompt := Optimizer.generatePrompt platform context in
  let calls := snd (run (generateContent request) ai []) in
  calls = [(prompt, firstCallOptions options)]
  \/ exists r1,
       ai [] prompt (firstCallOptions options) = Some r1
       /\ needsRegeneration
            (Validator.validateContent
               (Optimizer.postProcess platform (gr_content r1) context)) = true
       /\ calls
          = [ (prompt, firstCallOptions options);
              (improvedPrompt prompt
                 (Validator.validateContent
                    (Optimizer.postProcess platform (gr_content r1) context)),
               options) ].
Proof.
  cbv zeta. rewrite run_generateContent. cbv zeta.
  destruct (ai [] _ _) as [r1|] eqn:E1; [|now left].
  destruct (needsRegeneration _) eqn:En; [|now left].
  right. exists r1. repeat split. exact En.
Qed.

End Runs.

(** ** Validity under the platform rules *)

Ltac errors_steps :=
  repeat match goal with
    | |- context [acc_errors (when _ (add_score _) _)] => rewrite errors_when_add
    | |- context [acc_errors (when _ (fun a => add_score _ (Strategy.push_warning _ a)) _)] =>
        rewrite errors_when_warning
    | |- context [acc_errors (when _ (fun a => add_score _ (push_error _ a)) _)] =>
        rewrite errors_when_error
    | |- context [acc_errors (when _ (Strategy.push_warning _) _)] =>
        rewrite errors_when_push
    | |- context [acc_errors (if _ then _ else _)] => rewrite errors_if
    | |- context [acc_errors (add_score _ _)] => rewrite errors_add
    | |- context [acc_errors (Strategy.push_warning _ _)] => rewrite errors_push
    | |- context [acc_errors acc0] => change (acc_errors acc0) with (@nil jsstring)
    end.

Section PlatformValidity.
Context {CM : CaseMapping}.

Lemma isValid_finish (a : Acc) :
  Strategy.isValid (finish a) = (List.length (acc_errors a) =? 0)%nat.
Proof. reflexivity. Qed.

Lemma twitter_isValid (content : jsstring) :
  Strategy.isValid (Twitter.validate content)
  = (List.length content <=? Twitter.CHAR_LIMIT)%nat.
Proof.
  assert (E : Strategy.isValid (Twitter.validate content)
              = (List.length (Strategy.errors (Twitter.validate content)) =? 0)%nat)
    by reflexivity.
  rewrite E, twitter_validate_errors. unfold Twitter.CHAR_LIMIT.
  destruct (Nat.ltb_spec 280 (List.length content));
    destruct (Nat.leb_spec (List.length content) 280); try reflexivity; lia.
Qed.

Lemma linkedin_errors (content : jsstring) :
  Strategy.errors (LinkedIn.validate content)
  = (if (LinkedIn.CHAR_LIMIT <? List.length content)%nat
     then [Spec.linkedinOverLimit] else [])
    ++ (if (List.length content <? LinkedIn.MIN_LENGTH)%nat
        then [linkedinTooShort] else []).
Proof.
  unfold LinkedIn.validate, finish. cbn [Strategy.errors].
  errors_steps.
  repeat match goal with
         | |- context [if ?c then _ else _] => destruct c
         end;
    reflexivity.
Qed.

Lemma linkedin_isValid (content : jsstring) :
  Strategy.isValid (LinkedIn.validate content)
  = ((LinkedIn.MIN_LENGTH <=? List.length content)%nat
     && (List.length content <=? LinkedIn.CHAR_LIMIT)%nat)%bool.
Proof.
  assert (E : Strategy.isValid (LinkedIn.validate content)
              = (List.length (Strategy.errors (LinkedIn.validate content)) =? 0)%nat)
    by reflexivity.
  rewrite E, linkedin_errors. unfold LinkedIn.CHAR_LIMIT, LinkedIn.MIN_LENGTH.
  destruct (Nat.ltb_spec 3000 (List.length content));
    destruct (Nat.ltb_spec (List.length content) 150);
    destruct (Nat.leb_spec (List.length content) 3000);
    destruct (Nat.leb_spec 150 (List.length content)); try reflexivity; lia.
Qed.

(** X3: a text passes [TwitterStrategy.validate] exactly when it is no
    longer than the [maxLength] of the strategy's constraints (280).  The
    [minLength] of the constraints (50) is not enforced: a shorter text,
    the empty one included, is valid. *)
Theorem twitter_valid_iff_within_limit (content : jsstring) :
  maxLength Twitter.getConstraints = Twitter.CHAR_LIMIT
  /\ (Strategy.isValid (Twitter.validate content) = true
      <-> (List.length content <= Twitter.CHAR_LIMIT)%nat)
  /\ Strategy.isValid (Twitter.validate []) = true.
Proof.
  split; [reflexivity|]. split.
  - rewrite twitter_isValid. apply Nat.leb_le.
  - rewrite twitter_isValid. reflexivity.
Qed.

(** X4: a text passes [LinkedInStrategy.validate] exactly when its length
    lies between the [minLength] (150) and the [maxLength] (3000) of the
    strategy's constraints, bounds included; the two length errors exclude
    each other, so an invalid text carries exactly one error. *)
Theorem linkedin_valid_iff_length_in_bounds (content : jsstring) :
  minLength LinkedIn.getConstraints = Some LinkedIn.MIN_LENGTH
  /\ maxLength LinkedIn.getConstraints = LinkedIn.CHAR_LIMIT
  /\ (Strategy.isValid (LinkedIn.validate content) = true
      <-> (LinkedIn.MIN_LENGTH <= List.length content <= LinkedIn.CHAR_LIMIT)%nat)
  /\ (Strategy.errors (LinkedIn.validate content) = []
      \/ Strategy.errors (LinkedIn.validate content) = [Spec.linkedinOverLimit]
      \/ Strategy.errors (LinkedIn.validate content) = [linkedinTooShort]).
Proof.
  split; [reflexivity|]. split; [reflexivity|]. split.
  - rewrite linkedin_isValid, andb_true_iff, !Nat.leb_le. reflexivity.
  - rewrite linkedin_errors.
    destruct (LinkedIn.CHAR_LIMIT <? List.length content)%nat eqn:E1;
      destruct (List.length content <? LinkedIn.MIN_LENGTH)%nat eqn:E2; auto.
    apply Nat.ltb_lt in E1, E2.
    unfold LinkedIn.CHAR_LIMIT, LinkedIn.MIN_LENGTH in *. lia.
Qed.

End PlatformValidity.

(** ** The issues raised by the quality check *)

Section QualityIssues.
Context {CM : CaseMapping}.

Lemma validateContent_critical (content : jsstring) :
  Validator.critical (Validator.issues (Validator.validateContent content))
  = if Validator.isGeneric content then [tooGeneric] else [].
Proof.
  unfold Validator.validateContent. cbv zeta. cbn [Validator.issues].
  repeat match goal with
         | |- context [if ?c then _ else _] => destruct c
         end;
    reflexivity.
Qed.

Lemma validateContent_suggestions (content : jsstring) (s : jsstring) :
  In s (Validator.suggestions (Validator.issues (Validator.validateContent content))) ->
  s = addEngagement \/ s = varySentences.
Proof.
  unfold Validator.validateContent. cbv zeta. cbn [Validator.issues].
  repeat match goal with
         | |- context [if ?c then _ else _] => destruct c
         end;
    cbn; intuition auto.
Qed.

Lemma addEngagement_suggested (content : jsstring) :
  Validator.detectEngagementElements content = [] ->
  In addEngagement
     (Validator.suggestions (Validator.issues (Validator.validateContent content))).
Proof.
  intros H. unfold Validator.validateContent. cbv zeta. cbn [Validator.issues].
  rewrite H. cbn [List.length Nat.eqb].
  repeat match goal with
         | |- context [if ?c then _ else _] => destruct c
         end;
    cbn; auto.
Qed.

End QualityIssues.

(** ** The responses of the orchestrator *)

Section Responses.
Context {CM : CaseMapping}.
Import Generator.
Local Open Scope R_scope.

Lemma platform_score_range (platform content : jsstring) :
  0 <= Strategy.score (Optimizer.validate platform content) <= 10.
Proof.
  unfold Optimizer.validate.
  destruct (getStrategy_cases platform) as [-> | ->];
    [unfold Optimizer.twitterStrategy, Twitter.strategy, Twitter.validate
    |unfold Optimizer.linkedinStrategy, LinkedIn.strategy, LinkedIn.validate];
    cbv zeta; cbn [Strategy.validate]; unfold finish; cbn [Strategy.score];
    apply clamp_range; lra.
Qed.

Lemma platform_isValid (platform content : jsstring) :
  Strategy.isValid (Optimizer.validate platform content) = true ->
  (List.length content <= maxLength (Optimizer.getPlatformConstraints platform))%nat
  /\ (toLowerCase platform = js "linkedin" ->
      (LinkedIn.MIN_LENGTH <= List.length content)%nat).
Proof.
  unfold Optimizer.validate, Optimizer.getPlatformConstraints.
  rewrite getStrategy_eq.
  destruct (str_eqb (js "linkedin") (toLowerCase platform)) eqn:E.
  - change (Strategy.validate Optimizer.linkedinStrategy content)
      with (LinkedIn.validate content).
    rewrite linkedin_isValid, andb_true_iff, !Nat.leb_le.
    intros [H1 H2]. split; [exact H2 | intros _; exact H1].
  - change (Strategy.validate Optimizer.twitterStrategy content)
      with (Twitter.validate content).
    rewrite twitter_isValid, Nat.leb_le. intros H. split; [exact H|].
    intros El. rewrite El, str_eqb_refl in E. discriminate E.
Qed.

Lemma optimize_characterCount (platform text : jsstring) (context : ContentContext) :
  Strategy.characterCount (Strategy.metadata (Optimizer.optimize platform text context))
  = List.length (Strategy.content (Optimizer.optimize platform text context)).
Proof.
  unfold Optimizer.optimize.
  destruct (getStrategy_cases platform) as [-> | ->]; reflexivity.
Qed.

(** X5: the platform score returned by the registry lies between 0 and 10
    for every platform identifier, the unknown ones included, and every
    text. *)
Theorem platform_validate_score_in_range (platform content : jsstring) :
  0 <= Strategy.score (Optimizer.validate platform content) <= 10.
Proof. apply platform_score_range. Qed.

(** X6: the figures of a response describe its own content:
    [characterCount] is the length of the content returned;
    the quality score and the validation score lie between 0 and 10; the
    platform is the identifier of the request as it was written; the
    provider is always [openrouter]. *)
Theorem response_describes_its_content
    (request : ContentGenerationRequest) (ai : Provider)
    (response : ContentGenerationResponse) :
  fst (run (generateContent request) ai []) = Some response ->
  characterCount (metadata response) = List.length (content response)
  /\ 0 <= qualityScore (metadata response) <= 10
  /\ 0 <= score (validation response) <= 10
  /\ platform response = req_platform request
  /\ provider (metadata response) = js "openrouter".
Proof.
  intros H. destruct (run_response _ _ _ H) as (r1 & text & _ & ->).
  unfold buildResponse, buildResponseWith.
  cbn [metadata validation content platform characterCount qualityScore score provider].
  split; [apply optimize_characterCount|].
  split.
  { unfold Validator.validateContent. cbn [Validator.score].
    match goal with
    | |- _ <= Validator.overall (Validator.calculateQualityScore ?c ?s ?j ?e ?r ?v) <= _ =>
        destruct (calculateQualityScore_range c s j e r v) as [Ho _];
          [apply calculateReadability_range
          |apply calculateSentenceVariety_nonneg
          |exact Ho]
    end. }
  split; [apply platform_score_range|].
  split; reflexivity.
Qed.

(** X7: a response marked valid respects the length rules of its platform
    and is not generic: its content is no longer than the [maxLength] of
    the platform's constraints, it has at least 150 characters when the
    platform is LinkedIn, and the quality check finds it not generic. *)
Theorem valid_response_within_limits
    (request : ContentGenerationRequest) (ai : Provider)
    (response : ContentGenerationResponse) :
  fst (run (generateContent request) ai []) = Some response ->
  isValid (validation response) = true ->
  (List.length (content response)
   <= maxLength (Optimizer.getPlatformConstraints (platform response)))%nat
  /\ (toLowerCase (platform response) = js "linkedin" ->
      (LinkedIn.MIN_LENGTH <= List.length (content response))%nat)
  /\ Validator.isGeneric (content response) = false.
Proof.
  intros H. destruct (run_response _ _ _ H) as (r1 & text & _ & ->).
  unfold buildResponse, buildResponseWith. cbn [validation isValid content platform].
  rewrite andb_true_iff, validateContent_critical. intros [Hv Hc].
  destruct (platform_isValid _ _ Hv) as [H1 H2].
  split; [exact H1 | split; [exact H2 |]].
  destruct (Validator.isGeneric _); [discriminate Hc | reflexivity].
Qed.

(** X8: where the suggestions of a response come from, whatever scorer
    the service was constructed with.  They are the warnings that the
    platform validation gives for the content returned, followed by the
    suggestions that the scorer makes for that content; the warnings of
    the response begin with the same platform warnings.  The
    ContentValidatorService makes two suggestions only. *)
Theorem response_suggestions_sources (validateContent : Scorer)
    (request : ContentGenerationRequest) (ai : Provider)
    (response : ContentGenerationResponse) :
  fst (run (generateContentWith validateContent request) ai []) = Some response ->
  let platformWarnings :=
    Strategy.warnings (Optimizer.validate (req_platform request) (content response)) in
  let quality := Validator.issues (validateContent (content response)) in
  suggestions (validation response) = platformWarnings ++ Validator.suggestions quality
  /\ warnings (validation response) = platformWarnings ++ Validator.warnings quality
  /\ forall s,
       In s (Validator.suggestions
               (Validator.issues (Validator.validateContent (content response)))) ->
       s = addEngagement \/ s = varySentences.
Proof.
  intros H.
  destruct (run_responseWith _ _ _ _ H) as (r1 & _ & _ & _ & answer & _ & _ & ->).
  cbv zeta. unfold buildResponseWith.
  cbn [validation suggestions warnings content].
  split; [reflexivity | split; [reflexivity|]].
  intros s. apply validateContent_suggestions.
Qed.

(** X9: the feedback of a retry.  Only a generic first draft is retried,
    so the second prompt is always the first prompt followed by the same
    sentence, and the options of the retry are the request's own options,
    without the defaults of the first call. *)
Theorem retry_prompt_is_fixed_feedback
    (request : ContentGenerationRequest) (ai : Provider) (retry : Call) :
  nth_error (snd (run (generateContent request) ai [])) 1 = Some retry ->
  fst retry
  = Optimizer.generatePrompt (req_platform request) (buildContext request)
    ++ nl ++ nl
    ++ js "IMPORTANT: Previous attempt failed with these issues: "
    ++ tooGeneric ++ js ". Please address these issues."
  /\ snd retry = default (req_options request) no_options.
Proof.
  destruct (run_calls request ai) as [E | (r1 & _ & Hn & E)];
    cbv zeta in E; rewrite E; [discriminate|].
  cbn [nth_error]. intros [= <-]. cbn [fst snd]. split; [|reflexivity].
  unfold improvedPrompt. rewrite validateContent_critical.
  apply needsRegeneration_iff in Hn as [_ Hc].
  rewrite validateContent_critical in Hc.
  destruct (Validator.isGeneric _); [reflexivity | now elim Hc].
Qed.

End Responses.

(** ** What the provider posts and what comes back *)

Section Provider.
Context {CM : CaseMapping}.
Import Generator.
Local Open Scope R_scope.

Lemma aiProvider_answer (st : OpenRouter.State) (http : OpenRouter.Http)
    (calls : list Call) (prompt : jsstring) (options : GenerationOptions)
    (r : GenerationResult) :
  OpenRouter.aiProvider st http calls prompt options = Some r ->
  exists data,
    http (List.length calls) (OpenRouter.requestBody st prompt options)
    = OpenRouter.HttpResponse data
    /\ gr_model r = OpenRouter.resp_model data
    /\ tok_total (gr_tokensUsed r) = OpenRouter.total_tokens (OpenRouter.usage data)
    /\ gr_cost r
       = Some (OpenRouter.estimateCost st
                 (INR (OpenRouter.prompt_tokens (OpenRouter.usage data)))
                 (INR (OpenRouter.completion_tokens (OpenRouter.usage data)))).
Proof.
  unfold OpenRouter.aiProvider, OpenRouter.generateContent.
  destruct (http _ _) as [data | status apiMessage message | message];
    [|discriminate | discriminate].
  intros [= <-]. exists data. repeat split.
Qed.

Lemma estimateCost_free (st : OpenRouter.State) (p c : R) :
  OpenRouter.isCurrentModelFree st = true -> OpenRouter.estimateCost st p c = 0.
Proof.
  unfold OpenRouter.isCurrentModelFree, OpenRouter.estimateCost,
    OpenRouter.getModelInfo.
  intros ->. cbn [OpenRouter.mi_pricing OpenRouter.price_prompt
                  OpenRouter.price_completion]. lra.
Qed.

(** X10: the generation parameters that reach the API.  The first request
    carries the [maxTokens] of the request's options when they define it,
    500 when they have no such key, and 1000 (the provider's default) when
    the key is present with the value [undefined], since the spread of the
    options overwrites the 500.  A retry carries the request's own value,
    else 1000.  The temperature is the request's value, else 0.7, in every
    request, and the model is the provider's current model. *)
Theorem posted_generation_parameters
    (request : ContentGenerationRequest) (st : OpenRouter.State)
    (http : OpenRouter.Http) :
  let options := default (req_options request) no_options in
  let posted :=
    bodies st (snd (run (generateContent request) (OpenRouter.aiProvider st http) [])) in
  let first_max :=
    match maxTokens options with
    | Defined m => m
    | Undefined => 1000
    | Absent => 500
    end in
  (map OpenRouter.rb_max_tokens posted = [first_max]
   \/ map OpenRouter.rb_max_tokens posted
      = [first_max; nullish (maxTokens options) 1000])
  /\ Forall (fun b => OpenRouter.rb_temperature b = nullish (temperature options) 0.7
                      /\ OpenRouter.rb_model b = OpenRouter.currentModel st)
            posted.
Proof.
  cbv zeta.
  destruct (run_calls request (OpenRouter.aiProvider st http))
    as [E | (r1 & _ & _ & E)]; cbv zeta in E; rewrite E;
    unfold bodies, OpenRouter.requestBody, firstCallOptions;
    cbn [map fst snd OpenRouter.rb_max_tokens OpenRouter.rb_temperature
         OpenRouter.rb_model temperature maxTokens];
    (split; [destruct (maxTokens _); cbn [spread nullish]; auto
            |destruct (temperature _); cbn [spread nullish];
             repeat constructor]).
Qed.

(** X11: a request that comes through the [generate] endpoint always
    passes both keys [temperature] and [maxTokens], so the service's
    default of 500 tokens never applies to it: every request posted for
    it, the retry included, carries the [maxTokens] of the DTO, else 1000,
    and its temperature, else 0.7; the other sampling parameters are the
    provider's defaults and no stop sequence is sent. *)
Theorem endpoint_posted_parameters
    (dto : Controller.GenerateContentDto) (st : OpenRouter.State)
    (http : OpenRouter.Http) :
  let posted :=
    bodies st (snd (run (Controller.generateContent dto)
                        (OpenRouter.aiProvider st http) [])) in
  posted <> []
  /\ Forall (fun b =>
               OpenRouter.rb_max_tokens b = default (Controller.dto_maxTokens dto) 1000
               /\ OpenRouter.rb_temperature b
                  = default (Controller.dto_temperature dto) 0.7
               /\ OpenRouter.rb_top_p b = 1
               /\ OpenRouter.rb_frequency_penalty b = 0
               /\ OpenRouter.rb_presence_penalty b = 0
               /\ OpenRouter.rb_stop b = None)
            posted.
Proof.
  cbv zeta. unfold Controller.generateContent.
  destruct (run_calls (Controller.requestOf dto) (OpenRouter.aiProvider st http))
    as [E | (r1 & _ & _ & E)]; cbv zeta in E; rewrite E;
    unfold bodies, OpenRouter.requestBody, firstCallOptions, Controller.requestOf;
    cbn [map fst snd req_options default temperature maxTokens topP
         frequencyPenalty presencePenalty stopSequences];
    (split; [discriminate|]);
    destruct (Controller.dto_maxTokens dto), (Controller.dto_temperature dto);
    cbn [Controller.written spread nullish default];
    repeat constructor.
Qed.

(** X12: the metadata of a response are those of the first answer of the
    API, also when the content comes from a retry: the model and the token
    total are the first answer's, and the cost is the estimate for the
    tokens of the first answer alone. *)
Theorem response_metadata_from_first_answer
    (request : ContentGenerationRequest) (st : OpenRouter.State)
    (http : OpenRouter.Http) (response : ContentGenerationResponse) :
  fst (run (generateContent request) (OpenRouter.aiProvider st http) [])
  = Some response ->
  exists data,
    http 0%nat
      (OpenRouter.requestBody st
         (Optimizer.generatePrompt (req_platform request) (buildContext request))
         (firstCallOptions (default (req_options request) no_options)))
    = OpenRouter.HttpResponse data
    /\ model (metadata response) = OpenRouter.resp_model data
    /\ tokensUsed (metadata response)
       = OpenRouter.total_tokens (OpenRouter.usage data)
    /\ cost (metadata response)
       = OpenRouter.estimateCost st
           (INR (OpenRouter.prompt_tokens (OpenRouter.usage data)))
           (INR (OpenRouter.completion_tokens (OpenRouter.usage data))).
Proof.
  intros H. destruct (run_response _ _ _ H) as (r1 & text & Ha & ->).
  destruct (aiProvider_answer _ _ _ _ _ _ Ha) as (data & Hd & Hm & Ht & Hc).
  exists data. unfold buildResponse, buildResponseWith. cbn [metadata model tokensUsed cost].
  rewrite Hc. auto.
Qed.

(** X13: with a free model every response reports a cost of zero,
    whatever the token counts of the answers. *)
Theorem free_model_costs_nothing
    (request : ContentGenerationRequest) (st : OpenRouter.State)
    (http : OpenRouter.Http) (response : ContentGenerationResponse) :
  OpenRouter.isCurrentModelFree st = true ->
  fst (run (generateContent request) (OpenRouter.aiProvider st http) [])
  = Some response ->
  cost (metadata response) = 0.
Proof.
  intros Hf H. destruct (run_response _ _ _ H) as (r1 & text & Ha & ->).
  destruct (aiProvider_answer _ _ _ _ _ _ Ha) as (data & _ & _ & _ & Hc).
  unfold buildResponse, buildResponseWith. cbn [metadata cost].
  rewrite Hc. now apply estimateCost_free.
Qed.

End Provider.

(** ** A run against a stubbed transport *)

Section Scenario.
Import Generator.
Local Open Scope R_scope.

Lemma stub_run :
  exists response,
    fst (run (generateContent (CM := ascii_case) Spec.tweetRequest)
             (OpenRouter.aiProvider defaultProvider stubHttp) []) = Some response
    /\ content response
       = js "Ship 3 small fixes a day, because momentum beats plans."
    /\ isValid (validation response) = true
    /\ hashtags response = [].
Proof.
  rewrite run_generateContent. cbv zeta.
  unfold OpenRouter.aiProvider, OpenRouter.generateContent, stubHttp.
  cbv beta iota. cbn [gr_content].
  set (text := js "Ship 3 small fixes a day, because momentum beats plans.").
  change (match OpenRouter.choices stubData with
          | [] => []
          | c :: _ => OpenRouter.choice_content c
          end) with text.
  change (req_platform Spec.tweetRequest) with (js "twitter").
  set (context := buildContext Spec.tweetRequest).
  assert (Hp : Optimizer.postProcess (CM := ascii_case) (js "twitter") text context
               = text) by (vm_compute; reflexivity).
  assert (Hg : Validator.isGeneric (CM := ascii_case) text = false)
    by (vm_compute; reflexivity).
  assert (Hn : needsRegeneration (Validator.validateContent (CM := ascii_case) text)
               = false).
  { unfold needsRegeneration. rewrite validateContent_critical, Hg.
    apply andb_false_r. }
  rewrite Hp, Hn. cbn [fst]. eexists. split; [reflexivity|].
  unfold buildResponse, buildResponseWith. cbn [content validation isValid hashtags].
  assert (Ho : Strategy.content
                 (Optimizer.optimize (CM := ascii_case) (js "twitter") text context)
               = text) by (vm_compute; reflexivity).
  assert (Hh : Strategy.hashtags
                 (Optimizer.optimize (CM := ascii_case) (js "twitter") text context)
               = []) by (vm_compute; reflexivity).
  rewrite Ho, Hh, validateContent_critical, Hg. split; [reflexivity|].
  split; [|reflexivity].
  unfold Optimizer.validate. rewrite getStrategy_eq.
  replace (str_eqb (js "linkedin") (toLowerCase (CaseMapping := ascii_case) (js "twitter")))
    with false by (vm_compute; reflexivity).
  change (Strategy.validate Optimizer.twitterStrategy text)
    with (Twitter.validate (CM := ascii_case) text).
  rewrite twitter_isValid. reflexivity.
Qed.

Lemma filler_run :
  exists first retry,
    snd (run (generateContent (CM := ascii_case) Spec.tweetRequest)
             Spec.fillerProvider []) = [first; retry].
Proof.
  rewrite run_generateContent. cbv zeta.
  unfold Spec.fillerProvider. cbv beta iota.
  match goal with
  | |- context [needsRegeneration ?q] =>
      replace (needsRegeneration q) with true
        by (symmetry; exact filler_needs_regeneration)
  end.
  cbn [snd]. eexists. eexists. reflexivity.
Qed.

(** The stubbed run has a response, and [response_describes_its_content]
    applies to it. *)
Lemma response_describes_its_content_on_stub :
  exists response,
    fst (run (generateContent (CM := ascii_case) Spec.tweetRequest)
             (OpenRouter.aiProvider defaultProvider stubHttp) []) = Some response
    /\ characterCount (metadata response) = List.length (content response)
    /\ 0 <= qualityScore (metadata response) <= 10
    /\ 0 <= score (validation response) <= 10
    /\ platform response = js "twitter"
    /\ provider (metadata response) = js "openrouter".
Proof.
  destruct stub_run as (response & Hrun & _ & _ & _).
  exists response. split; [exact Hrun|].
  exact (response_describes_its_content (CM := ascii_case) _ _ _ Hrun).
Defined.

(** The stubbed run gives a valid response, within the limits. *)
Lemma valid_response_within_limits_on_stub :
  exists response,
    fst (run (generateContent (CM := ascii_case) Spec.tweetRequest)
             (OpenRouter.aiProvider defaultProvider stubHttp) []) = Some response
    /\ isValid (validation response) = true
    /\ (List.length (content response)
        <= maxLength (Optimizer.getPlatformConstraints (CM := ascii_case)
                        (platform response)))%nat
    /\ Validator.isGeneric (CM := ascii_case) (content response) = false.
Proof.
  destruct stub_run as (response & Hrun & _ & Hv & _).
  exists response. split; [exact Hrun | split; [exact Hv|]].
  destruct (valid_response_within_limits (CM := ascii_case) _ _ _ Hrun Hv)
    as (H1 & _ & H3).
  split; [exact H1 | exact H3].
Defined.

(** The run against the filler stub ends with a response for the filler
    text. *)
Lemma filler_response :
  exists response,
    fst (run (generateContent (CM := ascii_case) Spec.tweetRequest)
             Spec.fillerProvider []) = Some response
    /\ content response = Spec.fillerText.
Proof.
  rewrite run_generateContent. cbv zeta.
  unfold Spec.fillerProvider. cbv beta iota.
  match goal with
  | |- context [needsRegeneration ?q] =>
      replace (needsRegeneration q) with true
        by (symmetry; exact filler_needs_regeneration)
  end.
  cbn [fst option_map]. eexists. split; [reflexivity|].
  unfold buildResponse, buildResponseWith. cbn [content gr_content].
  lazy. reflexivity.
Qed.

(** On the response of the filler run both sources are present: the
    warning of the Twitter validation about slop, and the suggestion of
    the quality check to add engagement elements. *)
Lemma response_suggestions_sources_on_filler :
  exists response,
    fst (run (generateContent (CM := ascii_case) Spec.tweetRequest)
             Spec.fillerProvider []) = Some response
    /\ suggestions (validation response)
       = Strategy.warnings (Twitter.validate (CM := ascii_case) Spec.fillerText)
         ++ Validator.suggestions
              (Validator.issues
                 (Validator.validateContent (CM := ascii_case) Spec.fillerText))
    /\ In fillerSlopWarning (suggestions (validation response))
    /\ In addEngagement (suggestions (validation response)).
Proof.
  destruct filler_response as (response & Hrun & Hc).
  exists response. split; [exact Hrun|].
  destruct (response_suggestions_sources (CM := ascii_case)
              (Validator.validateContent (CM := ascii_case)) _ _ _ Hrun)
    as (Hs & _ & _).
  rewrite Hc in Hs.
  change (Optimizer.validate (CM := ascii_case) (req_platform Spec.tweetRequest)
            Spec.fillerText)
    with (Twitter.validate (CM := ascii_case) Spec.fillerText) in Hs.
  split; [exact Hs|]. rewrite Hs. split; apply in_or_app.
  - left. lazy. left. reflexivity.
  - right. apply addEngagement_suggested. vm_compute. reflexivity.
Defined.

(** The retry of the filler scenario carries the fixed feedback. *)
Lemma retry_prompt_is_fixed_feedback_on_filler :
  exists retry,
    nth_error (snd (run (generateContent (CM := ascii_case) Spec.tweetRequest)
                        Spec.fillerProvider [])) 1 = Some retry
    /\ fst retry
       = Optimizer.generatePrompt (CM := ascii_case) (js "twitter")
           (buildContext Spec.tweetRequest)
         ++ nl ++ nl
         ++ js "IMPORTANT: Previous attempt failed with these issues: "
         ++ tooGeneric ++ js ". Please address these issues."
    /\ snd retry = no_options.
Proof.
  destruct filler_run as (first & retry & E).
  assert (H : nth_error (snd (run (generateContent (CM := ascii_case) Spec.tweetRequest)
                                  Spec.fillerProvider [])) 1 = Some retry)
    by (rewrite E; reflexivity).
  exists retry. split; [exact H|].
  exact (retry_prompt_is_fixed_feedback (CM := ascii_case) _ _ _ H).
Defined.

Lemma response_metadata_from_first_answer_on_stub :
  exists response,
    fst (run (generateContent (CM := ascii_case) Spec.tweetRequest)
             (OpenRouter.aiProvider defaultProvider stubHttp) []) = Some response
    /\ exists data,
         stubHttp 0%nat
           (OpenRouter.requestBody defaultProvider
              (Optimizer.generatePrompt (CM := ascii_case)
                 (req_platform Spec.tweetRequest) (buildContext Spec.tweetRequest))
              (firstCallOptions (default (req_options Spec.tweetRequest) no_options)))
         = OpenRouter.HttpResponse data
         /\ model (metadata response) = OpenRouter.resp_model data
         /\ tokensUsed (metadata response)
            = OpenRouter.total_tokens (OpenRouter.usage data)
         /\ cost (metadata response)
            = OpenRouter.estimateCost defaultProvider
                (INR (OpenRouter.prompt_tokens (OpenRouter.usage data)))
                (INR (OpenRouter.completion_tokens (OpenRouter.usage data))).
Proof.
  destruct stub_run as (response & Hrun & _ & _ & _).
  exists response. split; [exact Hrun|].
  exact (response_metadata_from_first_answer (CM := ascii_case) _ _ _ _ Hrun).
Defined.

(** The model configured by default is free, so the stubbed run costs
    nothing. *)
Lemma free_model_costs_nothing_on_stub :
  OpenRouter.isCurrentModelFree defaultProvider = true
  /\ exists response,
       fst (run (generateContent (CM := ascii_case) Spec.tweetRequest)
                (OpenRouter.aiProvider defaultProvider stubHttp) []) = Some response
       /\ cost (metadata response) = 0.
Proof.
  assert (Hf : OpenRouter.isCurrentModelFree defaultProvider = true) by reflexivity.
  split; [exact Hf|].
  destruct stub_run as (response & Hrun & _ & _ & _).
  exists response. split; [exact Hrun|].
  exact (free_model_costs_nothing (CM := ascii_case) _ _ _ _ Hf Hrun).
Defined.

End Scenario.

(** ** Post-processing: what else the results guarantee *)

(** X14: the result of [TwitterStrategy.postProcess] has no whitespace at
    either end (trimming it again changes nothing), never three
    exclamation marks in a row and never two question marks in a row. *)
Theorem twitter_postProcess_tidy (content : jsstring) :
  let y := Twitter.postProcess content in
  trim y = y
  /\ runs_lt (N.eqb 33) 3 0 y = true
  /\ runs_lt (N.eqb 63) 2 0 y = true.
Proof.
  destruct (twitter_postProcess_shape content) as (_ & _ & T & B & Q).
  cbv zeta. repeat split; [now apply trim_id | exact B | exact Q].
Qed.

(** X15: the result of [LinkedInStrategy.postProcess] has no whitespace
    at either end, never three line feeds in a row, no whitespace
    directly before one of [. , ! ?], and none of these four directly
    followed by a letter. *)
Theorem linkedin_postProcess_tidy (content : jsstring) (context : ContentContext) :
  let y := LinkedIn.postProcess content context in
  trim y = y
  /\ runs_lt (N.eqb 10) 3 0 y = true
  /\ noPair is_space is_punct false y = true
  /\ noPair is_punct is_alpha false y = true.
Proof.
  destruct (linkedin_postProcess_shape content context) as (T & N & S & L).
  cbv zeta. repeat split; [now apply trim_id | exact N | exact S | exact L].
Qed.

(** ** The registry and the names of its strategies *)

Section RegistryNames.
Context {CM : CaseMapping}.

(** X16: the platforms listed by the registry are [twitter] and
    [linkedin], in this order; looking a listed name up gives the
    strategy that bears this name; and whatever identifier is looked up,
    the strategy obtained bears a listed name. *)
Theorem registry_names_round_trip :
  Optimizer.getAvailablePlatforms = [js "twitter"; js "linkedin"]
  /\ (forall p, In p Optimizer.getAvailablePlatforms ->
                getPlatformName (Optimizer.getStrategy p) = p)
  /\ (forall platform,
        In (getPlatformName (Optimizer.getStrategy platform))
           Optimizer.getAvailablePlatforms).
Proof.
  split; [reflexivity|]. split.
  - intros p [<- | [<- | []]]; rewrite getStrategy_eq;
      rewrite toLowerCase_ascii by reflexivity; reflexivity.
  - intros platform.
    destruct (getStrategy_cases platform) as [-> | ->];
      [left | right; left]; reflexivity.
Qed.

End RegistryNames.

(** ** The quality check *)

Section Quality.
Context {CM : CaseMapping}.
Local Open Scope R_scope.

Lemma round1_ge (x : R) (n : Z) :
  IZR n <= x * 10 -> IZR n / 10 <= Validator.round1 x.
Proof.
  intros H. unfold Validator.round1, Math_round.
  destruct (base_Int_part (x * 10 + / 2)) as [_ Hgt].
  assert (Hlt : IZR (n - 1) < IZR (Int_part (x * 10 + / 2)))
    by (rewrite minus_IZR; lra).
  apply lt_IZR in Hlt.
  assert (Hle : IZR n <= IZR (Int_part (x * 10 + / 2))) by (apply IZR_le; lia).
  lra.
Qed.

(** X17: the platform fit of the quality score is never below 5 and the
    overall score never below 1, whatever the text; the readability
    metric lies between 0 and 100 and the sentence variety is not
    negative. *)
Theorem quality_score_floors (content : jsstring) :
  let r := Validator.validateContent content in
  5 <= Validator.platform (Validator.score r) <= 10
  /\ 1 <= Validator.overall (Validator.score r) <= 10
  /\ 0 <= Validator.readabilityScore (Validator.metrics r) <= 100
  /\ 0 <= Validator.sentenceVariety (Validator.metrics r).
Proof.
  cbv zeta. unfold Validator.validateContent.
  cbn [Validator.score Validator.metrics Validator.readabilityScore
       Validator.sentenceVariety].
  pose proof (calculateReadability_range content) as Hr.
  pose proof (calculateSentenceVariety_nonneg content) as Hv.
  match goal with
  | |- context [Validator.calculateQualityScore ?c ?s ?j ?e ?r ?v] =>
      destruct (calculateQualityScore_range c s j e r v Hr Hv)
        as (Ho & _ & _ & _ & Hp);
      set (q := Validator.calculateQualityScore c s j e r v) in *
  end.
  assert (F : 5 <= Validator.platform q /\ 1 <= Validator.overall q).
  { subst q. unfold Validator.calculateQualityScore.
    cbn [Validator.platform Validator.overall].
    set (a := Math_max 0 (Math_min 10 _)).
    set (g := if Validator.isGeneric content then _ else _).
    set (c := Math_min 10 (_ / 10)).
    set (p := Math_min 10 (_ * 10 + 5)).
    assert (Ha : 0 <= a) by (apply clamp_range; lra).
    assert (Hg : 0 <= g).
    { unfold g, Math_max, Math_min, Rmax, Rmin.
      match goal with
      | |- context [INR ?e * 3] => pose proof (pos_INR e)
      end.
      destruct (Validator.isGeneric content);
        destruct (Rle_dec 10 _); try destruct (Rle_dec 0 _); lra. }
    assert (Hc : 0 <= c)
      by (unfold c, Math_min, Rmin; destruct (Rle_dec 10 _); lra).
    assert (Hp5 : 5 <= p)
      by (unfold p, Math_min, Rmin; destruct (Rle_dec 10 _); lra).
    split.
    - replace 5 with (IZR 50 / 10) by lra. apply round1_ge. lra.
    - replace 1 with (IZR 10 / 10) by lra. apply round1_ge. lra. }
  destruct F as [F1 F2]. repeat split; try lra; tauto.
Qed.

Lemma filter_head {A} (f : A -> bool) (a : A) (l : list A) :
  f a = true -> filter f (a :: l) = a :: filter f l.
Proof. intros H. cbn [filter]. now rewrite H. Qed.

Lemma startsWith_prefix (s a b : jsstring) :
  startsWith s (a ++ b) = true -> startsWith s a = true.
Proof.
  revert s. induction a as [|x a IH]; intros s H; [now destruct s|].
  destruct s as [|y s]; [discriminate H|].
  cbn [app startsWith] in *. apply andb_true_iff in H as [H1 H2].
  rewrite H1. now apply IH.
Qed.

Lemma includes_prefix (s a b : jsstring) :
  includes s (a ++ b) = true -> includes s a = true.
Proof.
  induction s as [|y s IH]; cbn [includes]; intros H.
  - apply orb_true_iff in H as [H | H]; [|discriminate H].
    now rewrite (startsWith_prefix _ _ _ H).
  - apply orb_true_iff in H as [H | H].
    + now rewrite (startsWith_prefix _ _ _ H).
    + rewrite (IH H). apply orb_true_r.
Qed.

Lemma AI_SLOP_PHRASES_head :
  Validator.AI_SLOP_PHRASES
  = js "delve" :: js "delve into" :: skipn 2 Validator.AI_SLOP_PHRASES.
Proof. reflexivity. Qed.

Lemma lower_delve : toLowerCase (js "delve") = js "delve".
Proof. now rewrite toLowerCase_ascii by reflexivity. Qed.

Lemma lower_delve_into : toLowerCase (js "delve into") = js "delve into".
Proof. now rewrite toLowerCase_ascii by reflexivity. Qed.

Lemma filter_two_heads (f : jsstring -> bool) (a b : jsstring) (l : list jsstring) :
  f a = true -> f b = true -> (2 <= List.length (filter f (a :: b :: l)))%nat.
Proof.
  intros Ha Hb. rewrite (filter_head f a), (filter_head f b) by assumption.
  cbn [List.length]. lia.
Qed.

Lemma delve_into_counts_twice (content : jsstring) :
  includes (toLowerCase content) (js "delve into") = true ->
  (2 <= List.length (Validator.detectAISlop content))%nat.
Proof.
  intros H.
  assert (H' : includes (toLowerCase content) (js "delve") = true)
    by (apply (includes_prefix _ (js "delve") (js " into")); exact H).
  unfold Validator.detectAISlop. rewrite AI_SLOP_PHRASES_head.
  apply filter_two_heads.
  - rewrite lower_delve. exact H'.
  - rewrite lower_delve_into. exact H.
Qed.

Lemma authenticity_bound (content : jsstring) (s j e : nat) (r v : R) :
  (2 <= s)%nat ->
  Validator.authenticity (Validator.calculateQualityScore content s j e r v) <= 6.
Proof.
  intros L. unfold Validator.calculateQualityScore. cbn [Validator.authenticity].
  apply le_INR in L. change (INR 2) with 2 in L.
  pose proof (pos_INR j).
  replace 6 with (IZR 60 / 10) by lra.
  apply round1_le;
    unfold Math_max, Math_min, Rmax, Rmin;
    destruct (Rle_dec 10 _); destruct (Rle_dec 0 _); lra.
Qed.

(** X18: overlapping slop phrases are counted once each.  A text whose
    lower-cased form contains [delve into] also contains [delve], and
    both are on the list, so the slop count is at least 2 and the
    authenticity score at most 6. *)
Theorem overlapping_slop_counted_twice (content : jsstring) :
  includes (toLowerCase content) (js "delve into") = true ->
  (2 <= Validator.aiSlopCount (Validator.metrics (Validator.validateContent content)))%nat
  /\ Validator.authenticity (Validator.score (Validator.validateContent content)) <= 6.
Proof.
  intros H. pose proof (delve_into_counts_twice content H) as L.
  split; [exact L|].
  unfold Validator.validateContent. cbn [Validator.score].
  apply authenticity_bound. exact L.
Qed.

(** X19: the only critical issue is the one raised for generic content;
    slop, jargon and poor readability never raise one.  Hence generic
    content is of acceptable quality for no threshold, whatever it
    scores. *)
Theorem only_generic_content_is_critical (content : jsstring) :
  Validator.critical (Validator.issues (Validator.validateContent content))
  = (if Validator.isGeneric content then [tooGeneric] else [])
  /\ (Validator.isGeneric content = true ->
      forall minScore, Validator.isAcceptableQuality content minScore = false).
Proof.
  split; [apply validateContent_critical|].
  intros Hg minScore. unfold Validator.isAcceptableQuality. cbv zeta.
  rewrite validateContent_critical, Hg. cbn [List.length Nat.eqb].
  apply andb_false_r.
Qed.

End Quality.

(** The filler text is generic: one critical issue, and no threshold
    accepts it, not even 0. *)
Lemma only_generic_content_is_critical_on_filler :
  Validator.critical
    (Validator.issues (Validator.validateContent (CM := ascii_case) Spec.fillerText))
  = [tooGeneric]
  /\ Validator.isAcceptableQuality (CM := ascii_case) Spec.fillerText 0 = false.
Proof.
  destruct (only_generic_content_is_critical (CM := ascii_case) Spec.fillerText)
    as [Hc Ha].
  assert (Hg : Validator.isGeneric (CM := ascii_case) Spec.fillerText = true)
    by (vm_compute; reflexivity).
  rewrite Hg in Hc. split; [exact Hc | exact (Ha Hg 0%R)].
Defined.


Section QualityExamples.
Local Open Scope R_scope.

Lemma overlapping_slop_counted_twice_example :
  (2 <= Validator.aiSlopCount
          (Validator.metrics
             (Validator.validateContent (CM := ascii_case)
                (js "Let us DELVE INTO the numbers"))))%nat
  /\ Validator.authenticity
       (Validator.score
          (Validator.validateContent (CM := ascii_case)
             (js "Let us DELVE INTO the numbers"))) <= 6.
Proof.
  apply (overlapping_slop_counted_twice (CM := ascii_case)). reflexivity.
Defined.

End QualityExamples.

(** ** Hashtags *)

Lemma matchAll_go_Forall (Q : jsstring -> Prop) (r : regex) :
  (forall pre s n cs, rexec r pre s = Some (n, cs) -> Q (firstn n s)) ->
  forall s skip pre, Forall Q (matchAll_go r skip pre s).
Proof.
  intros H. induction s as [|c s IH]; intros skip pre; cbn [matchAll_go].
  - destruct skip; [|constructor].
    destruct (rexec r pre []) as [[n cs]|] eqn:E; constructor; [|constructor].
    specialize (H _ _ _ _ E). now rewrite firstn_nil in H.
  - destruct skip as [|k]; [|apply IH].
    destruct (rexec r pre (c :: s)) as [[[|n] cs]|] eqn:E; [| |apply IH].
    + constructor; [exact (H _ _ _ _ E) | apply IH].
    + constructor; [exact (H _ _ _ _ E) | apply IH].
Qed.

Lemma rexec_hashtag (pre s : jsstring) :
  rexec re_hashtag pre s
  = match s with
    | c :: s' =>
        if N.eqb 35 c && (1 <=? span_len is_word s')%nat
        then Some (S (span_len is_word s'), []) else None
    | [] => None
    end.
Proof.
  change re_hashtag with (Seq (Chr (N.eqb 35)) (at_least 1 (Chr is_word))).
  unfold rexec. cbn [rmatch]. destruct s as [|c s]; [reflexivity|].
  destruct (N.eqb 35 c); [|reflexivity]. cbn [andb].
  rewrite (rmatch_at_least is_word
             (fun rest' cs' => ((List.length (c :: s) - List.length rest')%nat, cs'))).
  destruct (1 <=? _)%nat; [|reflexivity].
  rewrite length_skipn. pose proof (span_len_le is_word s).
  do 2 f_equal. cbn [List.length]. lia.
Qed.

Lemma found_hashtags_start (s : jsstring) :
  Forall startsWithHash (matchAll re_hashtag s).
Proof.
  apply matchAll_go_Forall. intros pre t n cs. rewrite rexec_hashtag.
  destruct t as [|c t]; [discriminate|].
  destruct (N.eqb 35 c) eqn:Ec; [|discriminate]. cbn [andb].
  destruct (1 <=? _)%nat; [|discriminate]. intros [= <- _].
  apply N.eqb_eq in Ec. subst c. cbn [firstn]. now eexists.
Qed.

Lemma strip_hash (h : jsstring) : replaceStr (js "#") (js "") (js "#" ++ h) = h.
Proof.
  unfold replaceStr, replace. change (lit (js "#")) with (Chr (N.eqb 35)).
  change (js "#" ++ h) with (35%N :: h). cbn [replace_from].
  rewrite rexec_chr. reflexivity.
Qed.

Lemma strip_hashes (tags : list jsstring) :
  Forall startsWithHash tags ->
  map (fun h => js "#" ++ h) (map (replaceStr (js "#") (js "")) tags) = tags.
Proof.
  induction 1 as [|t tags [h ->] _ IH]; [reflexivity|].
  cbn [map]. now rewrite strip_hash, IH.
Qed.

Lemma Forall_slice0 {A} (Q : A -> Prop) (n : nat) (l : list A) :
  Forall Q l -> Forall Q (slice0 n l).
Proof.
  unfold slice0. revert l. induction n as [|n IH]; intros l H; [constructor|].
  destruct H as [|x l Hx Hl]; [constructor|].
  cbn [firstn]. constructor; [exact Hx | apply IH, Hl].
Qed.

(** The shape shared by the two [optimize]: which tags are kept, and
    where they go. *)
Lemma appended_tags (f : jsstring -> jsstring) (body0 body1 : jsstring)
    (found generated : list jsstring) (limit : nat) (want : bool) :
  (0 < limit)%nat ->
  Forall startsWithHash found -> Forall startsWithHash generated ->
  let tags0 := if (0 <? List.length found)%nat then [] ++ slice0 limit found else [] in
  let tags :=
    if want && (List.length tags0 =? 0)%nat
    then tags0 ++ slice0 limit generated else tags0 in
  let body := f (if (0 <? List.length found)%nat then body1 else body0) in
  let text :=
    if (0 <? List.length tags)%nat
    then body ++ nl ++ nl ++ join (js " ") tags else body in
  let hs := map (replaceStr (js "#") (js "")) tags in
  (hs = [] -> text = f body0)
  /\ (hs <> [] ->
      exists b, text = b ++ nl ++ nl ++ join (js " ") (map (fun h => js "#" ++ h) hs)).
Proof.
  intros Hl Hf Hg tags0 tags body text hs.
  assert (Ht : Forall startsWithHash tags).
  { subst tags tags0. destruct (0 <? _)%nat; destruct (want && _)%bool;
      cbn [app]; try apply Forall_app; repeat split;
      auto using Forall_slice0, Forall_nil. }
  assert (Hn : found <> [] -> tags <> []).
  { intros Hne. subst tags tags0. destruct found as [|x xs]; [now elim Hne|].
    destruct limit as [|k]; [lia|]. cbn. destruct (want && false)%bool; discriminate. }
  split.
  - intros E. assert (Et : tags = []) by (subst hs; now destruct tags).
    subst text body. rewrite Et. cbn [List.length Nat.ltb Nat.leb].
    destruct found as [|x xs]; [reflexivity|].
    elim Hn; [discriminate | exact Et].
  - intros E. assert (Et : tags <> []) by (subst hs; now destruct tags).
    subst text hs. rewrite (strip_hashes _ Ht).
    destruct tags as [|t ts]; [now elim Et|].
    cbn [List.length Nat.ltb Nat.leb]. now exists body.
Qed.

Section Hashtags.
Context {CM : CaseMapping}.

Lemma twitter_generated_start (topic : jsstring) :
  Forall startsWithHash (Twitter.generateHashtags topic).
Proof.
  unfold Twitter.generateHashtags. apply Forall_forall. intros t Ht.
  apply in_map_iff in Ht as (w & <- & _). now eexists.
Qed.

Lemma fillGeneral_start (fuel nwords : nat) : forall hashtags,
  Forall startsWithHash hashtags ->
  Forall startsWithHash (LinkedIn.fillGeneral fuel nwords hashtags).
Proof.
  induction fuel as [|fuel IH]; intros hashtags H; cbn [LinkedIn.fillGeneral];
    [exact H|].
  destruct (_ <? LinkedIn.RECOMMENDED_HASHTAGS_min)%nat; [|exact H].
  destruct (_ <? nwords)%nat; [exact H|].
  destruct (nth_error _ _) as [t|] eqn:E; [|exact H].
  destruct (negb _); [|exact H].
  apply IH, Forall_app. split; [exact H|]. constructor; [|constructor].
  apply nth_error_In in E.
  destruct E as [<- | [<- | [<- | []]]]; now eexists.
Qed.

Lemma fillGeneral_length (fuel nwords : nat) : forall hashtags,
  (List.length hashtags <= List.length (LinkedIn.fillGeneral fuel nwords hashtags))%nat
  /\ (List.length hashtags <= 3 ->
      List.length (LinkedIn.fillGeneral fuel nwords hashtags) <= 3)%nat.
Proof.
  induction fuel as [|fuel IH]; intros hashtags; cbn [LinkedIn.fillGeneral];
    [lia|].
  destruct (Nat.ltb_spec (List.length hashtags) LinkedIn.RECOMMENDED_HASHTAGS_min)
    as [Hlt | Hge]; [|lia].
  destruct (_ <? nwords)%nat; [lia|].
  destruct (nth_error _ _) as [t|]; [|lia].
  destruct (negb _); [|lia].
  destruct (IH (hashtags ++ [t])) as [H1 H2].
  rewrite length_app in H1, H2. cbn [List.length] in H1, H2.
  unfold LinkedIn.RECOMMENDED_HASHTAGS_min in Hlt. lia.
Qed.

Lemma linkedin_generated (topic : jsstring) :
  (1 <= List.length (LinkedIn.generateHashtags topic) <= 3)%nat
  /\ Forall startsWithHash (LinkedIn.generateHashtags topic).
Proof.
  unfold LinkedIn.generateHashtags. cbv zeta.
  match goal with
  | |- context [slice0 3 ?w] => generalize w
  end.
  intros words.
  match goal with
  | |- context [LinkedIn.fillGeneral _ _ ?t] => set (tags := t)
  end.
  assert (Hs : Forall startsWithHash tags).
  { subst tags. apply Forall_forall. intros t Ht.
    apply in_map_iff in Ht as (w & <- & _). now eexists. }
  assert (Hl : (List.length tags <= 3)%nat).
  { subst tags. rewrite length_map. apply (slice0_length 3). }
  destruct (fillGeneral_length LinkedIn.RECOMMENDED_HASHTAGS_min (List.length words) tags)
    as [H1 H2].
  specialize (H2 Hl).
  assert (Hne : (1 <= List.length
                        (LinkedIn.fillGeneral LinkedIn.RECOMMENDED_HASHTAGS_min
                           (List.length words) tags))%nat).
  { subst tags. destruct words as [|w ws'].
    - cbn. lia.
    - cbn [slice0 firstn map List.length] in H1 |- *. lia. }
  split.
  - unfold slice0. rewrite firstn_all2
      by (unfold LinkedIn.RECOMMENDED_HASHTAGS_max; lia). lia.
  - apply Forall_slice0, fillGeneral_start, Hs.
Qed.

Lemma optimize_tags_at_end_twitter (content : jsstring) (context : ContentContext) :
  let o := Twitter.optimize content context in
  (Strategy.hashtags o = [] -> Strategy.content o = trim content)
  /\ (Strategy.hashtags o <> [] ->
      exists body,
        Strategy.content o
        = body ++ nl ++ nl
          ++ join (js " ") (map (fun h => js "#" ++ h) (Strategy.hashtags o))).
Proof.
  exact (appended_tags (fun x => x) (trim content)
           (trim (replaceAll re_hashtag [] (trim content)))
           (matchAll re_hashtag (trim content))
           (Twitter.generateHashtags (topic context))
           Twitter.MAX_HASHTAGS (truthy (includeHashtags context))
           (Nat.lt_0_succ _) (found_hashtags_start _)
           (twitter_generated_start _)).
Qed.

(** X20: both [optimize] write the hashtags they return at the end of
    the content.  When hashtags are returned, the content ends with a
    blank line followed by these hashtags, each with its hash sign,
    separated by single spaces.  When none is returned, the content is
    the trimmed input (Twitter), or the trimmed input with its line
    breaks optimized (LinkedIn). *)
Theorem optimize_appends_its_hashtags (content : jsstring) (context : ContentContext) :
  (let o := Twitter.optimize content context in
   (Strategy.hashtags o = [] -> Strategy.content o = trim content)
   /\ (Strategy.hashtags o <> [] ->
       exists body,
         Strategy.content o
         = body ++ nl ++ nl
           ++ join (js " ") (map (fun h => js "#" ++ h) (Strategy.hashtags o))))
  /\ (let o := LinkedIn.optimize content context in
      (Strategy.hashtags o = [] ->
       Strategy.content o = LinkedIn.optimizeLineBreaks (trim content))
      /\ (Strategy.hashtags o <> [] ->
          exists body,
            Strategy.content o
            = body ++ nl ++ nl
              ++ join (js " ") (map (fun h => js "#" ++ h) (Strategy.hashtags o)))).
Proof.
  split.
  - apply optimize_tags_at_end_twitter.
  - exact (appended_tags LinkedIn.optimizeLineBreaks (trim content)
             (trim (replaceAll re_hashtag [] (trim content)))
             (matchAll re_hashtag (trim content))
             (LinkedIn.generateHashtags (topic context))
             LinkedIn.RECOMMENDED_HASHTAGS_max (truthy (includeHashtags context))
             (Nat.lt_0_succ _) (found_hashtags_start _)
             (proj2 (linkedin_generated _))).
Qed.

(** X21: [LinkedInStrategy.generateHashtags] returns between one and
    three tags, each with its hash sign, whatever the topic; so a LinkedIn
    [optimize] that is asked for hashtags always returns at least one. *)
Theorem linkedin_always_has_hashtags (topic content : jsstring)
    (context : ContentContext) :
  (1 <= List.length (LinkedIn.generateHashtags topic) <= 3)%nat
  /\ Forall startsWithHash (LinkedIn.generateHashtags topic)
  /\ (truthy (includeHashtags context) = true ->
      Strategy.hashtags (LinkedIn.optimize content context) <> []).
Proof.
  split; [apply linkedin_generated|]. split; [apply linkedin_generated|].
  intros Hw. unfold LinkedIn.optimize. cbn [Strategy.hashtags]. rewrite Hw.
  destruct (linkedin_generated (Strategy.topic context)) as [[Hg _] _].
  destruct (matchAll re_hashtag (trim content)) as [|x xs].
  - cbn [List.length Nat.ltb Nat.leb Nat.eqb andb app].
    destruct (LinkedIn.generateHashtags (Strategy.topic context));
      [cbn in Hg; lia | discriminate].
  - cbn. discriminate.
Qed.

(** X22: the word count of an optimized text is the number of pieces
    between whitespace runs and is never zero: the empty text counts for
    one word. *)
Theorem optimized_word_count_positive
    (platform content : jsstring) (context : ContentContext) :
  (1 <= Strategy.wordCount
          (Strategy.metadata (Optimizer.optimize platform content context)))%nat
  /\ Strategy.wordCount (Strategy.metadata (Twitter.optimize [] Spec.plainContext))
     = 1%nat
  /\ Strategy.characterCount (Strategy.metadata (Twitter.optimize [] Spec.plainContext))
     = 0%nat.
Proof.
  split; [|split; reflexivity].
  unfold Optimizer.optimize.
  destruct (getStrategy_cases platform) as [-> | ->];
    [unfold Optimizer.twitterStrategy, Twitter.strategy, Twitter.optimize
    |unfold Optimizer.linkedinStrategy, LinkedIn.strategy, LinkedIn.optimize];
    cbv zeta; cbn [Strategy.optimize Strategy.metadata Strategy.wordCount];
    apply split_ws_nonempty.
Qed.

End Hashtags.

(** ** Prompts *)

Section Prompts.
Context {CM : CaseMapping}.
Import Generator.

(** X23: the prompt sent for a request.  It starts with the header of
    the platform followed by the topic of the request, verbatim, and by
    the tone line.  The tone named there is the request's; it is
    [conversational] when the request has none, because the service fills
    it in; and when the tone of the request is [null], which no default of
    the service replaces, it is the default of the strategy:
    [conversational] for Twitter, [professional yet conversational] for
    LinkedIn. *)
Theorem prompt_of_request (request : ContentGenerationRequest) :
  let linkedin := str_eqb (js "linkedin") (toLowerCase (req_platform request)) in
  exists header rest,
    Optimizer.generatePrompt (req_platform request) (buildContext request)
    = header ++ req_topic request ++ nl ++ nl
      ++ js "Requirements:" ++ nl
      ++ js "- Use a "
      ++ match req_tone request with
         | Given t => tone_string t
         | NotGiven => js "conversational"
         | Null => if linkedin then js "professional yet conversational"
                   else js "conversational"
         end
      ++ js " tone" ++ nl ++ rest
    /\ In header
         (if linkedin
          then [ js "Create a high-performing LinkedIn post about: " ]
          else [ js "Create a high-performing Twitter post about: ";
                 js "Create a high-performing Twitter thread about: " ]).
Proof.
  cbv zeta. unfold Optimizer.generatePrompt. rewrite getStrategy_eq.
  destruct (str_eqb (js "linkedin") (toLowerCase (req_platform request))).
  - change (Strategy.generatePrompt Optimizer.linkedinStrategy (buildContext request))
      with (LinkedIn.generatePrompt (buildContext request)).
    unfold LinkedIn.generatePrompt, tone_or, buildContext. cbn [tone topic].
    destruct (req_tone request); cbn [destructured];
      (eexists; eexists; split; [reflexivity | left; reflexivity]).
  - change (Strategy.generatePrompt Optimizer.twitterStrategy (buildContext request))
      with (Twitter.generatePrompt (buildContext request)).
    unfold Twitter.generatePrompt.
    destruct (format_is _ _);
      [unfold Twitter.generateThreadPrompt | unfold Twitter.generateSingleTweetPrompt];
      unfold tone_or, buildContext; cbn [tone topic];
      destruct (req_tone request); cbn [destructured];
      (eexists; eexists; split;
       [reflexivity | first [left; reflexivity | right; left; reflexivity]]).
Qed.

(** X24: the constraints endpoint answers for every identifier: with the
    LinkedIn constraints exactly when the lower-cased identifier is
    [linkedin], and with the Twitter constraints for every other
    identifier, known or not. *)
Theorem constraints_of_any_platform (platform : jsstring) :
  Controller.getPlatformConstraints platform
  = (if str_eqb (js "linkedin") (toLowerCase platform)
     then LinkedIn.getConstraints else Twitter.getConstraints)
  /\ maxLength (Controller.getPlatformConstraints platform)
     = (if str_eqb (js "linkedin") (toLowerCase platform) then 3000 else 280)%nat
  /\ Controller.getAvailablePlatforms = [js "twitter"; js "linkedin"].
Proof.
  unfold Controller.getPlatformConstraints, Generator.getPlatformConstraints,
    Optimizer.getPlatformConstraints.
  rewrite getStrategy_eq.
  destruct (str_eqb _ _); repeat split; reflexivity.
Qed.

End Prompts.

(** A LinkedIn request whose tone is [null]: the prompt names the tone of
    the strategy. *)
Lemma prompt_of_request_null_tone :
  exists rest,
    Optimizer.generatePrompt (CM := ascii_case) (js "LinkedIn")
      (Generator.buildContext nullToneRequest)
    = js "Create a high-performing LinkedIn post about: " ++ js "remote work"
      ++ nl ++ nl ++ js "Requirements:" ++ nl
      ++ js "- Use a professional yet conversational tone" ++ nl ++ rest.
Proof.
  destruct (prompt_of_request (CM := ascii_case) nullToneRequest)
    as (header & rest & E & Hh).
  change (str_eqb (js "linkedin")
            (toLowerCase (CaseMapping := ascii_case)
               (Generator.req_platform nullToneRequest))) with true in Hh.
  destruct Hh as [<- | []].
  exists rest. exact E.
Defined.

(** ** Line breaks: the sentences seen by [optimizeLineBreaks] *)

Lemma matchAll_go_chr (p : char -> bool) (s : jsstring) : forall pre,
  matchAll_go (Chr p) 0 pre s = map (fun c => [c]) (filter p s).
Proof.
  induction s as [|c s IH]; intros pre; cbn [matchAll_go filter];
    rewrite rexec_chr; [reflexivity|].
  destruct (p c); cbn [map firstn]; now rewrite IH.
Qed.

Lemma count_newlines (s : jsstring) :
  List.length (matchAll re_newline s) = List.length (filter (N.eqb 10) s).
Proof.
  unfold matchAll. change re_newline with (Chr (N.eqb 10)).
  now rewrite matchAll_go_chr, length_map.
Qed.

Lemma rmatch_Chr {X} (p : char -> bool) (pre : jsstring) (c : char)
    (rest : jsstring) (cs : caps) (k : cont X) :
  rmatch (Chr p) pre (c :: rest) cs k = if p c then k (c :: pre) rest cs else None.
Proof. reflexivity. Qed.

Lemma span_len_all (p : char -> bool) (s : jsstring) :
  forallb p s = true -> span_len p s = List.length s.
Proof.
  induction s as [|c s IH]; [reflexivity|]. cbn [forallb span_len List.length].
  intros H. apply andb_true_iff in H as [-> H]. now rewrite IH.
Qed.

Section Sentences.

Local Abbreviation inner := (fun c : char => negb (is_stop c)).

Lemma rexec_sentence (pre s : jsstring) :
  rexec LinkedIn.re_sentence pre s
  = if ((1 <=? span_len inner s)%nat
        && (1 <=? span_len is_stop (skipn (span_len inner s) s))%nat)%bool
    then Some ((span_len inner s
                + span_len is_stop (skipn (span_len inner s) s))%nat, [])
    else None.
Proof.
  unfold rexec.
  change (rmatch LinkedIn.re_sentence pre s []
            (fun _ rest' cs => Some ((List.length s - List.length rest')%nat, cs)))
    with (rmatch (Chr inner) pre s []
            (fun pre1 rest1 cs1 =>
               rmatch (Star (Chr inner)) pre1 rest1 cs1
                 (fun pre2 rest2 cs2 =>
                    rmatch (at_least 1 (Chr is_stop)) pre2 rest2 cs2
                      (fun _ rest' cs =>
                         Some ((List.length s - List.length rest')%nat, cs))))).
  destruct s as [|c s]; [reflexivity|].
  rewrite rmatch_Chr. cbn [span_len].
  destruct (negb (is_stop c)); [|reflexivity].
  rewrite rmatch_star_chr, star_chr_end.
  - rewrite (rmatch_at_least is_stop
               (fun rest' cs' =>
                  ((List.length (c :: s) - List.length rest')%nat, cs'))).
    cbn [skipn]. change (1 <=? S (span_len inner s))%nat with true. cbn [andb].
    destruct (1 <=? span_len is_stop (skipn (span_len inner s) s))%nat;
      [|reflexivity].
    rewrite !length_skipn.
    pose proof (span_len_le inner s) as Ha.
    pose proof (span_len_le is_stop (skipn (span_len inner s) s)) as Hb.
    rewrite length_skipn in Hb.
    do 2 f_equal. cbn [List.length]. lia.
  - intros pre' d rest cs Hd.
    rewrite (rmatch_at_least is_stop
               (fun rest' cs' =>
                  ((List.length (c :: s) - List.length rest')%nat, cs'))).
    cbn [span_len]. apply negb_true_iff in Hd. now rewrite Hd.
Qed.

Lemma rexec_sentence_le (pre s : jsstring) (n : nat) (cs : caps) :
  rexec LinkedIn.re_sentence pre s = Some (n, cs) -> (n <= List.length s)%nat.
Proof.
  rewrite rexec_sentence. destruct (_ && _)%bool; [|discriminate].
  intros [= <- _].
  pose proof (span_len_le inner s) as Ha.
  pose proof (span_len_le is_stop (skipn (span_len inner s) s)) as Hb.
  rewrite length_skipn in Hb. lia.
Qed.

Lemma endsIn_tail (p : char -> bool) (c : char) (s : jsstring) :
  endsIn p (c :: s) = true -> endsIn p s = true.
Proof. destruct s; [reflexivity | exact (fun H => H)]. Qed.

Lemma span_inner_app (u t : jsstring) :
  u <> [] -> endsIn is_stop u = true ->
  span_len inner (u ++ t) = span_len inner u.
Proof.
  induction u as [|c u IH]; intros Hne He; [now elim Hne|].
  destruct u as [|c' u].
  - cbn [endsIn] in He. cbn [app span_len]. now rewrite He.
  - cbn [app span_len]. destruct (negb (is_stop c)); [|reflexivity].
    f_equal. apply IH; [discriminate | exact He].
Qed.

Lemma span_stop_app (v t : jsstring) :
  forallb inner t = true -> span_len is_stop (v ++ t) = span_len is_stop v.
Proof.
  intros Ht. induction v as [|c v IH]; cbn [app span_len].
  - destruct t as [|d t]; [reflexivity|]. cbn [forallb span_len] in *.
    apply andb_true_iff in Ht as [Hd _]. apply negb_true_iff in Hd.
    now rewrite Hd.
  - destruct (is_stop c); [now rewrite IH | reflexivity].
Qed.

Lemma rexec_sentence_app (pre u t : jsstring) :
  u <> [] -> endsIn is_stop u = true -> forallb inner t = true ->
  rexec LinkedIn.re_sentence pre (u ++ t) = rexec LinkedIn.re_sentence pre u.
Proof.
  intros Hne He Ht. rewrite !rexec_sentence, (span_inner_app u t Hne He).
  pose proof (span_len_le inner u) as Ha.
  rewrite skipn_app.
  replace (span_len inner u - List.length u)%nat with 0%nat by lia.
  cbn [skipn]. now rewrite (span_stop_app _ t Ht).
Qed.

Lemma tail_without_sentence (t : jsstring) :
  forallb inner t = true -> forall pre, matchAll_go LinkedIn.re_sentence 0 pre t = [].
Proof.
  induction t as [|c t IH]; intros Ht pre; cbn [matchAll_go].
  - now rewrite rexec_sentence.
  - rewrite rexec_sentence, (span_len_all inner (c :: t) Ht), skipn_all.
    cbn [span_len Nat.leb andb]. rewrite andb_false_r.
    cbn [forallb] in Ht. apply andb_true_iff in Ht as [_ Ht]. now apply IH.
Qed.

Lemma matchAll_sentence_app (t : jsstring) :
  forallb inner t = true ->
  forall u skip pre,
    (skip <= List.length u)%nat -> endsIn is_stop u = true ->
    matchAll_go LinkedIn.re_sentence skip pre (u ++ t)
    = matchAll_go LinkedIn.re_sentence skip pre u.
Proof.
  intros Ht. induction u as [|c u IH]; intros skip pre Hs He.
  - cbn [List.length] in Hs. replace skip with 0%nat by lia. cbn [app].
    rewrite (tail_without_sentence t Ht). cbn [matchAll_go].
    now rewrite rexec_sentence.
  - cbn [app matchAll_go]. cbn [List.length] in Hs.
    pose proof (endsIn_tail _ _ _ He) as He'.
    destruct skip as [|k]; [|apply IH; [lia | exact He']].
    change (c :: u ++ t) with ((c :: u) ++ t).
    rewrite (rexec_sentence_app pre (c :: u) t) by (auto; discriminate).
    destruct (rexec LinkedIn.re_sentence pre (c :: u)) as [[[|n] cs]|] eqn:E.
    + f_equal. apply IH; [lia | exact He'].
    + apply rexec_sentence_le in E. cbn [List.length] in E.
      rewrite firstn_app.
      replace (S n - List.length (c :: u))%nat with 0%nat
        by (cbn [List.length]; lia).
      cbn [firstn]. rewrite app_nil_r. f_equal. apply IH; [lia | exact He'].
    + apply IH; [lia | exact He'].
Qed.

(** X25: [optimizeLineBreaks] rebuilds a text from its sentences, the
    matches of a pattern that requires closing punctuation, so what
    follows the last of [. ! ?] is lost.  For a text with fewer than four
    line feeds whose part up to the last closing punctuation holds at
    least three sentences, the result is the same as for that part alone:
    the unfinished tail does not appear in it. *)
Theorem optimizeLineBreaks_drops_unfinished_tail (body tail : jsstring) :
  endsIn is_stop body = true ->
  forallb (fun c => negb (is_stop c)) tail = true ->
  (List.length (matchAll re_newline (body ++ tail)) < 4)%nat ->
  (3 <= List.length (matchAll LinkedIn.re_sentence body))%nat ->
  LinkedIn.optimizeLineBreaks (body ++ tail) = LinkedIn.optimizeLineBreaks body.
Proof.
  intros He Ht Hn Hm. unfold LinkedIn.optimizeLineBreaks. cbv zeta.
  unfold matchAll at 2 3 4.
  rewrite (matchAll_sentence_app tail Ht body 0 [] (Nat.le_0_l _) He).
  fold (matchAll LinkedIn.re_sentence body).
  destruct (matchAll LinkedIn.re_sentence body) as [|x m]; [cbn in Hm; lia|].
  destruct (Nat.leb_spec (List.length (x :: m)) 2); [exfalso; lia|].
  rewrite count_newlines, filter_app, length_app in Hn.
  rewrite !count_newlines, filter_app, length_app.
  unfold char in *.
  match goal with
  | |- context [(4 <=? ?x + ?y)%nat] =>
      destruct (Nat.leb_spec 4 (x + y)); [exfalso; lia|]
  end.
  match goal with
  | |- context [(4 <=? ?x)%nat] =>
      destruct (Nat.leb_spec 4 x); [exfalso; lia|]
  end.
  reflexivity.
Qed.

End Sentences.

Lemma optimizeLineBreaks_drops_unfinished_tail_example :
  LinkedIn.optimizeLineBreaks (js "One. Two. Three. and then some")
  = js "One. Two." ++ nl ++ nl ++ js "Three.".
Proof.
  change (js "One. Two. Three. and then some")
    with (js "One. Two. Three." ++ js " and then some").
  rewrite optimizeLineBreaks_drops_unfinished_tail;
    [reflexivity | reflexivity | reflexivity | vm_compute; lia | vm_compute; lia].
Defined.

(** ** Failures and empty answers of the transport *)

Section Transport.
Context {CM : CaseMapping}.
Import Generator.

(** X26: a response is returned only when every request posted for it
    was answered: there is no fallback to the first draft when the retry
    fails, and none to a canned text when the first request fails. *)
Theorem every_posted_request_was_answered
    (request : ContentGenerationRequest) (st : OpenRouter.State)
    (http : OpenRouter.Http) (response : ContentGenerationResponse) :
  fst (run (generateContent request) (OpenRouter.aiProvider st http) [])
  = Some response ->
  forall n call,
    nth_error (snd (run (generateContent request) (OpenRouter.aiProvider st http) []))
              n = Some call ->
    exists data,
      http n (OpenRouter.requestBody st (fst call) (snd call))
      = OpenRouter.HttpResponse data.
Proof.
  rewrite run_generateContent. cbv zeta.
  destruct (OpenRouter.aiProvider st http [] _ _) as [r1|] eqn:E1; [|discriminate].
  destruct (aiProvider_answer _ _ _ _ _ _ E1) as (d1 & Hd1 & _).
  destruct (needsRegeneration _).
  - cbn [fst snd].
    match goal with
    | |- context [option_map _ ?x] => destruct x as [r2|] eqn:E2
    end; [|discriminate].
    destruct (aiProvider_answer _ _ _ _ _ _ E2) as (d2 & Hd2 & _).
    intros _ n call Hn. destruct n as [|[|n]]; cbn [nth_error] in Hn.
    + injection Hn as <-. now exists d1.
    + injection Hn as <-. now exists d2.
    + destruct n; discriminate Hn.
  - cbn [fst snd]. intros _ n call Hn. destruct n as [|n]; cbn [nth_error] in Hn.
    + injection Hn as <-. now exists d1.
    + destruct n; discriminate Hn.
Qed.

Lemma toLowerCase_nil : toLowerCase [] = [].
Proof. now rewrite toLowerCase_ascii. Qed.

Lemma isGeneric_nil : Validator.isGeneric [] = false.
Proof. unfold Validator.isGeneric. rewrite toLowerCase_nil. reflexivity. Qed.

(** X27: an answer without text gives a valid, empty tweet.  When the
    first answer of the API has no choice, the platform is not LinkedIn
    and hashtags were not asked for, the request is not retried and the
    response has empty content, no hashtags, and is marked valid. *)
Theorem empty_answer_gives_valid_empty_tweet
    (request : ContentGenerationRequest) (st : OpenRouter.State)
    (http : OpenRouter.Http) (data : OpenRouter.OpenRouterResponse) :
  toLowerCase (req_platform request) <> js "linkedin" ->
  req_includeHashtags request <> Some true ->
  http 0%nat
    (OpenRouter.requestBody st
       (Optimizer.generatePrompt (req_platform request) (buildContext request))
       (firstCallOptions (default (req_options request) no_options)))
  = OpenRouter.HttpResponse data ->
  OpenRouter.choices data = [] ->
  exists response,
    run (generateContent request) (OpenRouter.aiProvider st http) []
    = (Some response,
       [(Optimizer.generatePrompt (req_platform request) (buildContext request),
         firstCallOptions (default (req_options request) no_options))])
    /\ content response = []
    /\ hashtags response = []
    /\ isValid (validation response) = true.
Proof.
  intros Hp Hh Hd Hc.
  assert (Es : Optimizer.getStrategy (req_platform request) = Optimizer.twitterStrategy).
  { rewrite getStrategy_eq. destruct (str_eqb _ _) eqn:E; [|reflexivity].
    apply str_eqb_eq in E. now elim Hp. }
  assert (Et : truthy (includeHashtags (buildContext request)) = false).
  { unfold buildContext. cbn [includeHashtags truthy].
    destruct (req_includeHashtags request) as [[|]|]; try reflexivity.
    now elim Hh. }
  rewrite run_generateContent. cbv zeta.
  unfold OpenRouter.aiProvider at 1, OpenRouter.generateContent at 1.
  cbn [List.length]. rewrite Hd, Hc. cbn [gr_content].
  assert (P0 : Optimizer.postProcess (req_platform request) [] (buildContext request)
               = []).
  { unfold Optimizer.postProcess. rewrite Es. reflexivity. }
  rewrite P0.
  assert (Hn : needsRegeneration (Validator.validateContent []) = false).
  { unfold needsRegeneration. rewrite validateContent_critical, isGeneric_nil.
    apply andb_false_r. }
  rewrite Hn. eexists. split; [reflexivity|].
  unfold buildResponse, buildResponseWith. cbn [content hashtags validation isValid].
  assert (O : Strategy.content
                (Optimizer.optimize (req_platform request) [] (buildContext request)) = []
              /\ Strategy.hashtags
                   (Optimizer.optimize (req_platform request) [] (buildContext request))
                 = []).
  { unfold Optimizer.optimize. rewrite Es.
    change (Strategy.optimize Optimizer.twitterStrategy [] (buildContext request))
      with (Twitter.optimize [] (buildContext request)).
    unfold Twitter.optimize. cbv zeta. cbn [Strategy.content Strategy.hashtags].
    change (matchAll re_hashtag (trim [])) with (@nil jsstring).
    cbn [List.length Nat.ltb Nat.leb app Nat.eqb]. rewrite Et.
    cbn [andb List.length Nat.ltb Nat.leb map]. split; reflexivity. }
  destruct O as [O1 O2]. rewrite O1, O2. repeat split.
  rewrite validateContent_critical, isGeneric_nil.
  unfold Optimizer.validate. rewrite Es.
  change (Strategy.validate Optimizer.twitterStrategy []) with (Twitter.validate []).
  rewrite twitter_isValid. reflexivity.
Qed.

End Transport.

Section TransportScenario.
Import Generator.

Lemma every_posted_request_was_answered_on_stub :
  exists call data,
    nth_error (snd (run (generateContent (CM := ascii_case) Spec.tweetRequest)
                        (OpenRouter.aiProvider defaultProvider stubHttp) []))
              0 = Some call
    /\ stubHttp 0%nat (OpenRouter.requestBody defaultProvider (fst call) (snd call))
       = OpenRouter.HttpResponse data.
Proof.
  destruct stub_run as (response & Hrun & _ & _ & _).
  destruct (run_calls (CM := ascii_case) Spec.tweetRequest
              (OpenRouter.aiProvider defaultProvider stubHttp)) as [E | (r1 & _ & _ & E)];
    cbv zeta in E.
  - eexists. 
    destruct (every_posted_request_was_answered (CM := ascii_case) _ _ _ _ Hrun 0%nat _
                ltac:(rewrite E; reflexivity)) as [data Hd].
    exists data. split; [rewrite E; reflexivity | exact Hd].
  - eexists.
    destruct (every_posted_request_was_answered (CM := ascii_case) _ _ _ _ Hrun 0%nat _
                ltac:(rewrite E; reflexivity)) as [data Hd].
    exists data. split; [rewrite E; reflexivity | exact Hd].
Defined.

Lemma empty_answer_gives_valid_empty_tweet_on_stub :
  exists response,
    fst (run (generateContent (CM := ascii_case) Spec.tweetRequest)
             (OpenRouter.aiProvider defaultProvider emptyHttp) []) = Some response
    /\ content response = []
    /\ isValid (validation response) = true.
Proof.
  destruct (empty_answer_gives_valid_empty_tweet (CM := ascii_case)
              Spec.tweetRequest defaultProvider emptyHttp emptyData)
    as (response & Hr & Hc & _ & Hv);
    [vm_compute; discriminate | discriminate | reflexivity | reflexivity |].
  exists response. rewrite Hr. repeat split; assumption.
Defined.

End TransportScenario.

(** ** Letter case and the quality check *)

Section LetterCase.

Lemma sameLetter_cases (x y : char) :
  sameLetter x y ->
  x = y \/ (is_upper x = true /\ y = (x + 32)%N)
  \/ (is_upper y = true /\ x = (y + 32)%N).
Proof.
  unfold sameLetter, ascii_lower.
  destruct (is_upper x) eqn:Ex; destruct (is_upper y) eqn:Ey; intros H.
  - left. lia.
  - right. left. split; [reflexivity | now symmetry].
  - right. right. split; [reflexivity | exact H].
  - now left.
Qed.

Lemma upper_listed (u : char) : is_upper u = true -> In u uppers.
Proof.
  unfold is_upper, in_range. rewrite andb_true_iff, !N.leb_le. intros [H1 H2].
  unfold uppers. apply in_map_iff. exists (N.to_nat u).
  split; [apply N2Nat.id|]. apply in_seq. lia.
Qed.

Lemma blind_class_ok (p : char -> bool) :
  blind_class p = true -> forall x y, sameLetter x y -> p x = p y.
Proof.
  unfold blind_class. rewrite forallb_forall. intros H x y Hxy.
  destruct (sameLetter_cases x y Hxy) as [-> | [[Hu ->] | [Hu ->]]];
    [reflexivity | |];
    specialize (H _ (upper_listed _ Hu)); apply Bool.eqb_prop in H;
    congruence.
Qed.

Lemma sameLetter_space (x y : char) : sameLetter x y -> is_space x = is_space y.
Proof. apply blind_class_ok. vm_compute. reflexivity. Qed.

Lemma sameLetter_word (x y : char) : sameLetter x y -> is_word x = is_word y.
Proof. apply blind_class_ok. vm_compute. reflexivity. Qed.

Lemma sameLetter_terminator (x y : char) :
  sameLetter x y -> is_line_terminator x = is_line_terminator y.
Proof. apply blind_class_ok. vm_compute. reflexivity. Qed.

Lemma sameText_length (a b : jsstring) :
  sameText a b -> List.length a = List.length b.
Proof. apply Forall2_length. Qed.

Lemma sameText_refl (a : jsstring) : sameText a a.
Proof. induction a; constructor; [reflexivity | assumption]. Qed.

Lemma sameText_rev (a b : jsstring) : sameText a b -> sameText (rev a) (rev b).
Proof.
  induction 1 as [|x y a b Hxy _ IH]; [constructor|].
  cbn [rev]. apply Forall2_app; [exact IH | now repeat constructor].
Qed.

Lemma sameText_lower (a b : jsstring) :
  map ascii_lower a = map ascii_lower b -> sameText a b.
Proof.
  revert b. induction a as [|x a IH]; intros [|y b] H; try discriminate H;
    [constructor|].
  cbn [map] in H. injection H as Hxy H. constructor; [exact Hxy | now apply IH].
Qed.

Lemma prev_is_word_blind (a b : jsstring) :
  sameText a b -> prev_is is_word a = prev_is is_word b.
Proof. destruct 1; [reflexivity | now apply sameLetter_word]. Qed.

Lemma at_bol_blind (ml : bool) (a b : jsstring) :
  sameText a b -> at_bol ml a = at_bol ml b.
Proof.
  destruct 1 as [|x y a b Hxy _]; [reflexivity|]. cbn [at_bol].
  now rewrite (sameLetter_terminator _ _ Hxy).
Qed.

Lemma agree_match {X Y} (Q : X -> Y -> Prop) (o : option X) (o' : option Y)
    (d : option X) (d' : option Y) :
  agree Q o o' -> agree Q d d' ->
  agree Q (match o with Some x => Some x | None => d end)
          (match o' with Some y => Some y | None => d' end).
Proof. destruct o, o'; cbn; tauto. Qed.

Section Matcher.
Context {X Y : Type} (Q : X -> Y -> Prop).

(** Continuations that agree on texts that differ in case only. *)
Local Abbreviation agreeing k k' :=
  (forall p p' t t' c c',
     sameText p p' -> sameText t t' -> agree Q (k p t c) (k' p' t' c')).

Lemma star_loop_blind
    (step : jsstring -> jsstring -> caps -> cont X -> option X)
    (step' : jsstring -> jsstring -> caps -> cont Y -> option Y) :
  (forall pre pre' rest rest' cs cs' (k : cont X) (k' : cont Y),
     sameText pre pre' -> sameText rest rest' -> agreeing k k' ->
     agree Q (step pre rest cs k) (step' pre' rest' cs' k')) ->
  forall (k : cont X) (k' : cont Y), agreeing k k' ->
  forall fuel pre pre' rest rest' cs cs',
    sameText pre pre' -> sameText rest rest' ->
    agree Q (star_loop step k fuel pre rest cs)
            (star_loop step' k' fuel pre' rest' cs').
Proof.
  intros Hstep k k' Hk.
  induction fuel as [|fuel IH]; intros pre pre' rest rest' cs cs' Hp Hr;
    cbn [star_loop]; [now apply Hk|].
  apply agree_match; [|now apply Hk].
  apply Hstep; [exact Hp | exact Hr |].
  intros p p' t t' c c' Hp' Ht'.
  rewrite (sameText_length _ _ Ht'), (sameText_length _ _ Hr).
  destruct (_ <? _)%nat; [now apply IH | exact I].
Qed.

Lemma rmatch_blind (r : regex) :
  caseBlind r = true ->
  forall pre pre' rest rest' cs cs' (k : cont X) (k' : cont Y),
    sameText pre pre' -> sameText rest rest' -> agreeing k k' ->
    agree Q (rmatch r pre rest cs k) (rmatch r pre' rest' cs' k').
Proof.
  induction r as [|p|r1 IH1 r2 IH2|r1 IH1 r2 IH2|r1 IH1|ml| | |i r1 IH1];
    cbn [caseBlind]; intros Hb pre pre' rest rest' cs cs' k k' Hp Hr Hk;
    cbn [rmatch].
  - now apply Hk.
  - destruct Hr as [|x y rest rest' Hxy Hr]; [exact I|].
    rewrite (blind_class_ok p Hb x y Hxy).
    destruct (p y); [|exact I]. apply Hk; [now constructor | exact Hr].
  - apply andb_true_iff in Hb as [Hb1 Hb2].
    apply IH1; [exact Hb1 | exact Hp | exact Hr |].
    intros p p' t t' c c' Hp' Ht'. now apply IH2.
  - apply andb_true_iff in Hb as [Hb1 Hb2].
    apply agree_match; [now apply IH1 | now apply IH2].
  - rewrite (sameText_length _ _ Hr).
    apply star_loop_blind; [|exact Hk | exact Hp | exact Hr].
    intros. now apply IH1.
  - rewrite (at_bol_blind ml _ _ Hp).
    destruct (at_bol ml pre'); [now apply Hk | exact I].
  - destruct Hr; [apply Hk; [exact Hp | constructor] | exact I].
  - rewrite (prev_is_word_blind _ _ Hp), (prev_is_word_blind _ _ Hr).
    destruct (xorb _ _); [now apply Hk | exact I].
  - apply IH1; [exact Hb | exact Hp | exact Hr |].
    intros p p' t t' c c' Hp' Ht'. now apply Hk.
Qed.

End Matcher.

Lemma rexec_blind (r : regex) (pre pre' s s' : jsstring) :
  caseBlind r = true -> sameText pre pre' -> sameText s s' ->
  agree (fun x y : nat * caps => fst x = fst y) (rexec r pre s) (rexec r pre' s').
Proof.
  intros Hb Hp Hs. unfold rexec. apply rmatch_blind; [exact Hb | exact Hp | exact Hs |].
  intros p p' t t' c c' _ Ht. cbn [agree fst].
  now rewrite (sameText_length _ _ Ht), (sameText_length _ _ Hs).
Qed.

Lemma test_from_blind (r : regex) (s s' : jsstring) :
  caseBlind r = true -> sameText s s' ->
  forall pre pre', sameText pre pre' -> test_from r pre s = test_from r pre' s'.
Proof.
  intros Hb Hs. induction Hs as [|x y s s' Hxy Hs IH]; intros pre pre' Hp;
    cbn [test_from].
  - pose proof (rexec_blind r pre pre' [] [] Hb Hp (Forall2_nil _)) as H.
    destruct (rexec r pre []), (rexec r pre' []); cbn in H; tauto.
  - pose proof (rexec_blind r pre pre' (x :: s) (y :: s') Hb Hp
                  (Forall2_cons _ _ Hxy Hs)) as H.
    destruct (rexec r pre (x :: s)), (rexec r pre' (y :: s')); cbn in H;
      try tauto.
    apply IH. now constructor.
Qed.

Lemma test_blind (r : regex) (s s' : jsstring) :
  caseBlind r = true -> sameText s s' -> test r s = test r s'.
Proof. intros Hb Hs. apply test_from_blind; [exact Hb | exact Hs | constructor]. Qed.

Lemma split_go_blind (r : regex) (s s' : jsstring) :
  caseBlind r = true -> sameText s s' ->
  forall skip pre pre' cur cur',
    sameText pre pre' -> sameText cur cur' ->
    Forall2 sameText (split_go r skip pre cur s) (split_go r skip pre' cur' s').
Proof.
  intros Hb Hs. induction Hs as [|x y s s' Hxy Hs IH];
    intros skip pre pre' cur cur' Hp Hc; cbn [split_go].
  - constructor; [now apply sameText_rev | constructor].
  - assert (Hp' : sameText (x :: pre) (y :: pre')) by now constructor.
    destruct skip as [|k]; [|apply IH; [exact Hp' | constructor]].
    pose proof (rexec_blind r pre pre' (x :: s) (y :: s') Hb Hp
                  (Forall2_cons _ _ Hxy Hs)) as H.
    destruct (rexec r pre (x :: s)) as [[n cs]|],
             (rexec r pre' (y :: s')) as [[n' cs']|]; cbn in H; try tauto.
    + subst n'. destruct n as [|n].
      * destruct Hc as [|u v cur cur' Huv Hc].
        -- apply IH; [exact Hp' | now repeat constructor].
        -- constructor;
             [apply (sameText_rev (u :: cur) (v :: cur')); now constructor|].
           apply IH; [exact Hp' | now repeat constructor].
      * constructor; [now apply sameText_rev|].
        apply IH; [exact Hp' | constructor].
    + apply IH; [exact Hp' | now constructor].
Qed.

Lemma split_blind (r : regex) (s s' : jsstring) :
  caseBlind r = true -> sameText s s' ->
  Forall2 sameText (split r s) (split r s').
Proof.
  intros Hb Hs. destruct Hs as [|x y s s' Hxy Hs]; cbn [split].
  - destruct (rexec r [] []); repeat constructor.
  - apply split_go_blind; [exact Hb | now constructor | constructor | constructor].
Qed.

Lemma dropWhile_blind (a b : jsstring) :
  sameText a b -> sameText (dropWhile is_space a) (dropWhile is_space b).
Proof.
  induction 1 as [|x y a b Hxy H IH]; [constructor|]. cbn [dropWhile].
  rewrite (sameLetter_space _ _ Hxy).
  destruct (is_space y); [exact IH | now constructor].
Qed.

Lemma trim_blind (a b : jsstring) : sameText a b -> sameText (trim a) (trim b).
Proof.
  intros H. unfold trim, trimEnd, trimStart.
  now apply sameText_rev, dropWhile_blind, sameText_rev, dropWhile_blind.
Qed.

Lemma Forall2_filter {A} (R : A -> A -> Prop) (f : A -> bool) (l l' : list A) :
  (forall x y, R x y -> f x = f y) ->
  Forall2 R l l' -> Forall2 R (filter f l) (filter f l').
Proof.
  intros Hf. induction 1 as [|x y l l' Hxy _ IH]; [constructor|].
  cbn [filter]. rewrite (Hf _ _ Hxy). destruct (f y); [now constructor | exact IH].
Qed.

Lemma Forall2_map_eq {A B} (R : A -> A -> Prop) (f : A -> B) (l l' : list A) :
  (forall x y, R x y -> f x = f y) -> Forall2 R l l' -> map f l = map f l'.
Proof.
  intros Hf. induction 1 as [|x y l l' Hxy _ IH]; [reflexivity|].
  cbn [map]. now rewrite (Hf _ _ Hxy), IH.
Qed.

Lemma ws_blind : caseBlind (plus ws) = true.
Proof. vm_compute. reflexivity. Qed.

Lemma sentencesOf_blind (a b : jsstring) :
  sameText a b ->
  Forall2 sameText (Validator.sentencesOf a) (Validator.sentencesOf b).
Proof.
  intros H. unfold Validator.sentencesOf. apply Forall2_filter.
  - intros x y Hxy. now rewrite (sameText_length _ _ (trim_blind _ _ Hxy)).
  - apply split_blind; [vm_compute; reflexivity | exact H].
Qed.

End LetterCase.

Section QualityCase.
Context {CM : CaseMapping}.
Local Open Scope R_scope.

Lemma calculateSentenceVariety_blind (a b : jsstring) :
  sameText a b ->
  Validator.calculateSentenceVariety a = Validator.calculateSentenceVariety b.
Proof.
  intros H. pose proof (sentencesOf_blind a b H) as Hs.
  unfold Validator.calculateSentenceVariety. cbv zeta.
  rewrite (Forall2_length Hs).
  rewrite (Forall2_map_eq sameText
             (fun s => INR (List.length (split (plus ws) (trim s))))
             (Validator.sentencesOf a) (Validator.sentencesOf b)); [reflexivity | | exact Hs].
  intros x y Hxy. f_equal.
  apply (Forall2_length (split_blind _ _ _ ws_blind (trim_blind _ _ Hxy))).
Qed.

Lemma words_blind (f : jsstring -> bool) (a b : jsstring) :
  (forall x y, sameText x y -> f x = f y) -> sameText a b ->
  List.length (filter f (split (plus ws) a))
  = List.length (filter f (split (plus ws) b)).
Proof.
  intros Hf H. apply (Forall2_length (R := sameText)).
  apply Forall2_filter; [exact Hf|]. now apply split_blind; [apply ws_blind|].
Qed.

Lemma calculateReadability_blind (a b : jsstring) :
  sameText a b -> toLowerCase a = toLowerCase b ->
  Validator.calculateReadability a = Validator.calculateReadability b.
Proof.
  intros H Hl. pose proof (sentencesOf_blind a b H) as Hs.
  unfold Validator.calculateReadability, Validator.countSyllables. cbv zeta.
  rewrite (Forall2_length Hs), Hl.
  match goal with
  | |- context [@List.length ?T (@filter ?T' ?f (split (plus ws) a))] =>
      replace (@List.length T (@filter T' f (split (plus ws) a)))
        with (@List.length T (@filter T' f (split (plus ws) b)));
      [reflexivity | symmetry; apply (words_blind f a b); [|exact H]]
  end.
  intros x y Hxy. now rewrite (sameText_length _ _ Hxy).
Qed.

Lemma detectEngagementElements_blind (a b : jsstring) :
  sameText a b ->
  Validator.detectEngagementElements a = Validator.detectEngagementElements b.
Proof.
  intros H. unfold Validator.detectEngagementElements. f_equal.
  apply filter_ext_in. intros e He. apply test_blind; [|exact H].
  assert (Hall : forallb (fun e => caseBlind (snd e)) Validator.ENGAGEMENT_ELEMENTS
                 = true) by (vm_compute; reflexivity).
  rewrite forallb_forall in Hall. exact (Hall e He).
Qed.

Lemma isGeneric_blind (a b : jsstring) :
  sameText a b -> toLowerCase a = toLowerCase b ->
  Validator.isGeneric a = Validator.isGeneric b.
Proof.
  intros H Hl. unfold Validator.isGeneric. cbv zeta.
  rewrite Hl, (sameText_length _ _ H).
  rewrite (test_blind (plus digit) a b) by (try (vm_compute; reflexivity); exact H).
  rewrite (test_blind Validator.re_specifics a b)
    by (try (vm_compute; reflexivity); exact H).
  reflexivity.
Qed.

Lemma validateContent_blind (a b : jsstring) :
  sameText a b -> toLowerCase a = toLowerCase b ->
  Validator.validateContent a = Validator.validateContent b.
Proof.
  intros H Hl.
  unfold Validator.validateContent, Validator.calculateQualityScore,
    Validator.detectAISlop, Validator.detectCorporateJargon.
  cbv zeta.
  rewrite Hl, (detectEngagementElements_blind a b H),
    (calculateReadability_blind a b H Hl), (calculateSentenceVariety_blind a b H),
    (isGeneric_blind a b H Hl).
  reflexivity.
Qed.

(** X28: the quality check does not look at letter case.  Two ASCII
    texts that differ only in the case of their letters get the same
    result from [validateContent]: the same scores, issues and metrics. *)
Theorem quality_check_ignores_letter_case (a b : jsstring) :
  forallb is_ascii a = true -> forallb is_ascii b = true ->
  map ascii_lower a = map ascii_lower b ->
  Validator.validateContent a = Validator.validateContent b.
Proof.
  intros Ha Hb H. apply validateContent_blind.
  - now apply sameText_lower.
  - now rewrite (toLowerCase_ascii a Ha), (toLowerCase_ascii b Hb).
Qed.

End QualityCase.

Lemma quality_check_ignores_letter_case_example :
  Validator.validateContent (CM := ascii_case) (js "Stop guessing. Measure 3 things!")
  = Validator.validateContent (CM := ascii_case) (js "STOP GUESSING. measure 3 Things!").
Proof.
  apply (quality_check_ignores_letter_case (CM := ascii_case)); reflexivity.
Defined.

(** ** Tweets without hashtags *)

Section SingleLine.
Context {CM : CaseMapping}.
Import Generator.

(** X29: with any scorer, a response for a platform other than LinkedIn
    that carries no hashtags is exactly the post-processed answer that the
    provider gave to the last request of the run, the retry when there
    was one.  So it is a single line: it has no line feed and no two
    whitespace characters in a row. *)
Theorem tweet_without_hashtags_is_single_line (validateContent : Scorer)
    (request : ContentGenerationRequest) (ai : Provider)
    (response : ContentGenerationResponse) :
  fst (run (generateContentWith validateContent request) ai []) = Some response ->
  toLowerCase (req_platform request) <> js "linkedin" ->
  hashtags response = [] ->
  (exists earlier prompt options answer,
     snd (run (generateContentWith validateContent request) ai [])
     = earlier ++ [(prompt, options)]
     /\ ai earlier prompt options = Some answer
     /\ content response = Twitter.postProcess (gr_content answer))
  /\ ~ In 10%N (content response)
  /\ runs_lt is_space 2 0 (content response) = true.
Proof.
  intros Hrun Hp Hh.
  assert (Es : Optimizer.getStrategy (req_platform request) = Optimizer.twitterStrategy).
  { rewrite getStrategy_eq. destruct (str_eqb _ _) eqn:E; [|reflexivity].
    apply str_eqb_eq in E. now elim Hp. }
  destruct (run_responseWith _ _ _ _ Hrun)
    as (r1 & earlier & prompt & options & answer & Hcalls & Hai & Hr).
  assert (Hc : content response = Twitter.postProcess (gr_content answer)).
  { subst response. unfold buildResponseWith in Hh |- *.
    cbn [content hashtags] in Hh |- *.
    unfold Optimizer.optimize, Optimizer.postProcess in Hh |- *.
    rewrite Es in Hh |- *.
    change (Strategy.postProcess Optimizer.twitterStrategy (gr_content answer)
              (buildContext request))
      with (Twitter.postProcess (gr_content answer)) in Hh |- *.
    change (Strategy.optimize Optimizer.twitterStrategy
              (Twitter.postProcess (gr_content answer)) (buildContext request))
      with (Twitter.optimize (Twitter.postProcess (gr_content answer))
              (buildContext request)) in Hh |- *.
    destruct (optimize_tags_at_end_twitter (Twitter.postProcess (gr_content answer))
                (buildContext request)) as [H _].
    rewrite (H Hh).
    destruct (twitter_postProcess_shape (gr_content answer)) as (_ & _ & T & _).
    now apply trim_id. }
  split; [now exists earlier, prompt, options, answer|].
  rewrite Hc.
  destruct (twitter_postProcess_shape (gr_content answer)) as (P & R & _).
  split; [|exact R].
  intros Hin. unfold plainSpaces in P. rewrite Forall_forall in P.
  specialize (P _ Hin eq_refl). discriminate P.
Qed.

End SingleLine.

Section SingleLineScenario.
Import Generator.

Lemma tweet_without_hashtags_is_single_line_on_stub :
  exists response,
    fst (run (generateContent (CM := ascii_case) Spec.tweetRequest)
             (OpenRouter.aiProvider defaultProvider stubHttp) []) = Some response
    /\ (exists earlier prompt options answer,
          snd (run (generateContent (CM := ascii_case) Spec.tweetRequest)
                   (OpenRouter.aiProvider defaultProvider stubHttp) [])
          = earlier ++ [(prompt, options)]
          /\ OpenRouter.aiProvider defaultProvider stubHttp earlier prompt options
             = Some answer
          /\ content response = Twitter.postProcess (gr_content answer))
    /\ ~ In 10%N (content response)
    /\ runs_lt is_space 2 0 (content response) = true.
Proof.
  destruct stub_run as (response & Hrun & _ & _ & Hh).
  exists response. split; [exact Hrun|].
  apply (tweet_without_hashtags_is_single_line (CM := ascii_case)
           (Validator.validateContent (CM := ascii_case)) _ _ _ Hrun);
    [vm_compute; discriminate | exact Hh].
Defined.

End SingleLineScenario.

(** ** Hashtags left in the text *)

Section StrippedHashtags.

Local Abbreviation hash := (N.eqb 35).

Lemma test_from_hashtag (o : jsstring) : forall pre,
  test_from re_hashtag pre o = negb (noPair hash is_word false o).
Proof.
  induction o as [|c o IH]; intros pre; cbn [test_from noPair];
    rewrite rexec_hashtag; [reflexivity|].
  cbn [andb negb]. destruct (N.eqb 35 c) eqn:Ec; cbn [andb].
  - destruct o as [|d o]; [reflexivity|]. cbn [span_len].
    destruct (is_word d) eqn:Ed.
    + cbn [Nat.leb noPair andb negb]. now rewrite Ed.
    + cbn [Nat.leb]. rewrite IH. cbn [noPair andb negb]. now rewrite Ed.
  - apply IH.
Qed.

Lemma replaceAll_go_skip (r : regex) (t : list rpiece) : forall k s pre,
  (k <= List.length s)%nat ->
  exists pre', replaceAll_go r t k pre s = replaceAll_go r t 0 pre' (skipn k s).
Proof.
  induction k as [|k IH]; intros s pre Hk; [now exists pre|].
  destruct s as [|c s]; [cbn in Hk; lia|].
  cbn [replaceAll_go skipn]. apply IH. cbn in Hk. lia.
Qed.

Lemma span_after_span (p : char -> bool) (s : jsstring) :
  span_len p (skipn (span_len p s) s) = 0%nat.
Proof.
  induction s as [|c s IH]; [reflexivity|]. cbn [span_len].
  destruct (p c) eqn:E; cbn [skipn span_len]; [exact IH | now rewrite E].
Qed.

Lemma stripped_noPair (n : nat) : forall s pre b,
  (List.length s <= n)%nat ->
  (b = true -> span_len is_word s = 0%nat) ->
  noPair hash is_word b (replaceAll_go re_hashtag [] 0 pre s) = true.
Proof.
  induction n as [|n IH]; intros s pre b Hn Hb.
  - destruct s; [reflexivity | cbn in Hn; lia].
  - destruct s as [|c s]; [reflexivity|].
    cbn [replaceAll_go]. rewrite rexec_hashtag.
    cbn [List.length] in Hn.
    destruct (N.eqb 35 c && (1 <=? span_len is_word s)%nat)%bool eqn:E.
    + cbn [expand app].
      destruct (replaceAll_go_skip re_hashtag [] (span_len is_word s) s (c :: pre)
                  (span_len_le _ _)) as [pre' ->].
      apply IH.
      * rewrite length_skipn. lia.
      * intros _. apply span_after_span.
    + cbn [noPair]. apply andb_true_iff. split.
      * destruct b; [|reflexivity]. specialize (Hb eq_refl).
        cbn [span_len] in Hb. destruct (is_word c); [discriminate Hb | reflexivity].
      * apply IH; [lia|]. intros Hc. rewrite Hc in E. cbn [andb] in E.
        apply Nat.leb_gt in E. lia.
Qed.

Lemma hashtags_all_removed (t : jsstring) :
  noPair hash is_word false (replaceAll re_hashtag [] t) = true.
Proof.
  unfold replaceAll. apply (stripped_noPair (List.length t));
    [lia | discriminate].
Qed.

Lemma noPair_prefix (A B : char -> bool) (a c : jsstring) : forall b,
  noPair A B b (a ++ c) = true -> noPair A B b a = true.
Proof.
  induction a as [|x a IH]; intros b H; [reflexivity|].
  cbn [app noPair] in *. apply andb_true_iff in H as [H1 H2].
  rewrite H1. now apply IH.
Qed.

Lemma noPair_suffix (A B : char -> bool) (a c : jsstring) : forall b,
  noPair A B b (a ++ c) = true -> noPair A B false c = true.
Proof.
  induction a as [|x a IH]; intros b H; [now apply noPair_weaken in H|].
  cbn [app noPair] in H. apply andb_true_iff in H as [_ H]. now apply IH in H.
Qed.

Lemma noPair_trim (A B : char -> bool) (s : jsstring) :
  noPair A B false s = true -> noPair A B false (trim s) = true.
Proof.
  intros H. unfold trim, trimEnd, trimStart.
  destruct (dropWhile_suffix s) as [a Ea].
  rewrite Ea in H. apply noPair_suffix in H.
  set (u := dropWhile is_space s) in *.
  destruct (dropWhile_suffix (rev u)) as [v Ev].
  assert (Eu : u = rev (dropWhile is_space (rev u)) ++ rev v).
  { rewrite <- rev_app_distr, <- Ev. now rewrite rev_involutive. }
  rewrite Eu in H. now apply noPair_prefix in H.
Qed.

End StrippedHashtags.

Section MovedHashtags.
Context {CM : CaseMapping}.

(** X30: what [TwitterStrategy.optimize] does with the hashtags of a
    text.  When the trimmed text has hashtags, the first two are moved to
    the end, after a blank line, and returned without their hash sign;
    every other hashtag is deleted: the pattern no longer matches in the
    text that precedes the blank line. *)
Theorem twitter_optimize_moves_hashtags (content : jsstring) (context : ContentContext) :
  let found := matchAll re_hashtag (trim content) in
  let o := Twitter.optimize content context in
  found <> [] ->
  exists body,
    Strategy.content o = body ++ nl ++ nl ++ join (js " ") (slice0 2 found)
    /\ test re_hashtag body = false
    /\ map (fun h => js "#" ++ h) (Strategy.hashtags o) = slice0 2 found.
Proof.
  cbv zeta. intros Hf.
  exists (trim (replaceAll re_hashtag [] (trim content))).
  assert (Hs : Forall startsWithHash (slice0 2 (matchAll re_hashtag (trim content))))
    by apply Forall_slice0, found_hashtags_start.
  unfold Twitter.optimize. cbv zeta. cbn [Strategy.content Strategy.hashtags].
  destruct (matchAll re_hashtag (trim content)) as [|x xs]; [now elim Hf|].
  cbn [List.length Nat.ltb Nat.leb app].
  change (slice0 Twitter.MAX_HASHTAGS (x :: xs)) with (x :: slice0 1 xs).
  change (slice0 2 (x :: xs)) with (x :: slice0 1 xs) in Hs |- *.
  cbn [List.length Nat.eqb andb]. rewrite andb_false_r.
  cbn [List.length Nat.ltb Nat.leb].
  split; [reflexivity|]. split.
  - unfold test. rewrite test_from_hashtag.
    now rewrite noPair_trim by apply hashtags_all_removed.
  - now apply strip_hashes.
Qed.

End MovedHashtags.

Lemma twitter_optimize_moves_hashtags_example :
  exists body,
    Strategy.content
      (Twitter.optimize (CM := ascii_case) (js "Ship it #dev #ops #extra now")
         Spec.plainContext)
    = body ++ nl ++ nl ++ js "#dev #ops"
    /\ test re_hashtag body = false.
Proof.
  destruct (twitter_optimize_moves_hashtags (CM := ascii_case)
              (js "Ship it #dev #ops #extra now") Spec.plainContext)
    as (body & Hc & Ht & _); [vm_compute; discriminate|].
  exists body. split; [exact Hc | exact Ht].
Defined.
